(** * FCLCollisionDetector: geometry cache, detection pipeline and contact
      post-processing of dart/collision/fcl/FCLCollisionDetector.cpp

    The development follows the source file top to bottom: the value types
    the anonymous namespace works on, [convertOption], [convertContact],
    [postProcess], [collisionCallback], the two [detect] overloads and the
    reference-counted shape map ([claimFCLCollisionGeometry] and
    [reclaimFCLCollisionGeometry]).  Library calls whose body lies outside
    the file (the narrow-phase primitive, the broad-phase managers, the
    vector conversion, the geometry builder) are section variables.  The
    mesh builders of the anonymous namespace, the geometry builder itself
    and [EmbeddedStateAspect] of dart/common/detail/EmbeddedAspect.h
    follow. *)

From Stdlib Require Import ZArith List Bool Lia Floats.PrimFloat Strings.String.
From Stdlib Require Import Uint63.
From stdpp Require Import gmap list.

Set Default Proof Using "Type".
Local Open Scope Z_scope.

(** ** Machine integers *)

(** [size_t] is 64 bits wide; subtraction wraps around. *)
Definition size_t_modulus : Z := 2 ^ 64.

Definition size_t_sub (a b : Z) : Z := (a - b) mod size_t_modulus.

(** The half-open index range [lo, hi) walked by
    [for (auto i = lo; i < hi; ++i)]. *)
Definition range (lo hi : nat) : list nat := seq lo (hi - lo).

(** ** Three-component vectors of doubles *)

(** [fcl::Vec3f] and [Eigen::Vector3d]: three doubles, with the componentwise
    difference and negation, the cross product and the Euclidean length
    the detector calls on them. *)
Module Vec3.

Record t : Set := mk { x : float; y : float; z : float }.

Definition sub (a b : t) : t :=
  mk (x a - x b)%float (y a - y b)%float (z a - z b)%float.

Definition neg (a : t) : t :=
  mk (- x a)%float (- y a)%float (- z a)%float.

Definition cross (a b : t) : t :=
  mk (y a * z b - z a * y b)%float
     (z a * x b - x a * z b)%float
     (x a * y b - y a * x b)%float.

Definition length (a : t) : float :=
  PrimFloat.sqrt (x a * x a + y a * y a + z a * z a)%float.

Definition zero : t := mk 0%float 0%float 0%float.

End Vec3.

(** ** Objects and contacts *)

(** Addresses stand for pointer identity. *)
Definition CollisionObjectPtr : Set := positive.

(** [FCLCollisionObject::UserData]: the back-reference stored in a native
    object. *)
Record UserData : Set := { mCollisionObject : CollisionObjectPtr }.

(** A native [fcl::CollisionObject]: its address and its user-data pointer,
    which may be null. *)
Record FclCollisionObject : Set := {
  fclAddr : positive;
  getUserData : option UserData
}.

(** [fcl::Contact], the fields the detector reads. *)
Record FclContact : Set := {
  pos : Vec3.t;
  normal : Vec3.t;
  penetration_depth : float;
  b1 : Z;
  b2 : Z
}.

(** [dart::collision::Contact]; [contactNormal] is its field [normal]. *)
Record Contact : Set := {
  point : Vec3.t;
  contactNormal : Vec3.t;
  penetrationDepth : float;
  triID1 : Z;
  triID2 : Z;
  collisionObject1 : CollisionObjectPtr;
  collisionObject2 : CollisionObjectPtr
}.

(** [dart::collision::Result]. *)
Record Result : Set := { contacts : list Contact }.

Definition Result_clear (_ : Result) : Result := {| contacts := [] |}.

(** [result.contacts.empty()] *)
Definition Result_empty (r : Result) : bool :=
  match contacts r with
  | [] => true
  | _ :: _ => false
  end.

Definition push_back (r : Result) (c : Contact) : Result :=
  {| contacts := contacts r ++ [c] |}.

(** [fcl::CollisionResult]: the vector of raw contacts. *)
Record CollisionResult : Set := { fclContacts : list FclContact }.

Definition CollisionResult_clear (_ : CollisionResult) : CollisionResult :=
  {| fclContacts := [] |}.

(** [numContacts()], a [size_t]. *)
Definition numContacts (r : CollisionResult) : Z :=
  Z.of_nat (List.length (fclContacts r)).

(** [isCollision()]: the raw result holds at least one contact. *)
Definition isCollision (r : CollisionResult) : bool :=
  0 <? numContacts r.

Definition nullContact : FclContact :=
  {| pos := Vec3.zero; normal := Vec3.zero; penetration_depth := 0%float;
     b1 := 0; b2 := 0 |}.

(** [getContact(i)] returns element [i], and the last element when [i] is
    out of range. *)
Definition getContact (r : CollisionResult) (i : nat) : FclContact :=
  nth i (fclContacts r) (List.last (fclContacts r) nullContact).

(** ** Tolerances of [postProcess] *)

Definition ZERO : float := 0x1.0c6f7a0b5ed8dp-20%float.
Definition ZERO2 : float := (ZERO * ZERO)%float.

(** [diff.length() < 3 * ZERO2] for [diff = contact1.pos - contact2.pos]. *)
Definition repeated (c1 c2 : FclContact) : bool :=
  (Vec3.length (Vec3.sub (pos c1) (pos c2)) <? 3 * ZERO2)%float.

(** [v.length() < ZERO2] for [v = va.cross(vb)], [va = c1.pos - c2.pos],
    [vb = c1.pos - c3.pos]. *)
Definition colinear (c1 c2 c3 : FclContact) : bool :=
  let va := Vec3.sub (pos c1) (pos c2) in
  let vb := Vec3.sub (pos c1) (pos c3) in
  let v := Vec3.cross va vb in
  (Vec3.length v <? ZERO2)%float.

(** ** The deletion marks *)

(** [markForDeletion[i]] *)
Definition isMarked (marks : list bool) (i : nat) : bool :=
  match marks !! i with
  | Some b => b
  | None => false
  end.

Section Marking.

Variable fclResult : CollisionResult.

Local Abbreviation n := (List.length (fclContacts fclResult)).

(** Inner loop of the first pass: [j] runs over [js]; the first repeated
    pair marks [i] and leaves the loop. *)
Fixpoint repeatedInner (i : nat) (js : list nat) (marks : list bool)
  : list bool :=
  match js with
  | [] => marks
  | j :: js' =>
      if repeated (getContact fclResult i) (getContact fclResult j)
      then <[i := true]> marks
      else repeatedInner i js' marks
  end.

(** First pass, "mark all the repeated points": [i] runs below [bound].
    The index variables are [unsigned] in the source and are compared
    against the [size_t] count; a raw contact set is a handful of points,
    so they are natural numbers here. *)
Definition markRepeated (bound : nat) (marks : list bool) : list bool :=
  foldl (fun m i => repeatedInner i (range (i + 1) n) m) marks
        (range 0 bound).

(** Innermost loop of the second pass: [k] runs over [ks]. *)
Fixpoint colinearK (i j : nat) (ks : list nat) (marks : list bool)
  : list bool :=
  match ks with
  | [] => marks
  | k :: ks' =>
      if isMarked marks k then colinearK i j ks' marks
      else if colinear (getContact fclResult i) (getContact fclResult j)
                       (getContact fclResult k)
           then <[i := true]> marks
           else colinearK i j ks' marks
  end.

(** Middle loop of the second pass: the [break] above leaves only the
    [k] loop, so [j] keeps running. *)
Fixpoint colinearJ (i : nat) (js : list nat) (marks : list bool)
  : list bool :=
  match js with
  | [] => marks
  | j :: js' =>
      if isMarked marks j then colinearJ i js' marks
      else colinearJ i js' (colinearK i j (range (j + 1) n) marks)
  end.

Definition colinearI (marks : list bool) (i : nat) : list bool :=
  if isMarked marks i then marks
  else colinearJ i (range (i + 1) n) marks.

(** Second pass, "remove all the co-linear contact points". *)
Definition markColinear (marks : list bool) : list bool :=
  foldl colinearI marks (range 0 n).

(** Both passes, from a vector of [n] unset marks; the first pass runs
    below [numContacts - 1], computed in [size_t]. *)
Definition markForDeletion : list bool :=
  markColinear
    (markRepeated (Z.to_nat (size_t_sub (numContacts fclResult) 1))
                  (replicate n false)).

End Marking.

(** ** Requests, options and the detector *)

Inductive GJKSolverType : Set := GST_LIBCCD | GST_INDEP.

(** [fcl::CollisionRequest]. *)
Record CollisionRequest : Set := {
  num_max_contacts : Z;
  enable_contact : bool;
  enable_cost : bool;
  gjk_solver_type : GJKSolverType
}.

(** The request a default-constructed [fcl::CollisionRequest] holds. *)
Definition defaultCollisionRequest : CollisionRequest :=
  {| num_max_contacts := 1; enable_contact := false; enable_cost := false;
     gjk_solver_type := GST_LIBCCD |}.

(** [CollisionFilter::needCollision] on two possibly null objects. *)
Definition CollisionFilter : Set :=
  option CollisionObjectPtr -> option CollisionObjectPtr -> bool.

(** [dart::collision::Option]. *)
Record Option : Set := {
  maxNumContacts : Z;
  enableContact : bool;
  collisionFilter : option CollisionFilter
}.

Definition convertOption (fclOption : Option) (request : CollisionRequest)
  : CollisionRequest :=
  {| num_max_contacts := maxNumContacts fclOption;
     enable_contact := enableContact fclOption;
     enable_cost := enable_cost request;
     gjk_solver_type := GST_LIBCCD |}.

(** A shape instance: its address (the identity [ConstShapePtr] compares
    by) and its parameters. *)
Inductive ShapeData : Set :=
| BoxShape (size : Vec3.t)
| EllipsoidShape (size : Vec3.t)
| CylinderShape (radius height : float)
| PlaneShape (planeNormal : Vec3.t) (offset : float)
| MeshShape (scale : Vec3.t) (mesh : positive)
| SoftMeshShape (mesh : positive)
| UnsupportedShape.

Record ConstShapePtr : Set := {
  shapeAddr : positive;
  shapeData : ShapeData
}.

(** [boost::shared_ptr<fcl::CollisionGeometry>]; [None] is the null
    pointer. *)
Definition CollisionGeometryPtr : Set := option positive.

(** The detector's two maps: [mShapeMap] keyed by shape address and
    [mFCLCollisionObjectMap] keyed by native object address. *)
Record FCLCollisionDetector : Type := {
  mShapeMap : gmap positive (CollisionGeometryPtr * Z);
  mFCLCollisionObjectMap : gmap positive CollisionObjectPtr
}.

Definition getTypeStatic : string := "FCL".

Definition findCollisionObject (this : FCLCollisionDetector)
    (fclCollObj : FclCollisionObject) : option CollisionObjectPtr :=
  mFCLCollisionObjectMap this !! fclAddr fclCollObj.

(** A collision group as [detect] sees it: its address and the type tag of
    the detector that made it. *)
Record CollisionGroup : Set := {
  groupAddr : positive;
  groupDetectorType : string
}.

(** Calls that leave the detector, recorded in the order they happen. *)
Inductive Event : Set :=
| EvUpdate (group : positive)
| EvBroadPhase (group : positive)
| EvBroadPhase2 (group1 group2 : positive)
| EvNeedCollision (collObj1 collObj2 : option CollisionObjectPtr)
| EvNarrowPhase (o1 o2 : positive).

(** Modelled from the spec: [CollisionGroup::update] is not in this file;
    it walks the members, refreshes their native data and the broad-phase
    index.  The refreshed index is what the candidate enumerations below
    read; the call itself is recorded. *)
Definition CollisionGroup_update (group : CollisionGroup) (tr : list Event)
  : list Event :=
  tr ++ [EvUpdate (groupAddr group)].

(** [FCLCollisionCallbackData]; [events] is the record of outside calls. *)
Record FCLCollisionCallbackData : Type := {
  mFclCollisionDetector : FCLCollisionDetector;
  mFclRequest : CollisionRequest;
  mFclResult : CollisionResult;
  mOption : option Option;
  mResult : option Result;
  done : bool;
  events : list Event
}.

(** The constructor: [done] starts false and the request is converted from
    the option when there is one. *)
Definition newCallbackData (collisionDetector : FCLCollisionDetector)
    (opt : option Option) (result : option Result) (tr : list Event)
  : FCLCollisionCallbackData :=
  {| mFclCollisionDetector := collisionDetector;
     mFclRequest :=
       match opt with
       | Some o => convertOption o defaultCollisionRequest
       | None => defaultCollisionRequest
       end;
     mFclResult := {| fclContacts := [] |};
     mOption := opt;
     mResult := result;
     done := false;
     events := tr |}.

(** ** The detection pipeline *)

Section Pipeline.

(** [FCLTypes::convertVector3], from the native vector type to Eigen's. *)
Variable convertVector3 : Vec3.t -> Vec3.t.

(** The narrow-phase primitive [fcl::collide(o1, o2, request, result)]:
    the result it leaves behind. *)
Variable fcl_collide :
  FclCollisionObject -> FclCollisionObject -> CollisionRequest ->
  CollisionResult -> CollisionResult.

(** The candidate pairs a group's broad-phase manager hands to the
    callback, within one group and across two. *)
Variable selfCandidates :
  CollisionGroup -> list (FclCollisionObject * FclCollisionObject).
Variable crossCandidates :
  CollisionGroup -> CollisionGroup ->
  list (FclCollisionObject * FclCollisionObject).

(** [None] stands for a failed [assert] on the user data. *)
Definition convertContact (fclContact : FclContact)
    (o1 o2 : FclCollisionObject) : option Contact :=
  let point := convertVector3 (pos fclContact) in
  userData1 ← getUserData o1;
  userData2 ← getUserData o2;
  Some {| point := point;
          contactNormal := Vec3.neg (convertVector3 (normal fclContact));
          penetrationDepth := penetration_depth fclContact;
          triID1 := b1 fclContact;
          triID2 := b2 fclContact;
          collisionObject1 := mCollisionObject userData1;
          collisionObject2 := mCollisionObject userData2 |}.

(** Last loop of [postProcess]: every unmarked raw contact is converted
    and pushed, in index order. *)
Fixpoint emitContacts (fclResult : CollisionResult)
    (o1 o2 : FclCollisionObject) (marks : list bool) (idxs : list nat)
    (result : Result) : option Result :=
  match idxs with
  | [] => Some result
  | i :: idxs' =>
      if isMarked marks i
      then emitContacts fclResult o1 o2 marks idxs' result
      else
        contact ← convertContact (getContact fclResult i) o1 o2;
        emitContacts fclResult o1 o2 marks idxs' (push_back result contact)
  end.

Definition postProcess (fclResult : CollisionResult)
    (o1 o2 : FclCollisionObject) (result : Result) : option Result :=
  let numContacts := numContacts fclResult in
  if numContacts =? 0 then Some result
  else
    emitContacts fclResult o1 o2 (markForDeletion fclResult)
                 (range 0 (Z.to_nat numContacts)) result.

Definition record (e : Event) (collData : FCLCollisionCallbackData)
  : FCLCollisionCallbackData :=
  {| mFclCollisionDetector := mFclCollisionDetector collData;
     mFclRequest := mFclRequest collData;
     mFclResult := mFclResult collData;
     mOption := mOption collData;
     mResult := mResult collData;
     done := done collData;
     events := events collData ++ [e] |}.

(** [collisionCallback] from "Clear previous results" to its end. *)
Definition narrowPhase (o1 o2 : FclCollisionObject) (result : Result)
    (collData : FCLCollisionCallbackData)
  : option (bool * FCLCollisionCallbackData) :=
  let fclRequest := mFclRequest collData in
  let fclResult := CollisionResult_clear (mFclResult collData) in
  let fclResult := fcl_collide o1 o2 fclRequest fclResult in
  let collData := record (EvNarrowPhase (fclAddr o1) (fclAddr o2)) collData in
  let done' :=
    if negb (enable_cost fclRequest)
       && isCollision fclResult
       && (num_max_contacts fclRequest <=? numContacts fclResult)
    then true else done collData in
  result' ← postProcess fclResult o1 o2 result;
  Some (done',
        {| mFclCollisionDetector := mFclCollisionDetector collData;
           mFclRequest := fclRequest;
           mFclResult := fclResult;
           mOption := mOption collData;
           mResult := Some result';
           done := done';
           events := events collData |}).

(** [None] stands for a null [mOption] or [mResult] being dereferenced,
    or for a failed [assert] further down. *)
Definition collisionCallback (o1 o2 : FclCollisionObject)
    (collData : FCLCollisionCallbackData)
  : option (bool * FCLCollisionCallbackData) :=
  result ← mResult collData;
  opt ← mOption collData;
  let filter := collisionFilter opt in
  if done collData then Some (true, collData)
  else
    match filter with
    | Some needCollision =>
        let collisionDetector := mFclCollisionDetector collData in
        let collObj1 := findCollisionObject collisionDetector o1 in
        let collObj2 := findCollisionObject collisionDetector o2 in
        let collData := record (EvNeedCollision collObj1 collObj2) collData in
        if negb (needCollision collObj1 collObj2)
        then Some (done collData, collData)
        else narrowPhase o1 o2 result collData
    | None => narrowPhase o1 o2 result collData
    end.

(** The broad-phase managers' [collide]: the callback is invoked on one
    candidate pair after another until it returns true or the pairs are
    exhausted. *)
Fixpoint broadPhaseCollide
    (pairs : list (FclCollisionObject * FclCollisionObject))
    (collData : FCLCollisionCallbackData)
  : option FCLCollisionCallbackData :=
  match pairs with
  | [] => Some collData
  | (o1, o2) :: pairs' =>
      '(stop, collData') ← collisionCallback o1 o2 collData;
      if (stop : bool) then Some collData'
      else broadPhaseCollide pairs' collData'
  end.

Definition sameDetectorType (group : CollisionGroup) : bool :=
  String.eqb (groupDetectorType group) getTypeStatic.

(** [detect(group, option, result)]; a null group is [None].  The outcome
    is the returned boolean, the caller's result and the record of
    outside calls. *)
Definition detect (this : FCLCollisionDetector)
    (group : option CollisionGroup) (opt : Option) (result : Result)
    (tr : list Event) : option (bool * Result * list Event) :=
  let result := Result_clear result in
  match group with
  | None => Some (false, result, tr)
  | Some group =>
      if negb (sameDetectorType group) then Some (false, result, tr)
      else
        let tr := CollisionGroup_update group tr in
        let collData := newCallbackData this (Some opt) (Some result) tr in
        let collData := record (EvBroadPhase (groupAddr group)) collData in
        collData ← broadPhaseCollide (selfCandidates group) collData;
        result ← mResult collData;
        Some (negb (Result_empty result), result,
              events collData)
  end.

(** [detect(group1, group2, option, result)]. *)
Definition detect2 (this : FCLCollisionDetector)
    (group1 group2 : option CollisionGroup) (opt : Option)
    (result : Result) (tr : list Event)
  : option (bool * Result * list Event) :=
  let result := Result_clear result in
  match group1, group2 with
  | Some group1, Some group2 =>
      if negb (sameDetectorType group1) then Some (false, result, tr)
      else if negb (sameDetectorType group2) then Some (false, result, tr)
      else
        let tr := CollisionGroup_update group1 tr in
        let tr := CollisionGroup_update group2 tr in
        let collData := newCallbackData this (Some opt) (Some result) tr in
        let collData :=
          record (EvBroadPhase2 (groupAddr group1) (groupAddr group2))
                 collData in
        collData ← broadPhaseCollide (crossCandidates group1 group2)
                                     collData;
        result ← mResult collData;
        Some (negb (Result_empty result), result,
              events collData)
  | _, _ => Some (false, result, tr)
  end.

End Pipeline.

(** ** The geometry cache *)

(** The detector together with the shapes the geometry builder was run on,
    oldest first. *)
Record Cache : Type := {
  detector : FCLCollisionDetector;
  builderCalls : list ConstShapePtr
}.

Definition setShapeMap (m : gmap positive (CollisionGeometryPtr * Z))
    (c : Cache) : Cache :=
  {| detector :=
       {| mShapeMap := m;
          mFCLCollisionObjectMap := mFCLCollisionObjectMap (detector c) |};
     builderCalls := builderCalls c |}.

(** The reference count [mShapeMap] holds for a shape, zero when the shape
    has no entry. *)
Definition refCount (c : Cache) (shape : ConstShapePtr) : Z :=
  match mShapeMap (detector c) !! shapeAddr shape with
  | Some (_, count) => count
  | None => 0
  end.

Definition cached (c : Cache) (shape : ConstShapePtr) : Prop :=
  is_Some (mShapeMap (detector c) !! shapeAddr shape).

Inductive CacheOp : Set := Acquire | Release.

Section GeometryCache.

(** [createFCLCollisionGeometry], the shape-to-geometry builder. *)
Variable createFCLCollisionGeometry : ConstShapePtr -> CollisionGeometryPtr.

(** The counter in [mShapeMap]'s value type is an unsigned integer; its
    declaration is in the header, so its modulus is left open. *)
Variable count_modulus : Z.

(** [None] stands for the failed [assert(0u != count)]. *)
Definition claimFCLCollisionGeometry (shape : ConstShapePtr) (c : Cache)
  : option (CollisionGeometryPtr * Cache) :=
  let mShapeMap := mShapeMap (detector c) in
  match mShapeMap !! shapeAddr shape with
  | Some (fclCollGeom, count) =>
      if count =? 0 then None
      else
        let count := (count + 1) mod count_modulus in
        Some (fclCollGeom,
              setShapeMap (<[shapeAddr shape := (fclCollGeom, count)]>
                             mShapeMap) c)
  | None =>
      let fclCollGeom := createFCLCollisionGeometry shape in
      Some (fclCollGeom,
            {| detector :=
                 {| mShapeMap :=
                      <[shapeAddr shape := (fclCollGeom, 1)]> mShapeMap;
                    mFCLCollisionObjectMap :=
                      mFCLCollisionObjectMap (detector c) |};
               builderCalls := builderCalls c ++ [shape] |})
  end.

(** [None] stands for either failed [assert]: no entry, or a zero
    count. *)
Definition reclaimFCLCollisionGeometry (shape : ConstShapePtr) (c : Cache)
  : option Cache :=
  let mShapeMap := mShapeMap (detector c) in
  match mShapeMap !! shapeAddr shape with
  | None => None
  | Some (fclCollGeom, count) =>
      if count =? 0 then None
      else
        let count := (count - 1) mod count_modulus in
        if count =? 0
        then Some (setShapeMap (delete (shapeAddr shape) mShapeMap) c)
        else Some (setShapeMap
                     (<[shapeAddr shape := (fclCollGeom, count)]> mShapeMap)
                     c)
  end.

Definition cacheStep (shape : ConstShapePtr) (op : CacheOp) (c : Cache)
  : option Cache :=
  match op with
  | Acquire => snd <$> claimFCLCollisionGeometry shape c
  | Release => reclaimFCLCollisionGeometry shape c
  end.

Fixpoint cacheRun (shape : ConstShapePtr) (ops : list CacheOp) (c : Cache)
  : option Cache :=
  match ops with
  | [] => Some c
  | op :: ops' => c' ← cacheStep shape op c; cacheRun shape ops' c'
  end.

End GeometryCache.

(** ** Collision objects *)

(** A shape frame as the detector reads it: its address and the shape
    [getShape()] returns at the time of the call. *)
Record ShapeFrame : Set := {
  frameAddr : positive;
  frameShape : ConstShapePtr
}.

(** [FCLCollisionObject]: the object's own address, the frame it was made
    for and the native object it wraps. *)
Record FCLCollisionObject : Set := {
  collObjAddr : CollisionObjectPtr;
  mShapeFrame : ShapeFrame;
  getFCLCollisionObject : FclCollisionObject
}.

(** [CollisionObject::getShape]: the shape of the frame. *)
Definition getShape (collObj : FCLCollisionObject) : ConstShapePtr :=
  frameShape (mShapeFrame collObj).

Definition setObjectMap (m : gmap positive CollisionObjectPtr) (c : Cache)
  : Cache :=
  {| detector :=
       {| mShapeMap := mShapeMap (detector c);
          mFCLCollisionObjectMap := m |};
     builderCalls := builderCalls c |}.

(** The two [assert]s of the destructor: both maps are empty. *)
Definition destructorAsserts (this : FCLCollisionDetector) : bool :=
  bool_decide (mShapeMap this = ∅)
  && bool_decide (mFCLCollisionObjectMap this = ∅).

Section CollisionObjects.

Variable createFCLCollisionGeometry : ConstShapePtr -> CollisionGeometryPtr.
Variable count_modulus : Z.

(** [new FCLCollisionObject(this, shapeFrame, fclCollGeom)]: the
    constructor is not in this file; it allocates the object and the native
    object it wraps. *)
Variable newFCLCollisionObject :
  FCLCollisionDetector -> ShapeFrame -> CollisionGeometryPtr ->
  FCLCollisionObject.

Definition createCollisionObject (shapeFrame : ShapeFrame) (c : Cache)
  : option (FCLCollisionObject * Cache) :=
  '(fclCollGeom, c) ←
    claimFCLCollisionGeometry createFCLCollisionGeometry count_modulus
                              (frameShape shapeFrame) c;
  let collObj := newFCLCollisionObject (detector c) shapeFrame fclCollGeom in
  let fclCollObj := getFCLCollisionObject collObj in
  Some (collObj,
        setObjectMap (<[fclAddr fclCollObj := collObjAddr collObj]>
                        (mFCLCollisionObjectMap (detector c))) c).

(** A null object pointer is [None]. *)
Definition notifyDestroyingCollisionObject
    (collObj : option FCLCollisionObject) (c : Cache) : option Cache :=
  match collObj with
  | None => Some c
  | Some collObj =>
      c ← reclaimFCLCollisionGeometry count_modulus (getShape collObj) c;
      Some (setObjectMap
              (delete (fclAddr (getFCLCollisionObject collObj))
                      (mFCLCollisionObjectMap (detector c))) c)
  end.

(** Objects are made for the frames in turn and destroyed in the reverse
    order. *)
Fixpoint nestedLifetimes (shapeFrames : list ShapeFrame) (c : Cache)
  : option Cache :=
  match shapeFrames with
  | [] => Some c
  | shapeFrame :: shapeFrames' =>
      '(collObj, c) ← createCollisionObject shapeFrame c;
      c ← nestedLifetimes shapeFrames' c;
      notifyDestroyingCollisionObject (Some collObj) c
  end.

End CollisionObjects.

(** Every count in the shape map is positive and below [bound]. *)
Definition countsBelow (bound : Z) (this : FCLCollisionDetector) : Prop :=
  forall addr fclCollGeom count,
    mShapeMap this !! addr = Some (fclCollGeom, count) -> 0 < count < bound.

(** ** Tessellated geometry *)

(** C++ [float]: single precision numbers, with the conversions from and
    to [double] and the operations the mesh builders apply to them. *)
Class Float32 : Type := {
  f32 : Type;
  f32_of_double : float -> f32;
  double_of_f32 : f32 -> float;
  f32_of_int : Z -> f32;
  f32_neg : f32 -> f32;
  f32_mul : f32 -> f32 -> f32;
  f32_div : f32 -> f32 -> f32;
  f32_sin : f32 -> f32;
  f32_cos : f32 -> f32
}.

(** An [int] converted to [double]. *)
Definition double_of_int (z : Z) : float :=
  if z <? 0 then (- PrimFloat.of_uint63 (Uint63.of_Z (- z)))%float
  else PrimFloat.of_uint63 (Uint63.of_Z z).

Definition M_PI : float := 0x1.921fb54442d18p+1%float.

Definition CACHE_SIZE : Z := 240.

(** A triangle handed to [addTriangle]; a [BVHModel] is the list of its
    triangles in the order they were added. *)
Definition Triangle : Type := Vec3.t * Vec3.t * Vec3.t.

(** Entry [i] of a [float] array, [None] when [i] is out of range or the
    entry was never written. *)
Definition readArray {A} (array : list (option A)) (i : nat) : option A :=
  array !! i ≫= id.

(** [array[i] = x], which fails outside the array. *)
Definition writeArray {A} (array : list (option A)) (i : nat) (x : A)
  : option (list (option A)) :=
  if decide (i < List.length array)%nat then Some (<[i := Some x]> array)
  else None.

(** [for] loop over [xs] with a body that may fail. *)
Fixpoint forEach {A S} (xs : list A) (body : A -> S -> option S) (s : S)
  : option S :=
  match xs with
  | [] => Some s
  | x :: xs' => s' ← body x s; forEach xs' body s'
  end.

(** The table [faces] of [createCube]. *)
Definition cubeFaces : list (nat * nat * nat * nat) :=
  [(0, 1, 2, 3); (3, 2, 6, 7); (7, 6, 5, 4);
   (4, 5, 1, 0); (5, 6, 2, 1); (7, 4, 0, 3)]%nat.

Local Set Warnings "-inexact-float".

(** The vertex table [v] of [createEllipsoid]: 59 rows of decimal
    literals, row 0 being the origin. *)
Definition ellipsoidVertexTable : list (float * float * float) := [
  (0, 0, 0);
  (0.135299, (-0.461940), (-0.135299));
  (0.000000, (-0.461940), (-0.191342));
  ((-0.135299), (-0.461940), (-0.135299));
  ((-0.191342), (-0.461940), 0.000000);
  ((-0.135299), (-0.461940), 0.135299);
  (0.000000, (-0.461940), 0.191342);
  (0.135299, (-0.461940), 0.135299);
  (0.191342, (-0.461940), 0.000000);
  (0.250000, (-0.353553), (-0.250000));
  (0.000000, (-0.353553), (-0.353553));
  ((-0.250000), (-0.353553), (-0.250000));
  ((-0.353553), (-0.353553), 0.000000);
  ((-0.250000), (-0.353553), 0.250000);
  (0.000000, (-0.353553), 0.353553);
  (0.250000, (-0.353553), 0.250000);
  (0.353553, (-0.353553), 0.000000);
  (0.326641, (-0.191342), (-0.326641));
  (0.000000, (-0.191342), (-0.461940));
  ((-0.326641), (-0.191342), (-0.326641));
  ((-0.461940), (-0.191342), 0.000000);
  ((-0.326641), (-0.191342), 0.326641);
  (0.000000, (-0.191342), 0.461940);
  (0.326641, (-0.191342), 0.326641);
  (0.461940, (-0.191342), 0.000000);
  (0.353553, 0.000000, (-0.353553));
  (0.000000, 0.000000, (-0.500000));
  ((-0.353553), 0.000000, (-0.353553));
  ((-0.500000), 0.000000, 0.000000);
  ((-0.353553), 0.000000, 0.353553);
  (0.000000, 0.000000, 0.500000);
  (0.353553, 0.000000, 0.353553);
  (0.500000, 0.000000, 0.000000);
  (0.326641, 0.191342, (-0.326641));
  (0.000000, 0.191342, (-0.461940));
  ((-0.326641), 0.191342, (-0.326641));
  ((-0.461940), 0.191342, 0.000000);
  ((-0.326641), 0.191342, 0.326641);
  (0.000000, 0.191342, 0.461940);
  (0.326641, 0.191342, 0.326641);
  (0.461940, 0.191342, 0.000000);
  (0.250000, 0.353553, (-0.250000));
  (0.000000, 0.353553, (-0.353553));
  ((-0.250000), 0.353553, (-0.250000));
  ((-0.353553), 0.353553, 0.000000);
  ((-0.250000), 0.353553, 0.250000);
  (0.000000, 0.353553, 0.353553);
  (0.250000, 0.353553, 0.250000);
  (0.353553, 0.353553, 0.000000);
  (0.135299, 0.461940, (-0.135299));
  (0.000000, 0.461940, (-0.191342));
  ((-0.135299), 0.461940, (-0.135299));
  ((-0.191342), 0.461940, 0.000000);
  ((-0.135299), 0.461940, 0.135299);
  (0.000000, 0.461940, 0.191342);
  (0.135299, 0.461940, 0.135299);
  (0.191342, 0.461940, 0.000000);
  (0.000000, (-0.500000), 0.000000);
  (0.000000, 0.500000, 0.000000)
]%float.

(** The face table [f] of [createEllipsoid]: 112 rows of vertex indices. *)
Definition ellipsoidFaces : list (nat * nat * nat) := [
  (1, 2, 9);
  (9, 2, 10);
  (2, 3, 10);
  (10, 3, 11);
  (3, 4, 11);
  (11, 4, 12);
  (4, 5, 12);
  (12, 5, 13);
  (5, 6, 13);
  (13, 6, 14);
  (6, 7, 14);
  (14, 7, 15);
  (7, 8, 15);
  (15, 8, 16);
  (8, 1, 16);
  (16, 1, 9);
  (9, 10, 17);
  (17, 10, 18);
  (10, 11, 18);
  (18, 11, 19);
  (11, 12, 19);
  (19, 12, 20);
  (12, 13, 20);
  (20, 13, 21);
  (13, 14, 21);
  (21, 14, 22);
  (14, 15, 22);
  (22, 15, 23);
  (15, 16, 23);
  (23, 16, 24);
  (16, 9, 24);
  (24, 9, 17);
  (17, 18, 25);
  (25, 18, 26);
  (18, 19, 26);
  (26, 19, 27);
  (19, 20, 27);
  (27, 20, 28);
  (20, 21, 28);
  (28, 21, 29);
  (21, 22, 29);
  (29, 22, 30);
  (22, 23, 30);
  (30, 23, 31);
  (23, 24, 31);
  (31, 24, 32);
  (24, 17, 32);
  (32, 17, 25);
  (25, 26, 33);
  (33, 26, 34);
  (26, 27, 34);
  (34, 27, 35);
  (27, 28, 35);
  (35, 28, 36);
  (28, 29, 36);
  (36, 29, 37);
  (29, 30, 37);
  (37, 30, 38);
  (30, 31, 38);
  (38, 31, 39);
  (31, 32, 39);
  (39, 32, 40);
  (32, 25, 40);
  (40, 25, 33);
  (33, 34, 41);
  (41, 34, 42);
  (34, 35, 42);
  (42, 35, 43);
  (35, 36, 43);
  (43, 36, 44);
  (36, 37, 44);
  (44, 37, 45);
  (37, 38, 45);
  (45, 38, 46);
  (38, 39, 46);
  (46, 39, 47);
  (39, 40, 47);
  (47, 40, 48);
  (40, 33, 48);
  (48, 33, 41);
  (41, 42, 49);
  (49, 42, 50);
  (42, 43, 50);
  (50, 43, 51);
  (43, 44, 51);
  (51, 44, 52);
  (44, 45, 52);
  (52, 45, 53);
  (45, 46, 53);
  (53, 46, 54);
  (46, 47, 54);
  (54, 47, 55);
  (47, 48, 55);
  (55, 48, 56);
  (48, 41, 56);
  (56, 41, 49);
  (2, 1, 57);
  (3, 2, 57);
  (4, 3, 57);
  (5, 4, 57);
  (6, 5, 57);
  (7, 6, 57);
  (8, 7, 57);
  (1, 8, 57);
  (49, 50, 58);
  (50, 51, 58);
  (51, 52, 58);
  (52, 53, 58);
  (53, 54, 58);
  (54, 55, 58);
  (55, 56, 58);
  (56, 49, 58)
]%nat.

Local Set Warnings "inexact-float".

(** [aiVector3D], [aiFace], [aiMesh] and [aiScene] of Assimp, as the mesh
    builders read them. *)
Record aiFace : Set := { mIndices : list nat }.

Section Tessellation.

Context {F : Float32}.

(** [fcl::Vec3f(a, b, c)] on three [float]s. *)
Definition Vec3f (a b c : f32) : Vec3.t :=
  Vec3.mk (double_of_f32 a) (double_of_f32 b) (double_of_f32 c).

Record aiVector3D : Type := { ai_x : f32; ai_y : f32; ai_z : f32 }.

Record aiMesh : Type := {
  mVertices : list aiVector3D;
  mFaces : list aiFace
}.

Record aiScene : Type := { mMeshes : list aiMesh }.

(** [v[rows...][col] = x] for the rows of one chained assignment. *)
Definition assignColumn (rows : list nat) (col : nat) (x : f32)
    (v : list (list (option f32))) : list (list (option f32)) :=
  foldl (fun v row => alter (fun r => <[col := Some x]> r) row v) v rows.

(** [v[i][j]] *)
Definition readEntry (v : list (list (option f32))) (i j : nat) : option f32 :=
  row ← v !! i; readArray row j.

(** [fcl::Vec3f(v[i][0], v[i][1], v[i][2])] *)
Definition vertexAt (v : list (list (option f32))) (i : nat) : option Vec3.t :=
  x ← readEntry v i 0; y ← readEntry v i 1; z ← readEntry v i 2;
  Some (Vec3f x y z).

(** The array [v] of [createCube] after its six chained assignments. *)
Definition cubeVertices (_sizeX _sizeY _sizeZ : f32)
  : list (list (option f32)) :=
  let two := f32_of_int 2 in
  let v := replicate 8 (replicate 3 None) in
  let v := assignColumn [3; 2; 1; 0]%nat 0 (f32_div (f32_neg _sizeX) two) v in
  let v := assignColumn [7; 6; 5; 4]%nat 0 (f32_div _sizeX two) v in
  let v := assignColumn [5; 4; 1; 0]%nat 1 (f32_div (f32_neg _sizeY) two) v in
  let v := assignColumn [7; 6; 3; 2]%nat 1 (f32_div _sizeY two) v in
  let v := assignColumn [7; 4; 3; 0]%nat 2 (f32_div (f32_neg _sizeZ) two) v in
  assignColumn [6; 5; 2; 1]%nat 2 (f32_div _sizeZ two) v.

(** [None] stands for a read outside [v] or of an entry never written. *)
Definition createCube (_sizeX _sizeY _sizeZ : f32) : option (list Triangle) :=
  let v := cubeVertices _sizeX _sizeY _sizeZ in
  forEach cubeFaces
    (fun '(f0, f1, f2, f3) model =>
       p1 ← vertexAt v f0; p2 ← vertexAt v f1; p3 ← vertexAt v f2;
       let model := model ++ [(p1, p2, p3)] in
       p1 ← vertexAt v f0; p2 ← vertexAt v f2; p3 ← vertexAt v f3;
       Some (model ++ [(p1, p2, p3)]))
    [].

(** [fcl::Vec3f(v[i][0] * _sizeX, v[i][1] * _sizeY, v[i][2] * _sizeZ)] on the
    table of [createEllipsoid]. *)
Definition ellipsoidVertexAt (_sizeX _sizeY _sizeZ : f32) (i : nat)
  : option Vec3.t :=
  '(x, y, z) ← ellipsoidVertexTable !! i;
  Some (Vec3f (f32_mul (f32_of_double x) _sizeX)
              (f32_mul (f32_of_double y) _sizeY)
              (f32_mul (f32_of_double z) _sizeZ)).

Definition createEllipsoid (_sizeX _sizeY _sizeZ : f32)
  : option (list Triangle) :=
  forEach ellipsoidFaces
    (fun '(f0, f1, f2) model =>
       p1 ← ellipsoidVertexAt _sizeX _sizeY _sizeZ f0;
       p2 ← ellipsoidVertexAt _sizeX _sizeY _sizeZ f1;
       p3 ← ellipsoidVertexAt _sizeX _sizeY _sizeZ f2;
       Some (model ++ [(p1, p2, p3)]))
    [].

(** The loop of [createCylinder] that fills the two caches. *)
Definition fillCaches (_slices : Z)
    (caches : list (option f32) * list (option f32))
  : option (list (option f32) * list (option f32)) :=
  forEach (range 0 (Z.to_nat _slices))
    (fun i '(sinCache, cosCache) =>
       let angle :=
         f32_of_double (2 * M_PI * double_of_int (Z.of_nat i)
                        / double_of_int _slices)%float in
       sinCache ← writeArray sinCache i (f32_sin angle);
       cosCache ← writeArray cosCache i (f32_cos angle);
       Some (sinCache, cosCache))
    caches.

(** The point [(radius * sinCache[i], radius * cosCache[i], z)]. *)
Definition rimPoint (sinCache cosCache : list (option f32))
    (radius z : f32) (i : nat) : option Vec3.t :=
  s ← readArray sinCache i; c ← readArray cosCache i;
  Some (Vec3f (f32_mul radius s) (f32_mul radius c) z).

(** Base and top of the cylinder: a fan around the point at index 0. *)
Definition capTriangles (sinCache cosCache : list (option f32))
    (radiusLow zLow : f32) (_slices : Z) (model : list Triangle)
  : option (list Triangle) :=
  p1 ← rimPoint sinCache cosCache radiusLow zLow 0;
  forEach (range 1 (Z.to_nat _slices))
    (fun i model =>
       p2 ← rimPoint sinCache cosCache radiusLow zLow i;
       p3 ← rimPoint sinCache cosCache radiusLow zLow (i + 1);
       Some (model ++ [(p1, p2, p3)]))
    model.

(** Body of the cylinder: two triangles per slice and stack. *)
Definition bodyTriangles (sinCache cosCache : list (option f32))
    (_baseRadius _height : float) (zBase deltaRadius : f32)
    (_slices _stacks : Z) (model : list Triangle) : option (list Triangle) :=
  forEach (range 0 (Z.to_nat _slices))
    (fun i model =>
       forEach (range 0 (Z.to_nat _stacks))
         (fun j model =>
            let j := Z.of_nat j in
            let zLow :=
              f32_of_double (double_of_int j * _height / double_of_int _stacks
                             + double_of_f32 zBase)%float in
            let zHigh :=
              f32_of_double (double_of_int (j + 1) * _height
                             / double_of_int _stacks
                             + double_of_f32 zBase)%float in
            let radiusLow :=
              f32_of_double
                (_baseRadius
                 - double_of_f32
                     (f32_mul deltaRadius
                        (f32_div (f32_of_int j) (f32_of_int _stacks))))%float in
            let radiusHigh :=
              f32_of_double
                (_baseRadius
                 - double_of_f32
                     (f32_mul deltaRadius
                        (f32_div (f32_of_int (j + 1))
                                 (f32_of_int _stacks))))%float in
            p1 ← rimPoint sinCache cosCache radiusLow zLow i;
            p2 ← rimPoint sinCache cosCache radiusLow zLow (i + 1);
            p3 ← rimPoint sinCache cosCache radiusHigh zHigh i;
            p4 ← rimPoint sinCache cosCache radiusHigh zHigh (i + 1);
            Some (model ++ [(p1, p2, p3)] ++ [(p2, p3, p4)]))
         model)
    model.

(** [createCylinder]: the outer [None] stands for an access outside a
    cache or to an entry never written, [Some None] for the null pointer
    the guard returns. *)
Definition createCylinder (_baseRadius _topRadius _height : float)
    (_slices _stacks : Z) : option (option (list Triangle)) :=
  let _slices := if CACHE_SIZE <=? _slices then CACHE_SIZE - 1 else _slices in
  if (_slices <? 2) || (_stacks <? 1) || (_baseRadius <? 0)%float
     || (_topRadius <? 0)%float || (_height <? 0)%float
  then Some None
  else
    let zBase := f32_of_double (- _height / 2)%float in
    let deltaRadius := f32_of_double (_baseRadius - _topRadius)%float in
    let caches :=
      (replicate (Z.to_nat CACHE_SIZE) None,
       replicate (Z.to_nat CACHE_SIZE) None) in
    '(sinCache, cosCache) ← fillCaches _slices caches;
    s0 ← readArray sinCache 0;
    sinCache ← writeArray sinCache (Z.to_nat _slices) s0;
    c0 ← readArray cosCache 0;
    cosCache ← writeArray cosCache (Z.to_nat _slices) c0;
    model ← capTriangles sinCache cosCache (f32_of_double _baseRadius) zBase
                         _slices [];
    model ← bodyTriangles sinCache cosCache _baseRadius _height zBase
                          deltaRadius _slices _stacks model;
    model ← capTriangles sinCache cosCache (f32_of_double _topRadius)
                         (f32_of_double (double_of_f32 zBase + _height)%float)
                         _slices model;
    Some (Some model).

(** The vertex [mVertices[face.mIndices[k]]] of a face. *)
Definition faceVertex (mesh : aiMesh) (face : aiFace) (k : nat)
  : option aiVector3D :=
  index ← mIndices face !! k; mVertices mesh !! index.

(** The triangle [createMesh] adds for one face. *)
Definition scaledTriangle (_scaleX _scaleY _scaleZ : f32) (mesh : aiMesh)
    (face : aiFace) : option Triangle :=
  let vertexOf k :=
    vertex ← faceVertex mesh face k;
    Some (Vec3f (f32_mul (ai_x vertex) _scaleX)
                (f32_mul (ai_y vertex) _scaleY)
                (f32_mul (ai_z vertex) _scaleZ)) in
  v0 ← vertexOf 0%nat; v1 ← vertexOf 1%nat; v2 ← vertexOf 2%nat;
  Some (v0, v1, v2).

(** [createMesh]; a null scene fails the [assert]. *)
Definition createMesh (_scaleX _scaleY _scaleZ : f32) (_mesh : option aiScene)
  : option (list Triangle) :=
  scene ← _mesh;
  forEach (mMeshes scene)
    (fun mesh model =>
       forEach (mFaces mesh)
         (fun face model =>
            triangle ← scaledTriangle _scaleX _scaleY _scaleZ mesh face;
            Some (model ++ [triangle]))
         model)
    [].

(** The triangle [createSoftMesh] adds for one face. *)
Definition plainTriangle (mesh : aiMesh) (face : aiFace) : option Triangle :=
  let vertexOf k :=
    vertex ← faceVertex mesh face k;
    Some (Vec3f (ai_x vertex) (ai_y vertex) (ai_z vertex)) in
  v0 ← vertexOf 0%nat; v1 ← vertexOf 1%nat; v2 ← vertexOf 2%nat;
  Some (v0, v1, v2).

(** [createSoftMesh]; a null mesh fails the [assert]. *)
Definition createSoftMesh (_mesh : option aiMesh) : option (list Triangle) :=
  mesh ← _mesh;
  forEach (mFaces mesh)
    (fun face model =>
       triangle ← plainTriangle mesh face;
       Some (model ++ [triangle]))
    [].

End Tessellation.

(** Native collision geometry: the primitives of FCL and the triangle
    mesh [BVHModel]. *)
Inductive FclGeometry : Type :=
| Box (x y z : float)
| Sphere (radius : float)
| Ellipsoid (radii : Vec3.t)
| Cylinder (radius lz : float)
| Halfspace (n : Vec3.t) (d : float)
| BVHModel (triangles : list Triangle).

(** [size * 0.5] on an Eigen vector. *)
Definition Vector3d_scale (v : Vec3.t) (k : float) : Vec3.t :=
  Vec3.mk (Vec3.x v * k)%float (Vec3.y v * k)%float (Vec3.z v * k)%float.

Module Builder.

Section Builder.

Context {F : Float32}.

(** [FCL_MAJOR_MINOR_VERSION_AT_MOST(0,3)] and [(0,4)]: which FCL the file
    is compiled against. *)
Variables FCL_AT_MOST_0_3 FCL_AT_MOST_0_4 : bool.

(** [FCLTypes::convertVector3] from Eigen's vector to the native one,
    [EllipsoidShape::isSphere], [MeshShape::getMesh] and
    [SoftMeshShape::getAssimpMesh]; meshes are shared by address. *)
Variable convertVector3 : Vec3.t -> Vec3.t.
Variable isSphere : Vec3.t -> bool.
Variable getMesh : positive -> option aiScene.
Variable getAssimpMesh : positive -> option aiMesh.

(** [createFCLCollisionGeometry]: the outer [None] stands for a failed
    [assert] or a read outside an array, [Some None] for the null pointer. *)
Definition createFCLCollisionGeometry (shape : ConstShapePtr)
  : option (option FclGeometry) :=
  match shapeData shape with
  | BoxShape size =>
      if FCL_AT_MOST_0_3 then
        model ← createCube (f32_of_double (Vec3.x size))
                           (f32_of_double (Vec3.y size))
                           (f32_of_double (Vec3.z size));
        Some (Some (BVHModel model))
      else Some (Some (Box (Vec3.x size) (Vec3.y size) (Vec3.z size)))
  | EllipsoidShape size =>
      if isSphere size then Some (Some (Sphere (Vec3.x size * 0.5)%float))
      else if FCL_AT_MOST_0_3 then
        model ← createEllipsoid (f32_of_double (Vec3.x size))
                                (f32_of_double (Vec3.y size))
                                (f32_of_double (Vec3.z size));
        Some (Some (BVHModel model))
      else
        Some (Some (Ellipsoid (convertVector3 (Vector3d_scale size 0.5))))
  | CylinderShape radius height =>
      if FCL_AT_MOST_0_4 then
        model ← createCylinder radius radius height 16 16;
        Some (match model with
              | Some triangles => Some (BVHModel triangles)
              | None => None
              end)
      else Some (Some (Cylinder radius height))
  | PlaneShape planeNormal offset =>
      if FCL_AT_MOST_0_3 then
        model ← createCube (f32_of_double 1000) (f32_of_double 0)
                           (f32_of_double 1000);
        Some (Some (BVHModel model))
      else Some (Some (Halfspace (convertVector3 planeNormal) offset))
  | MeshShape scale mesh =>
      model ← createMesh (f32_of_double (Vec3.x scale))
                         (f32_of_double (Vec3.y scale))
                         (f32_of_double (Vec3.z scale)) (getMesh mesh);
      Some (Some (BVHModel model))
  | SoftMeshShape mesh =>
      model ← createSoftMesh (getAssimpMesh mesh);
      Some (Some (BVHModel model))
  | UnsupportedShape => Some None
  end.

End Builder.

End Builder.

(** ** Aspects whose state is embedded in their composite *)

Module EmbeddedAspect.

(** An [EmbeddedStateAspect] object: the subobject of its base class and
    [mTemporaryState], null or the state kept on the heap while no
    composite holds it. *)
Record EmbeddedStateAspect (BaseT StateT : Type) : Type := {
  base : BaseT;
  mTemporaryState : option StateT
}.

Arguments base {BaseT StateT} _.
Arguments mTemporaryState {BaseT StateT} _.

(** The template parameters of the class.  [State_new] is [State()].  The
    base class is what keeps track of the composite: its constructor,
    [getComposite], [setComposite] and [loseComposite] work on the base
    subobject.  The two accessors work on [Heap], the memory outside the
    aspect, and do not return when they dereference a null pointer. *)
Class Template : Type := {
  StateT : Type;
  State_new : StateT;
  Composite : Type;
  BaseT : Type;
  Heap : Type;
  BaseT_new : option Composite -> BaseT;
  getComposite : BaseT -> option Composite;
  Base_setComposite : option Composite -> BaseT -> BaseT;
  Base_loseComposite : option Composite -> BaseT -> BaseT;
  SetEmbeddedState : EmbeddedStateAspect BaseT StateT -> StateT -> Heap
                     -> option Heap;
  GetEmbeddedState : EmbeddedStateAspect BaseT StateT -> Heap -> option StateT
}.

Section EmbeddedStateAspect.

Context {T : Template}.

Local Abbreviation Aspect := (EmbeddedStateAspect BaseT StateT).

(** [EmbeddedStateAspect(comp, state)] *)
Definition new (comp : option Composite) (state : StateT) : Aspect :=
  {| base := BaseT_new comp; mTemporaryState := Some state |}.

Definition setState (state : StateT) (this : Aspect) (heap : Heap)
  : option (Aspect * Heap) :=
  match getComposite (base this) with
  | Some _ =>
      heap ← SetEmbeddedState this state heap;
      Some (this, heap)
  | None =>
      Some ({| base := base this; mTemporaryState := Some state |}, heap)
  end.

(** [getState] is [const], yet fills the mutable [mTemporaryState] when it
    is null: the aspect is returned with the state. *)
Definition getState (this : Aspect) (heap : Heap) : option (StateT * Aspect) :=
  match getComposite (base this) with
  | Some _ =>
      state ← GetEmbeddedState this heap;
      Some (state, this)
  | None =>
      let state := match mTemporaryState this with
                   | Some state => state
                   | None => State_new
                   end in
      Some (state, {| base := base this; mTemporaryState := Some state |})
  end.

Definition setComposite (newComposite : option Composite) (this : Aspect)
    (heap : Heap) : option (Aspect * Heap) :=
  let this := {| base := Base_setComposite newComposite (base this);
                 mTemporaryState := mTemporaryState this |} in
  heap ← match mTemporaryState this with
         | Some state => SetEmbeddedState this state heap
         | None => SetEmbeddedState this State_new heap
         end;
  Some ({| base := base this; mTemporaryState := None |}, heap).

Definition loseComposite (oldComposite : option Composite) (this : Aspect)
    (heap : Heap) : option (Aspect * Heap) :=
  state ← GetEmbeddedState this heap;
  let this := {| base := base this; mTemporaryState := Some state |} in
  Some ({| base := Base_loseComposite oldComposite (base this);
           mTemporaryState := mTemporaryState this |}, heap).

End EmbeddedStateAspect.

(** [DefaultSetEmbeddedState] and [DefaultGetEmbeddedState]: the accessors
    that go through the composite of the aspect. *)
Section DefaultAccessors.

Context {BaseT StateT Composite Heap : Type}.

Variable getComposite : BaseT -> option Composite.

(** [setAspectState] and [getAspectState] of the composite. *)
Variable setAspectState : Composite -> StateT -> Heap -> Heap.
Variable getAspectState : Composite -> Heap -> StateT.

Definition DefaultSetEmbeddedState (aspect : EmbeddedStateAspect BaseT StateT)
    (state : StateT) (heap : Heap) : option Heap :=
  composite ← getComposite (base aspect);
  Some (setAspectState composite state heap).

Definition DefaultGetEmbeddedState (aspect : EmbeddedStateAspect BaseT StateT)
    (heap : Heap) : option StateT :=
  composite ← getComposite (base aspect);
  Some (getAspectState composite heap).

End DefaultAccessors.

End EmbeddedAspect.

(** ** Notions the statements use *)

(** Some later contact repeats contact [i]. *)
Definition repeatedLater (fclResult : CollisionResult) (i : nat) : bool :=
  existsb (fun j => repeated (getContact fclResult i) (getContact fclResult j))
          (range (i + 1) (List.length (fclContacts fclResult))).

(** Contact [i] starts a colinear triple whose other two members are
    unmarked in [marks]. *)
Definition colinearLater (fclResult : CollisionResult) (marks : list bool)
    (i : nat) : bool :=
  existsb
    (fun j =>
       negb (isMarked marks j)
       && existsb (fun k => negb (isMarked marks k)
                            && colinear (getContact fclResult i)
                                        (getContact fclResult j)
                                        (getContact fclResult k))
                  (range (j + 1) (List.length (fclContacts fclResult))))
    (range (i + 1) (List.length (fclContacts fclResult))).

(** The second pass restricted to the indices below [bound]. *)
Definition markColinearBelow (fclResult : CollisionResult) (bound : nat)
    (marks : list bool) : list bool :=
  foldl (colinearI fclResult) marks (range 0 bound).

(** The marks the first pass leaves, as [postProcess] runs it. *)
Definition repeatedMarks (fclResult : CollisionResult) : list bool :=
  markRepeated fclResult (Z.to_nat (size_t_sub (numContacts fclResult) 1))
               (replicate (List.length (fclContacts fclResult)) false).

(** The indices [postProcess] emits, in order. *)
Definition retained (fclResult : CollisionResult) : list nat :=
  List.filter (fun i => negb (isMarked (markForDeletion fclResult) i))
              (range 0 (List.length (fclContacts fclResult))).

(** The contact [convertContact] builds once both user data are known. *)
Definition convertedContact (convertVector3 : Vec3.t -> Vec3.t)
    (fclContact : FclContact) (userData1 userData2 : UserData) : Contact :=
  {| point := convertVector3 (pos fclContact);
     contactNormal := Vec3.neg (convertVector3 (normal fclContact));
     penetrationDepth := penetration_depth fclContact;
     triID1 := b1 fclContact;
     triID2 := b2 fclContact;
     collisionObject1 := mCollisionObject userData1;
     collisionObject2 := mCollisionObject userData2 |}.

Definition hasUserData (o : FclCollisionObject) : Prop :=
  is_Some (getUserData o).

Definition candidatesHaveUserData
    (pairs : list (FclCollisionObject * FclCollisionObject)) : Prop :=
  Forall (fun p => hasUserData p.1 /\ hasUserData p.2) pairs.

(** Both pointers of the callback data are set, as [detect] sets them. *)
Definition wellFormedData (collData : FCLCollisionCallbackData) : Prop :=
  is_Some (mOption collData) /\ is_Some (mResult collData).

(** The answer of the configured filter for a pair; true when there is
    none. *)
Definition passesFilter (collData : FCLCollisionCallbackData) (opt : Option)
    (o1 o2 : FclCollisionObject) : bool :=
  match collisionFilter opt with
  | Some needCollision =>
      needCollision (findCollisionObject (mFclCollisionDetector collData) o1)
                    (findCollisionObject (mFclCollisionDetector collData) o2)
  | None => true
  end.

(** What consulting the filter adds to the record of outside calls. *)
Definition filterEvents (collData : FCLCollisionCallbackData) (opt : Option)
    (o1 o2 : FclCollisionObject) : list Event :=
  match collisionFilter opt with
  | Some _ =>
      [EvNeedCollision
         (findCollisionObject (mFclCollisionDetector collData) o1)
         (findCollisionObject (mFclCollisionDetector collData) o2)]
  | None => []
  end.

(** The test that sets [done]. *)
Definition capReached (request : CollisionRequest) (raw : CollisionResult)
  : bool :=
  negb (enable_cost request)
  && isCollision raw
  && (num_max_contacts request <=? numContacts raw).

(** The raw result the narrow phase leaves for a pair. *)
Definition rawResult
    (fcl_collide :
       FclCollisionObject -> FclCollisionObject -> CollisionRequest ->
       CollisionResult -> CollisionResult)
    (o1 o2 : FclCollisionObject) (collData : FCLCollisionCallbackData)
  : CollisionResult :=
  fcl_collide o1 o2 (mFclRequest collData)
              (CollisionResult_clear (mFclResult collData)).

(** A group pointer on which [detect] gives up: null, or a group made by
    another detector type. *)
Definition preconditionFails (group : option CollisionGroup) : Prop :=
  match group with
  | None => True
  | Some group => groupDetectorType group <> getTypeStatic
  end.

(** The cache [c0] with [k] outstanding references to [shape], after the
    builder calls [calls]. *)
Definition heldCache
    (createFCLCollisionGeometry : ConstShapePtr -> CollisionGeometryPtr)
    (c0 : Cache) (shape : ConstShapePtr) (k : nat)
    (calls : list ConstShapePtr) : Cache :=
  {| detector :=
       {| mShapeMap :=
            match k with
            | O => mShapeMap (detector c0)
            | S _ =>
                <[shapeAddr shape :=
                    (createFCLCollisionGeometry shape, Z.of_nat k)]>
                  (mShapeMap (detector c0))
            end;
          mFCLCollisionObjectMap := mFCLCollisionObjectMap (detector c0) |};
     builderCalls := calls |}.

(** A contact whose two object references are the ones stored in the user
    data of the pair [o1], [o2]. *)
Definition contactOfPair (o1 o2 : FclCollisionObject) (contact : Contact)
  : Prop :=
  exists userData1 userData2,
    getUserData o1 = Some userData1
    /\ getUserData o2 = Some userData2
    /\ collisionObject1 contact = mCollisionObject userData1
    /\ collisionObject2 contact = mCollisionObject userData2.

(** The outside calls one callback invocation makes for a pair while the
    flag is unset: the filter, when there is one, and then the narrow phase
    unless the filter rejected the pair. *)
Definition visitEvents (this : FCLCollisionDetector) (opt : Option)
    (p : FclCollisionObject * FclCollisionObject) : list Event :=
  match collisionFilter opt with
  | Some needCollision =>
      EvNeedCollision (findCollisionObject this p.1)
                      (findCollisionObject this p.2)
      :: (if needCollision (findCollisionObject this p.1)
                           (findCollisionObject this p.2)
          then [EvNarrowPhase (fclAddr p.1) (fclAddr p.2)] else [])
  | None => [EvNarrowPhase (fclAddr p.1) (fclAddr p.2)]
  end.

(** The vertex indices of the triangles [createCube] adds, face by face. *)
Definition cubeTriangleIndices : list (nat * nat * nat) :=
  flat_map (fun '(f0, f1, f2, f3) => [(f0, f1, f2); (f0, f2, f3)]) cubeFaces.

(** The directed edges of a list of index triangles. *)
Definition directedEdges (triangles : list (nat * nat * nat))
  : list (nat * nat) :=
  flat_map (fun '(a, b, c) => [(a, b); (b, c); (c, a)]) triangles.

Definition countEdge (e : nat * nat) (edges : list (nat * nat)) : nat :=
  List.length (List.filter (fun e' => (e.1 =? e'.1)%nat && (e.2 =? e'.2)%nat)
                           edges).

(** Every directed edge occurs once, and so does its reverse: the
    triangles form a closed surface on which neighbours agree on the
    orientation. *)
Definition closedSurface (triangles : list (nat * nat * nat)) : bool :=
  let edges := directedEdges triangles in
  forallb (fun e => (countEdge e edges =? 1)%nat
                    && (countEdge (e.2, e.1) edges =? 1)%nat) edges.

(** The three corners of a triangle agree in one coordinate. *)
Definition inAxisPlane (t : Triangle) : Prop :=
  let '(p1, p2, p3) := t in
  (Vec3.x p1 = Vec3.x p2 /\ Vec3.x p2 = Vec3.x p3)
  \/ (Vec3.y p1 = Vec3.y p2 /\ Vec3.y p2 = Vec3.y p3)
  \/ (Vec3.z p1 = Vec3.z p2 /\ Vec3.z p2 = Vec3.z p3).

(** A face whose first three indices exist and point into the vertex array
    of the mesh. *)
Definition faceReadable {F : Float32} (mesh : aiMesh) (face : aiFace) : bool :=
  forallb (fun k => match mIndices face !! k with
                    | Some index => (index <? List.length (mVertices mesh))%nat
                    | None => false
                    end)
          [0; 1; 2]%nat.

(** The mesh with every face cut down to its first three indices. *)
Definition firstTriangles {F : Float32} (mesh : aiMesh) : aiMesh :=
  {| mVertices := mVertices mesh;
     mFaces := map (fun face => {| mIndices := take 3 (mIndices face) |})
                   (mFaces mesh) |}.

(** The guard of [createCylinder] on the clamped slice count. *)
Definition cylinderRejected (_baseRadius _topRadius _height : float)
    (_slices _stacks : Z) : bool :=
  (_slices <? 2) || (_stacks <? 1) || (_baseRadius <? 0)%float
  || (_topRadius <? 0)%float || (_height <? 0)%float.

(** Corner [i] of the box that [createCube] tessellates: the low or the
    high half of the size along each axis. *)
Definition cubeCorner {F : Float32} (_sizeX _sizeY _sizeZ : f32) (i : nat)
  : Vec3.t :=
  let side (low : bool) (size : f32) :=
    f32_div (if low then f32_neg size else size) (f32_of_int 2) in
  Vec3f (side (i <? 4)%nat _sizeX)
        (side (i mod 4 <? 2)%nat _sizeY)
        (side ((i mod 4 =? 0)%nat || (i mod 4 =? 3)%nat) _sizeZ).

(** Row [i] of the ellipsoid table scaled by the three sizes. *)
Definition ellipsoidPoint {F : Float32} (_sizeX _sizeY _sizeZ : f32) (i : nat)
  : Vec3.t :=
  match ellipsoidVertexTable !! i with
  | Some (x, y, z) =>
      Vec3f (f32_mul (f32_of_double x) _sizeX)
            (f32_mul (f32_of_double y) _sizeY)
            (f32_mul (f32_of_double z) _sizeZ)
  | None => Vec3.zero
  end.

(** The triangle on three indexed points. *)
Definition indexTriangle (point : nat -> Vec3.t) (t : nat * nat * nat)
  : Triangle :=
  (point t.1.1, point t.1.2, point t.2).

(** The indices a list of index triangles uses. *)
Definition usedIndices (triangles : list (nat * nat * nat)) : list nat :=
  flat_map (fun '(a, b, c) => [a; b; c]) triangles.

(** The squared distance of a table row from the origin is a quarter, up
    to the six digits the table is written with. *)
Definition onHalfSphere (row : float * float * float) : bool :=
  let '(x, y, z) := row in
  let r2 := (x * x + y * y + z * z)%float in
  ((0x1.fffp-3 <? r2) && (r2 <? 0x1.001p-2))%float.

(** The slice count [createCylinder] works with: at most one less than
    the size of its caches. *)
Definition clampedSlices (_slices : Z) : Z :=
  if CACHE_SIZE <=? _slices then CACHE_SIZE - 1 else _slices.

(** The indices used by the triangles are exactly those from [lo] to
    [hi]. *)
Definition usesExactly (lo hi : nat) (triangles : list (nat * nat * nat))
  : bool :=
  forallb (fun i => (lo <=? i)%nat && (i <=? hi)%nat) (usedIndices triangles)
  && forallb (fun i => existsb (Nat.eqb i) (usedIndices triangles))
             (range lo (S hi)).

(** Every face of every mesh of the scene is readable. *)
Definition sceneReadable {F : Float32} (scene : aiScene) : bool :=
  forallb (fun mesh => forallb (faceReadable mesh) (mFaces mesh))
          (mMeshes scene).

(** The number of faces in all meshes of the scene. *)
Definition faceCount {F : Float32} (scene : aiScene) : nat :=
  List.length (flat_map mFaces (mMeshes scene)).

(** The base class keeps track of the composite: it reports the composite
    it was last given, and none once it lost it. *)
Definition tracksComposite (T : EmbeddedAspect.Template) : Prop :=
  (forall newComposite b,
     EmbeddedAspect.getComposite
       (EmbeddedAspect.Base_setComposite newComposite b) = newComposite)
  /\ (forall oldComposite b,
        EmbeddedAspect.getComposite
          (EmbeddedAspect.Base_loseComposite oldComposite b) = None).

(** The accessors look at the base subobject of the aspect only, the
    setter returns on an aspect that has a composite, and the getter then
    reads what the setter wrote. *)
Definition accessorsAgree (T : EmbeddedAspect.Template) : Prop :=
  forall aspect aspect' state heap,
    EmbeddedAspect.base aspect = EmbeddedAspect.base aspect' ->
    is_Some (EmbeddedAspect.getComposite (EmbeddedAspect.base aspect)) ->
    exists heap',
      EmbeddedAspect.SetEmbeddedState aspect state heap = Some heap'
      /\ EmbeddedAspect.GetEmbeddedState aspect' heap' = Some state.

(** ** Sample data *)

Module Samples.

Definition at_ (x y z : float) : FclContact :=
  {| pos := Vec3.mk x y z; normal := Vec3.mk 0 0 1;
     penetration_depth := 0x1p-7%float; b1 := 3; b2 := 5 |}.

Definition dataA : UserData := {| mCollisionObject := 101%positive |}.
Definition dataB : UserData := {| mCollisionObject := 102%positive |}.

Definition objA : FclCollisionObject :=
  {| fclAddr := 11; getUserData := Some dataA |}.
Definition objB : FclCollisionObject :=
  {| fclAddr := 12; getUserData := Some dataB |}.

Definition emptyResult : Result := {| contacts := [] |}.

Definition twoNear : CollisionResult :=
  {| fclContacts := [at_ 1 2 3; at_ 1 2 3] |}.

Definition threeCoincident : CollisionResult :=
  {| fclContacts := [at_ 1 2 3; at_ 1 2 3; at_ 1 2 3] |}.

Definition threeOnLine : CollisionResult :=
  {| fclContacts := [at_ 0 0 0; at_ 1 0 0; at_ 2 0 0] |}.

Definition triangle : CollisionResult :=
  {| fclContacts := [at_ 0 0 0; at_ 1 0 0; at_ 0 1 0] |}.

Definition ident (v : Vec3.t) : Vec3.t := v.

Definition dataC : UserData := {| mCollisionObject := 103%positive |}.
Definition objC : FclCollisionObject :=
  {| fclAddr := 13; getUserData := Some dataC |}.

Definition det : FCLCollisionDetector :=
  {| mShapeMap := ∅;
     mFCLCollisionObjectMap :=
       {[ 11 := 101; 12 := 102; 13 := 103 ]}%positive |}.

Definition group : CollisionGroup :=
  {| groupAddr := 1; groupDetectorType := "FCL" |}.
Definition foreignGroup : CollisionGroup :=
  {| groupAddr := 2; groupDetectorType := "Bullet" |}.

(** A narrow phase that reports one contact for every pair. *)
Definition touching (_ _ : FclCollisionObject) (_ : CollisionRequest)
    (_ : CollisionResult) : CollisionResult :=
  {| fclContacts := [at_ 1 2 3] |}.

(** A narrow phase that reports no contact for any pair. *)
Definition apart (_ _ : FclCollisionObject) (_ : CollisionRequest)
    (_ : CollisionResult) : CollisionResult :=
  {| fclContacts := [] |}.

Definition selfPairs (_ : CollisionGroup)
  : list (FclCollisionObject * FclCollisionObject) :=
  [(objA, objB); (objA, objC)].
Definition crossPairs (_ _ : CollisionGroup)
  : list (FclCollisionObject * FclCollisionObject) :=
  [(objA, objB)].

Definition rejectAll : CollisionFilter := fun _ _ => false.

Definition optNoContacts : Option :=
  {| maxNumContacts := 1; enableContact := false; collisionFilter := None |}.
Definition optContacts : Option :=
  {| maxNumContacts := 10; enableContact := true; collisionFilter := None |}.
Definition optRejectAll : Option :=
  {| maxNumContacts := 10; enableContact := true;
     collisionFilter := Some rejectAll |}.

(** Two box instances with the same size, and a builder that numbers the
    geometry after the instance. *)
Definition box1 : ConstShapePtr :=
  {| shapeAddr := 21; shapeData := BoxShape (Vec3.mk 1 1 1) |}.
Definition box2 : ConstShapePtr :=
  {| shapeAddr := 22; shapeData := BoxShape (Vec3.mk 1 1 1) |}.

Definition build (shape : ConstShapePtr) : CollisionGeometryPtr :=
  match shapeData shape with
  | UnsupportedShape => None
  | _ => Some (shapeAddr shape)
  end.

Definition emptyCache : Cache := {| detector := det; builderCalls := [] |}.

(** What [detect] reports for [selfPairs] under [touching]. *)
Definition twoContacts : Result :=
  {| contacts :=
       [convertedContact ident (at_ 1 2 3) dataA dataB;
        convertedContact ident (at_ 1 2 3) dataA dataC] |}.

(** A detector that holds nothing yet, two frames showing the two boxes,
    and a constructor that puts each new object at an address the object
    map does not use. *)
Definition freshCache : Cache :=
  {| detector := {| mShapeMap := ∅; mFCLCollisionObjectMap := ∅ |};
     builderCalls := [] |}.

Definition frame1 : ShapeFrame := {| frameAddr := 31; frameShape := box1 |}.
Definition frame2 : ShapeFrame := {| frameAddr := 32; frameShape := box2 |}.

Definition alloc (this : FCLCollisionDetector) (shapeFrame : ShapeFrame)
    (_ : CollisionGeometryPtr) : FCLCollisionObject :=
  let addr := fresh (dom (mFCLCollisionObjectMap this)) in
  {| collObjAddr := addr;
     mShapeFrame := shapeFrame;
     getFCLCollisionObject :=
       {| fclAddr := addr;
          getUserData := Some {| mCollisionObject := addr |} |} |}.

(** Single precision stood in for by doubles, with placeholders for the
    trigonometric functions. *)
Definition doubles : Float32 :=
  {| f32 := float;
     f32_of_double := fun x => x;
     double_of_f32 := fun x => x;
     f32_of_int := double_of_int;
     f32_neg := PrimFloat.opp;
     f32_mul := PrimFloat.mul;
     f32_div := PrimFloat.div;
     f32_sin := fun x => x;
     f32_cos := fun x => (1 - x)%float |}.

(** A soft mesh of one four-cornered face. *)
Definition corner (x y z : float) : aiVector3D (F := doubles) :=
  @Build_aiVector3D doubles x y z.

Definition quad : aiMesh (F := doubles) :=
  {| mVertices := [corner 0 0 0; corner 1 0 0; corner 1 1 0; corner 0 1 0];
     mFaces := [ {| mIndices := [0; 1; 2; 3]%nat |} ] |}.

(** Aspects with an integer state over composites that keep their state in
    a map from their address; the base class stores the composite, and the
    accessors are the default ones. *)
Definition counters : EmbeddedAspect.Template :=
  {| EmbeddedAspect.StateT := Z;
     EmbeddedAspect.State_new := 0;
     EmbeddedAspect.Composite := positive;
     EmbeddedAspect.BaseT := option positive;
     EmbeddedAspect.Heap := gmap positive Z;
     EmbeddedAspect.BaseT_new := fun comp => comp;
     EmbeddedAspect.getComposite := fun b => b;
     EmbeddedAspect.Base_setComposite := fun newComposite _ => newComposite;
     EmbeddedAspect.Base_loseComposite := fun _ _ => None;
     EmbeddedAspect.SetEmbeddedState :=
       EmbeddedAspect.DefaultSetEmbeddedState (fun b => b)
         (fun composite state heap => <[composite := state]> heap);
     EmbeddedAspect.GetEmbeddedState :=
       EmbeddedAspect.DefaultGetEmbeddedState (fun b => b)
         (fun composite heap => default 0 (heap !! composite)) |}.

(** Aspects of [counters]: without composite and without temporary state,
    without composite and with the default state, and in composite 1. *)
Definition unset : EmbeddedAspect.EmbeddedStateAspect (option positive) Z :=
  {| EmbeddedAspect.base := None; EmbeddedAspect.mTemporaryState := None |}.

Definition zeroed : EmbeddedAspect.EmbeddedStateAspect (option positive) Z :=
  {| EmbeddedAspect.base := None; EmbeddedAspect.mTemporaryState := Some 0 |}.

Definition attached : EmbeddedAspect.EmbeddedStateAspect (option positive) Z :=
  {| EmbeddedAspect.base := Some 1%positive;
     EmbeddedAspect.mTemporaryState := None |}.

(** Callback data as [detect] builds it for [optNoContacts]. *)
Definition dataNoContacts : FCLCollisionCallbackData :=
  newCallbackData det (Some optNoContacts) (Some emptyResult) [].

End Samples.

(** * Properties *)

(** ** Deletion marks *)

Lemma range_snoc (lo hi : nat) :
  (lo <= hi)%nat -> range lo (S hi) = range lo hi ++ [hi].
Proof.
  intros Hle. unfold range.
  replace (S hi - lo)%nat with (S (hi - lo)) by lia.
  rewrite seq_S. do 2 f_equal. lia.
Qed.

Lemma In_range (lo hi k : nat) : In k (range lo hi) <-> (lo <= k < hi)%nat.
Proof. unfold range. rewrite in_seq. lia. Qed.

Lemma existsb_ext_In {A} (f g : A -> bool) (l : list A) :
  (forall a, In a l -> f a = g a) -> existsb f l = existsb g l.
Proof.
  induction l as [|a l IH]; intros Hfg; simpl; [done|].
  rewrite (Hfg a) by (by left). f_equal. apply IH.
  intros a' Ha'. apply Hfg. by right.
Qed.

Lemma isMarked_insert_eq (marks : list bool) (i : nat) :
  (i < List.length marks)%nat -> isMarked (<[i := true]> marks) i = true.
Proof.
  intros Hi. unfold isMarked. by rewrite list_lookup_insert_eq.
Qed.

Lemma isMarked_insert_ne (marks : list bool) (i k : nat) (b : bool) :
  i <> k -> isMarked (<[i := b]> marks) k = isMarked marks k.
Proof.
  intros Hne. unfold isMarked. by rewrite list_lookup_insert_ne.
Qed.

Lemma isMarked_replicate (len k : nat) : isMarked (replicate len false) k = false.
Proof.
  unfold isMarked. destruct (replicate len false !! k) eqn:E; [|done].
  by apply lookup_replicate in E as [-> _].
Qed.

Lemma insert_true_id (marks : list bool) (i : nat) :
  isMarked marks i = true -> <[i := true]> marks = marks.
Proof.
  unfold isMarked. intros Hi. destruct (marks !! i) eqn:E; [|done].
  subst. by apply list_insert_id.
Qed.

Section MarkingFacts.

Variable fclResult : CollisionResult.

Local Abbreviation n := (List.length (fclContacts fclResult)).
Local Abbreviation c := (getContact fclResult).

Lemma repeatedInner_spec (i : nat) (js : list nat) (marks : list bool) :
  repeatedInner fclResult i js marks =
  if existsb (fun j => repeated (c i) (c j)) js
  then <[i := true]> marks else marks.
Proof.
  induction js as [|j js IH]; simpl; [done|].
  destruct (repeated (c i) (c j)); simpl; [done|apply IH].
Qed.

Lemma markRepeated_S (bound : nat) (marks : list bool) :
  markRepeated fclResult (S bound) marks =
  repeatedInner fclResult bound (range (bound + 1) n)
                (markRepeated fclResult bound marks).
Proof.
  unfold markRepeated. rewrite range_snoc by lia. by rewrite foldl_snoc.
Qed.

Lemma markRepeated_length (bound : nat) (marks : list bool) :
  List.length (markRepeated fclResult bound marks) = List.length marks.
Proof.
  induction bound as [|b IH]; [done|].
  rewrite markRepeated_S, repeatedInner_spec.
  destruct (existsb _ _); by rewrite ?length_insert.
Qed.

(** After the first pass an index below the bound is marked exactly when
    it was marked before or a later contact repeats it. *)
Lemma markRepeated_isMarked (bound : nat) (marks : list bool) (k : nat) :
  (bound <= List.length marks)%nat ->
  isMarked (markRepeated fclResult bound marks) k =
  if (k <? bound)%nat then isMarked marks k || repeatedLater fclResult k
  else isMarked marks k.
Proof.
  induction bound as [|b IH]; intros Hb.
  - by destruct (k <? 0)%nat eqn:E; [apply Nat.ltb_lt in E; lia|].
  - rewrite markRepeated_S, repeatedInner_spec.
    specialize (IH ltac:(lia)).
    fold (repeatedLater fclResult b).
    destruct (decide (k = b)) as [->|Hne].
    + replace (b <? S b)%nat with true by (symmetry; apply Nat.ltb_lt; lia).
      replace (b <? b)%nat with false in IH
        by (symmetry; apply Nat.ltb_ge; lia).
      destruct (repeatedLater fclResult b).
      * rewrite isMarked_insert_eq; [by rewrite orb_true_r|].
        rewrite markRepeated_length. lia.
      * by rewrite IH, orb_false_r.
    + assert ((k <? S b)%nat = (k <? b)%nat) as ->.
      { destruct (k <? b)%nat eqn:E.
        - apply Nat.ltb_lt in E. apply Nat.ltb_lt. lia.
        - apply Nat.ltb_ge in E. apply Nat.ltb_ge. lia. }
      destruct (repeatedLater fclResult b); [|done].
      rewrite isMarked_insert_ne by done. apply IH.
Qed.

Lemma colinearK_spec (i j : nat) (ks : list nat) (marks : list bool) :
  colinearK fclResult i j ks marks =
  if existsb (fun k => negb (isMarked marks k) && colinear (c i) (c j) (c k)) ks
  then <[i := true]> marks else marks.
Proof.
  induction ks as [|k ks IH]; simpl; [done|].
  destruct (isMarked marks k); simpl; [apply IH|].
  destruct (colinear (c i) (c j) (c k)); simpl; [done|apply IH].
Qed.

Lemma colinearJ_cases (i : nat) (js : list nat) (marks : list bool) :
  colinearJ fclResult i js marks = marks
  \/ colinearJ fclResult i js marks = <[i := true]> marks.
Proof.
  revert marks. induction js as [|j js IH]; intros marks; simpl; [by left|].
  destruct (isMarked marks j); [apply IH|].
  rewrite colinearK_spec. destruct (existsb _ _); [|apply IH].
  right. destruct (IH (<[i := true]> marks)) as [-> | ->]; [done|].
  apply list_insert_insert_eq.
Qed.

Lemma colinearJ_spec (i : nat) (js : list nat) (marks : list bool) :
  colinearJ fclResult i js marks =
  if existsb
       (fun j =>
          negb (isMarked marks j)
          && existsb (fun k => negb (isMarked marks k)
                               && colinear (c i) (c j) (c k))
                     (range (j + 1) n)) js
  then <[i := true]> marks else marks.
Proof.
  induction js as [|j js IH]; simpl; [done|].
  destruct (isMarked marks j) eqn:Ej; simpl; [apply IH|].
  rewrite colinearK_spec.
  destruct (existsb _ (range (j + 1) n)) eqn:Ek; simpl; [|apply IH].
  destruct (colinearJ_cases i js (<[i := true]> marks)) as [-> | ->]; [done|].
  apply list_insert_insert_eq.
Qed.

Lemma colinearI_spec (marks : list bool) (i : nat) :
  colinearI fclResult marks i =
  if isMarked marks i || colinearLater fclResult marks i
  then <[i := true]> marks else marks.
Proof.
  unfold colinearI. destruct (isMarked marks i) eqn:Ei; simpl.
  - by rewrite insert_true_id.
  - apply colinearJ_spec.
Qed.

(** [colinearLater] reads only the marks above its index. *)
Lemma colinearLater_ext (marks marks' : list bool) (i : nat) :
  (forall k, (i < k)%nat -> isMarked marks k = isMarked marks' k) ->
  colinearLater fclResult marks i = colinearLater fclResult marks' i.
Proof.
  intros Hext. unfold colinearLater.
  apply existsb_ext_In. intros j Hj%In_range.
  rewrite (Hext j) by lia. f_equal.
  apply existsb_ext_In. intros k Hk%In_range.
  by rewrite (Hext k) by lia.
Qed.

Lemma markColinearBelow_S (bound : nat) (marks : list bool) :
  markColinearBelow fclResult (S bound) marks =
  colinearI fclResult (markColinearBelow fclResult bound marks) bound.
Proof.
  unfold markColinearBelow. rewrite range_snoc by lia. by rewrite foldl_snoc.
Qed.

Lemma markColinearBelow_length (bound : nat) (marks : list bool) :
  List.length (markColinearBelow fclResult bound marks) = List.length marks.
Proof.
  induction bound as [|b IH]; [done|].
  rewrite markColinearBelow_S, colinearI_spec.
  destruct (_ || _); by rewrite ?length_insert.
Qed.

Lemma markColinearBelow_isMarked (bound : nat) (marks : list bool) (k : nat) :
  (bound <= List.length marks)%nat ->
  isMarked (markColinearBelow fclResult bound marks) k =
  if (k <? bound)%nat then isMarked marks k || colinearLater fclResult marks k
  else isMarked marks k.
Proof.
  revert k. induction bound as [|b IH]; intros k Hb.
  - by destruct (k <? 0)%nat eqn:E; [apply Nat.ltb_lt in E; lia|].
  - rewrite markColinearBelow_S, colinearI_spec.
    assert (colinearLater fclResult (markColinearBelow fclResult b marks) b
            = colinearLater fclResult marks b) as Hlater.
    { apply colinearLater_ext. intros k' Hk'. rewrite IH by lia.
      by replace (k' <? b)%nat with false
        by (symmetry; apply Nat.ltb_ge; lia). }
    assert (isMarked (markColinearBelow fclResult b marks) b = isMarked marks b) as Hb'.
    { rewrite IH by lia.
      by replace (b <? b)%nat with false
        by (symmetry; apply Nat.ltb_ge; lia). }
    rewrite Hlater, Hb'.
    destruct (decide (k = b)) as [->|Hne].
    + replace (b <? S b)%nat with true by (symmetry; apply Nat.ltb_lt; lia).
      destruct (isMarked marks b || colinearLater fclResult marks b) eqn:E.
      * apply isMarked_insert_eq. rewrite markColinearBelow_length. lia.
      * rewrite Hb'. by apply orb_false_elim in E as [-> _].
    + assert ((k <? S b)%nat = (k <? b)%nat) as ->.
      { destruct (k <? b)%nat eqn:E.
        - apply Nat.ltb_lt in E. apply Nat.ltb_lt. lia.
        - apply Nat.ltb_ge in E. apply Nat.ltb_ge. lia. }
      destruct (isMarked marks b || colinearLater fclResult marks b).
      * rewrite isMarked_insert_ne by done. apply IH. lia.
      * apply IH. lia.
Qed.

Lemma size_t_sub_one :
  0 < numContacts fclResult < size_t_modulus ->
  Z.to_nat (size_t_sub (numContacts fclResult) 1) = (n - 1)%nat.
Proof.
  unfold numContacts, size_t_sub. intros Hn.
  rewrite Z.mod_small by lia. lia.
Qed.

Lemma repeatedMarks_length : List.length (repeatedMarks fclResult) = n.
Proof. unfold repeatedMarks. by rewrite markRepeated_length, length_replicate. Qed.

Lemma repeatedMarks_isMarked (k : nat) :
  0 < numContacts fclResult < size_t_modulus ->
  (k < n)%nat ->
  isMarked (repeatedMarks fclResult) k = repeatedLater fclResult k.
Proof.
  intros Hn Hk. unfold repeatedMarks.
  rewrite size_t_sub_one by done.
  rewrite markRepeated_isMarked by (rewrite length_replicate; lia).
  rewrite isMarked_replicate. simpl.
  destruct (k <? n - 1)%nat eqn:E; [done|].
  apply Nat.ltb_ge in E. assert (k = n - 1)%nat as -> by lia.
  unfold repeatedLater, range.
  by replace (n - (n - 1 + 1))%nat with 0%nat by lia.
Qed.

Lemma markForDeletion_unfold :
  markForDeletion fclResult =
  markColinearBelow fclResult n (repeatedMarks fclResult).
Proof. done. Qed.

(** An index ends up marked exactly when a later contact repeats it or it
    starts a colinear triple among the contacts the first pass left. *)
Lemma markForDeletion_isMarked (k : nat) :
  0 < numContacts fclResult < size_t_modulus ->
  (k < n)%nat ->
  isMarked (markForDeletion fclResult) k =
  repeatedLater fclResult k
  || colinearLater fclResult (repeatedMarks fclResult) k.
Proof.
  intros Hn Hk. rewrite markForDeletion_unfold.
  rewrite markColinearBelow_isMarked by (rewrite repeatedMarks_length; lia).
  replace (k <? n)%nat with true by (symmetry; by apply Nat.ltb_lt).
  by rewrite repeatedMarks_isMarked.
Qed.

End MarkingFacts.

Lemma repeatedLater_last (fclResult : CollisionResult) (k : nat) :
  (List.length (fclContacts fclResult) <= k + 1)%nat ->
  repeatedLater fclResult k = false.
Proof.
  intros Hk. unfold repeatedLater, range.
  by replace (_ - (k + 1))%nat with 0%nat by lia.
Qed.

Lemma colinearLater_last (fclResult : CollisionResult) (marks : list bool)
    (k : nat) :
  (List.length (fclContacts fclResult) <= k + 1)%nat ->
  colinearLater fclResult marks k = false.
Proof.
  intros Hk. unfold colinearLater, range.
  by replace (_ - (k + 1))%nat with 0%nat by lia.
Qed.

Lemma existsb_witness {A} (f : A -> bool) (l : list A) (a : A) :
  In a l -> f a = true -> existsb f l = true.
Proof. intros Hin Hf. apply existsb_exists. eauto. Qed.

Lemma repeatedLater_intro (fclResult : CollisionResult) (i j : nat) :
  (i < j < List.length (fclContacts fclResult))%nat ->
  repeated (getContact fclResult i) (getContact fclResult j) = true ->
  repeatedLater fclResult i = true.
Proof.
  intros Hij Hrep. unfold repeatedLater.
  apply existsb_witness with j; [apply In_range; lia|done].
Qed.

Lemma colinearLater_intro (fclResult : CollisionResult) (marks : list bool)
    (i j k : nat) :
  (i < j < k)%nat -> (k < List.length (fclContacts fclResult))%nat ->
  isMarked marks j = false -> isMarked marks k = false ->
  colinear (getContact fclResult i) (getContact fclResult j)
           (getContact fclResult k) = true ->
  colinearLater fclResult marks i = true.
Proof.
  intros Hijk Hk Hj Hk' Hcol. unfold colinearLater.
  apply existsb_witness with j; [apply In_range; lia|].
  rewrite Hj. simpl.
  apply existsb_witness with k; [apply In_range; lia|].
  by rewrite Hk', Hcol.
Qed.

(** ** Conversion and emission *)

Section PostProcessFacts.

Variable convertVector3 : Vec3.t -> Vec3.t.

Variables o1 o2 : FclCollisionObject.
Variables userData1 userData2 : UserData.
Hypothesis HuserData1 : getUserData o1 = Some userData1.
Hypothesis HuserData2 : getUserData o2 = Some userData2.

Lemma convertContact_Some (fclContact : FclContact) :
  convertContact convertVector3 fclContact o1 o2 =
  Some (convertedContact convertVector3 fclContact userData1 userData2).
Proof using HuserData1 HuserData2.
  unfold convertContact. by rewrite HuserData1, HuserData2.
Qed.

Lemma emitContacts_spec (fclResult : CollisionResult) (marks : list bool)
    (idxs : list nat) (result : Result) :
  emitContacts convertVector3 fclResult o1 o2 marks idxs result =
  Some {| contacts :=
            contacts result ++
            map (fun i => convertedContact convertVector3 (getContact fclResult i)
                                           userData1 userData2)
                (List.filter (fun i => negb (isMarked marks i)) idxs) |}.
Proof using HuserData1 HuserData2.
  revert result. induction idxs as [|i idxs IH]; intros result; simpl.
  - rewrite app_nil_r. by destruct result.
  - destruct (isMarked marks i); simpl; [apply IH|].
    rewrite convertContact_Some. simpl. rewrite IH. simpl.
    by rewrite <- app_assoc.
Qed.

(** [postProcess] appends the converted contacts at the retained indices. *)
Lemma postProcess_spec (fclResult : CollisionResult) (result : Result) :
  fclContacts fclResult <> [] ->
  postProcess convertVector3 fclResult o1 o2 result =
  Some {| contacts :=
            contacts result ++
            map (fun i => convertedContact convertVector3 (getContact fclResult i)
                                           userData1 userData2)
                (retained fclResult) |}.
Proof using HuserData1 HuserData2.
  intros Hne. unfold postProcess, numContacts.
  destruct (Z.eqb_spec (Z.of_nat (List.length (fclContacts fclResult))) 0)
    as [E|E].
  - destruct (fclContacts fclResult); [done|simpl in E; lia].
  - rewrite emitContacts_spec, Nat2Z.id. done.
Qed.

(** Whatever the raw set, [postProcess] succeeds and only appends
    conversions of raw contacts. *)
Lemma postProcess_appends (fclResult : CollisionResult) (result : Result) :
  exists appended,
    postProcess convertVector3 fclResult o1 o2 result =
    Some {| contacts := contacts result ++ appended |}
    /\ Forall (fun contact => exists i,
                 (i < List.length (fclContacts fclResult))%nat
                 /\ convertContact convertVector3
                      (getContact fclResult i) o1 o2 = Some contact)
              appended.
Proof using HuserData1 HuserData2.
  assert (fclContacts fclResult = [] \/ fclContacts fclResult <> [])
    as [E|E] by (destruct (fclContacts fclResult); [by left|by right]).
  - exists []. split; [|by constructor].
    unfold postProcess, numContacts. rewrite E. simpl.
    rewrite app_nil_r. by destruct result.
  - eexists. split; [by apply postProcess_spec|].
    apply List.Forall_forall. intros contact Hin.
    apply in_map_iff in Hin as (i & <- & Hi).
    unfold retained in Hi. apply filter_In in Hi as [Hi%In_range _].
    exists i. split; [lia|]. by apply convertContact_Some.
Qed.

End PostProcessFacts.

Lemma postProcess_empty (convertVector3 : Vec3.t -> Vec3.t)
    (fclResult : CollisionResult) (o1 o2 : FclCollisionObject)
    (result : Result) :
  fclContacts fclResult = [] ->
  postProcess convertVector3 fclResult o1 o2 result = Some result.
Proof. intros E. unfold postProcess, numContacts. by rewrite E. Qed.

(** ** Claims about contact conversion and post-processing *)

(** C9: a contact built by [convertContact], and so every contact
    [postProcess] appends to the result, carries the negated converted raw
    normal, the converted raw position as its point, the raw penetration
    depth, the raw feature indices [b1] and [b2] as its primitive ids, and
    the collision objects stored in the user data of the two native
    objects. *)
Theorem C9_convertContact_fields (convertVector3 : Vec3.t -> Vec3.t)
    (o1 o2 : FclCollisionObject) (userData1 userData2 : UserData) :
  getUserData o1 = Some userData1 ->
  getUserData o2 = Some userData2 ->
  (forall fclContact, exists contact,
      convertContact convertVector3 fclContact o1 o2 = Some contact
      /\ contactNormal contact = Vec3.neg (convertVector3 (normal fclContact))
      /\ point contact = convertVector3 (pos fclContact)
      /\ penetrationDepth contact = penetration_depth fclContact
      /\ triID1 contact = b1 fclContact
      /\ triID2 contact = b2 fclContact
      /\ collisionObject1 contact = mCollisionObject userData1
      /\ collisionObject2 contact = mCollisionObject userData2)
  /\ (forall fclResult result, exists appended,
        postProcess convertVector3 fclResult o1 o2 result =
        Some {| contacts := contacts result ++ appended |}
        /\ Forall (fun contact => exists i,
                     (i < List.length (fclContacts fclResult))%nat
                     /\ convertContact convertVector3
                          (getContact fclResult i) o1 o2 = Some contact)
                  appended).
Proof.
  intros H1 H2. split.
  - intros fclContact. eexists. split.
    + by apply convertContact_Some.
    + by repeat split.
  - intros fclResult result.
    by apply postProcess_appends with (userData1 := userData1)
                                      (userData2 := userData2).
Qed.

Lemma C9_convertContact_fields_witness :
  getUserData Samples.objA = Some Samples.dataA
  /\ getUserData Samples.objB = Some Samples.dataB
  /\ exists contact,
      convertContact Samples.ident (Samples.at_ 1 2 3) Samples.objA Samples.objB
      = Some contact
      /\ contactNormal contact = Vec3.neg (Samples.ident (Vec3.mk 0 0 1)).
Proof.
  split; [reflexivity|]. split; [reflexivity|].
  destruct (C9_convertContact_fields Samples.ident Samples.objA Samples.objB
              Samples.dataA Samples.dataB eq_refl eq_refl) as [Hfields _].
  destruct (Hfields (Samples.at_ 1 2 3)) as (contact & Hc & Hn & _).
  exists contact. split; [exact Hc | exact Hn].
Defined.

(** C10: on an empty raw contact set [postProcess] returns at once and
    leaves the result as it was; [numContacts - 1] would wrap to the
    largest [size_t] for a count of zero, and whenever the loops are reached
    the count is positive, the bound is the count minus one and the passes
    run with that bound. *)
Theorem C10_empty_raw_set (convertVector3 : Vec3.t -> Vec3.t)
    (fclResult : CollisionResult) (o1 o2 : FclCollisionObject)
    (result : Result) :
  (fclContacts fclResult = [] ->
   postProcess convertVector3 fclResult o1 o2 result = Some result)
  /\ size_t_sub 0 1 = size_t_modulus - 1
  /\ (fclContacts fclResult <> [] ->
      numContacts fclResult < size_t_modulus ->
      let n := List.length (fclContacts fclResult) in
      Z.to_nat (size_t_sub (numContacts fclResult) 1) = (n - 1)%nat
      /\ (n - 1 < n)%nat
      /\ postProcess convertVector3 fclResult o1 o2 result =
         emitContacts convertVector3 fclResult o1 o2
           (markColinear fclResult
              (markRepeated fclResult (n - 1) (replicate n false)))
           (range 0 n) result).
Proof.
  split; [apply postProcess_empty|]. split; [done|].
  intros Hne Hlt n.
  assert (0 < numContacts fclResult) as Hpos.
  { unfold numContacts. destruct (fclContacts fclResult); [done|simpl; lia]. }
  assert (Z.to_nat (size_t_sub (numContacts fclResult) 1) = (n - 1)%nat)
    as Hbound by (by apply size_t_sub_one).
  split; [done|]. split.
  { unfold numContacts in Hpos. subst n. lia. }
  unfold postProcess, markForDeletion.
  destruct (Z.eqb_spec (numContacts fclResult) 0) as [E|E]; [lia|].
  rewrite Hbound. unfold numContacts. by rewrite Nat2Z.id.
Qed.

Lemma C10_empty_raw_set_witness :
  postProcess Samples.ident {| fclContacts := [] |} Samples.objA Samples.objB
              Samples.emptyResult = Some Samples.emptyResult
  /\ Z.to_nat (size_t_sub (numContacts Samples.twoNear) 1) = 1%nat.
Proof.
  split.
  - apply (proj1 (C10_empty_raw_set Samples.ident {| fclContacts := [] |}
                    Samples.objA Samples.objB Samples.emptyResult)).
    reflexivity.
  - apply (proj2 (proj2 (C10_empty_raw_set Samples.ident Samples.twoNear
                           Samples.objA Samples.objB Samples.emptyResult))).
    + discriminate.
    + reflexivity.
Defined.

Lemma markForDeletion_last (fclResult : CollisionResult) :
  0 < numContacts fclResult < size_t_modulus ->
  isMarked (markForDeletion fclResult)
           (List.length (fclContacts fclResult) - 1) = false.
Proof.
  intros Hn. assert (0 < List.length (fclContacts fclResult))%nat
    by (unfold numContacts in Hn; lia).
  rewrite markForDeletion_isMarked by (done || lia).
  rewrite repeatedLater_last by lia. by rewrite colinearLater_last by lia.
Qed.

(** Three coincident contacts: the pair (0, 1) is repeated and index 1, the
    later one, is marked as well; only the last contact comes out. *)
Example threeCoincident_marks :
  markForDeletion Samples.threeCoincident = [true; true; false].
Proof. vm_compute. reflexivity. Qed.

Example threeCoincident_postProcess :
  postProcess Samples.ident Samples.threeCoincident Samples.objA Samples.objB
              Samples.emptyResult
  = Some {| contacts :=
              [convertedContact Samples.ident (Samples.at_ 1 2 3)
                                Samples.dataA Samples.dataB] |}.
Proof. vm_compute. reflexivity. Qed.

(** A triangle of well separated contacts keeps all three of them. *)
Example triangle_marks :
  markForDeletion Samples.triangle = [false; false; false].
Proof. vm_compute. reflexivity. Qed.

(** C2 as stated fails: among three coincident contacts the pair (0, 1)
    lies within the tolerance, yet the later index 1 is marked too. *)
Lemma C2_later_not_always_kept :
  ~ (forall i j : nat,
        (i < j < 3)%nat ->
        repeated (getContact Samples.threeCoincident i)
                 (getContact Samples.threeCoincident j) = true ->
        isMarked (markForDeletion Samples.threeCoincident) i = true
        /\ isMarked (markForDeletion Samples.threeCoincident) j = false).
Proof.
  intros H. destruct (H 0%nat 1%nat) as [_ H1]; [lia|by vm_compute|].
  rewrite threeCoincident_marks in H1. discriminate H1.
Qed.

(** C2, amended: for every pair [i < j] of raw contacts within the
    tolerance the earlier index [i] is marked for deletion.  The later
    index [j] is not marked on account of that pair: it ends up marked
    exactly when a contact after [j] repeats it or when it starts a
    colinear triple of contacts the first pass left unmarked.  The last
    contact is never marked, and a raw set of exactly two contacts within the
    tolerance yields exactly one contact, the second. *)
Theorem C2_repeated_pair (fclResult : CollisionResult) (i j : nat) :
  numContacts fclResult < size_t_modulus ->
  (i < j < List.length (fclContacts fclResult))%nat ->
  repeated (getContact fclResult i) (getContact fclResult j) = true ->
  isMarked (markForDeletion fclResult) i = true
  /\ ~ In i (retained fclResult)
  /\ isMarked (repeatedMarks fclResult) j = repeatedLater fclResult j
  /\ isMarked (markForDeletion fclResult) j =
     repeatedLater fclResult j
     || colinearLater fclResult (repeatedMarks fclResult) j
  /\ isMarked (markForDeletion fclResult)
              (List.length (fclContacts fclResult) - 1) = false
  /\ (List.length (fclContacts fclResult) = 2%nat ->
      retained fclResult = [1%nat]
      /\ forall convertVector3 o1 o2 userData1 userData2 result,
          getUserData o1 = Some userData1 ->
          getUserData o2 = Some userData2 ->
          postProcess convertVector3 fclResult o1 o2 result =
          Some (push_back result
                  (convertedContact convertVector3 (getContact fclResult 1)
                                    userData1 userData2))).
Proof.
  intros Hsz Hij Hrep.
  assert (0 < numContacts fclResult < size_t_modulus) as Hn
    by (unfold numContacts in *; lia).
  assert (isMarked (markForDeletion fclResult) i = true) as Hi.
  { rewrite markForDeletion_isMarked by (done || lia).
    by rewrite (repeatedLater_intro fclResult i j). }
  split; [done|]. split.
  { unfold retained. rewrite filter_In, Hi. by intros [_ ?]. }
  split; [apply repeatedMarks_isMarked; done || lia|].
  split; [apply markForDeletion_isMarked; done || lia|].
  split; [by apply markForDeletion_last|].
  intros Hlen.
  assert (i = 0 /\ j = 1)%nat as [-> ->] by lia.
  assert (retained fclResult = [1%nat]) as Hret.
  { pose proof (markForDeletion_last fclResult Hn) as Hlast.
    unfold retained. rewrite Hlen in *. simpl in Hlast.
    change (range 0 2) with [0%nat; 1%nat]. simpl.
    by rewrite Hi, Hlast. }
  split; [done|].
  intros convertVector3 o1 o2 userData1 userData2 result H1 H2.
  rewrite postProcess_spec with (userData1 := userData1)
                                (userData2 := userData2); try done.
  - by rewrite Hret.
  - intros E. by rewrite E in Hlen.
Qed.

Lemma C2_repeated_pair_witness :
  numContacts Samples.twoNear < size_t_modulus
  /\ (0 < 1 < List.length (fclContacts Samples.twoNear))%nat
  /\ repeated (getContact Samples.twoNear 0) (getContact Samples.twoNear 1)
     = true
  /\ isMarked (markForDeletion Samples.twoNear) 0 = true
  /\ retained Samples.twoNear = [1%nat].
Proof.
  assert (numContacts Samples.twoNear < size_t_modulus) as H1
    by reflexivity.
  assert (0 < 1 < List.length (fclContacts Samples.twoNear))%nat as H2
    by (simpl; lia).
  assert (repeated (getContact Samples.twoNear 0)
                   (getContact Samples.twoNear 1) = true) as H3
    by (vm_compute; reflexivity).
  destruct (C2_repeated_pair Samples.twoNear 0 1 H1 H2 H3)
    as (Hm & _ & _ & _ & _ & Htwo).
  split; [exact H1|]. split; [exact H2|]. split; [exact H3|].
  split; [exact Hm|]. exact (proj1 (Htwo eq_refl)).
Defined.

(** C3: for every triple [i < j < k] of raw contacts that the first pass
    left unmarked, a cross product of the edges from [i] to [j] and from
    [i] to [k] shorter than the tolerance marks the first index [i] for
    deletion; so of three raw contacts that are colinear within the
    tolerance at most two are appended to the result. *)
Theorem C3_colinear_triple (fclResult : CollisionResult) :
  numContacts fclResult < size_t_modulus ->
  (forall i j k : nat,
      (i < j < k)%nat -> (k < List.length (fclContacts fclResult))%nat ->
      isMarked (repeatedMarks fclResult) i = false ->
      isMarked (repeatedMarks fclResult) j = false ->
      isMarked (repeatedMarks fclResult) k = false ->
      colinear (getContact fclResult i) (getContact fclResult j)
               (getContact fclResult k) = true ->
      isMarked (markForDeletion fclResult) i = true
      /\ ~ In i (retained fclResult))
  /\ (List.length (fclContacts fclResult) = 3%nat ->
      colinear (getContact fclResult 0) (getContact fclResult 1)
               (getContact fclResult 2) = true ->
      (List.length (retained fclResult) <= 2)%nat
      /\ forall convertVector3 o1 o2 userData1 userData2 result,
          getUserData o1 = Some userData1 ->
          getUserData o2 = Some userData2 ->
          exists result',
            postProcess convertVector3 fclResult o1 o2 result = Some result'
            /\ (List.length (contacts result')
                <= List.length (contacts result) + 2)%nat).
Proof.
  intros Hsz.
  assert (forall i j k : nat,
      (i < j < k)%nat -> (k < List.length (fclContacts fclResult))%nat ->
      isMarked (repeatedMarks fclResult) j = false ->
      isMarked (repeatedMarks fclResult) k = false ->
      colinear (getContact fclResult i) (getContact fclResult j)
               (getContact fclResult k) = true ->
      isMarked (markForDeletion fclResult) i = true) as Htriple.
  { intros i j k Hijk Hk Hj Hk' Hcol.
    rewrite markForDeletion_isMarked
      by (unfold numContacts in *; lia).
    rewrite (colinearLater_intro fclResult _ i j k) by done.
    apply orb_true_r. }
  split.
  { intros i j k Hijk Hk _ Hj Hk' Hcol.
    assert (isMarked (markForDeletion fclResult) i = true) as Hi by eauto.
    split; [done|].
    unfold retained. rewrite filter_In, Hi. by intros [_ ?]. }
  intros Hlen Hcol.
  assert (0 < numContacts fclResult < size_t_modulus) as Hn
    by (unfold numContacts in *; lia).
  assert (exists i, (i < 3)%nat
                    /\ isMarked (markForDeletion fclResult) i = true)
    as (i & Hi & Hmarked).
  { destruct (isMarked (repeatedMarks fclResult) 1) eqn:E1.
    { exists 1%nat. split; [lia|].
      rewrite markForDeletion_isMarked by (done || lia).
      rewrite repeatedMarks_isMarked in E1 by (done || lia).
      by rewrite E1. }
    destruct (isMarked (repeatedMarks fclResult) 2) eqn:E2.
    { exists 2%nat. split; [lia|].
      rewrite markForDeletion_isMarked by (done || lia).
      rewrite repeatedMarks_isMarked in E2 by (done || lia).
      by rewrite E2. }
    exists 0%nat. split; [lia|].
    apply (Htriple 0 1 2)%nat; done || lia. }
  assert (List.length (retained fclResult) <= 2)%nat as Hret.
  { unfold retained. rewrite Hlen.
    change (range 0 3) with [0%nat; 1%nat; 2%nat].
    assert (i = 0 \/ i = 1 \/ i = 2)%nat as [-> | [-> | ->]] by lia;
      simpl; rewrite Hmarked; simpl;
      repeat (destruct (isMarked _ _); simpl); lia. }
  split; [done|].
  intros convertVector3 o1 o2 userData1 userData2 result H1 H2.
  eexists. split.
  - apply postProcess_spec with (userData1 := userData1)
                                (userData2 := userData2); try done.
    intros E. by rewrite E in Hlen.
  - simpl. rewrite length_app, length_map. lia.
Qed.

Lemma C3_colinear_triple_witness :
  numContacts Samples.threeOnLine < size_t_modulus
  /\ isMarked (markForDeletion Samples.threeOnLine) 0 = true
  /\ (List.length (retained Samples.threeOnLine) <= 2)%nat.
Proof.
  assert (numContacts Samples.threeOnLine < size_t_modulus) as H1
    by reflexivity.
  destruct (C3_colinear_triple Samples.threeOnLine H1) as [Htriple Hthree].
  split; [exact H1|]. split.
  - apply (Htriple 0 1 2)%nat;
      try (simpl; lia); vm_compute; reflexivity.
  - apply Hthree; [reflexivity | vm_compute; reflexivity].
Defined.

(** ** The candidate callback *)

Section CallbackFacts.

Variable convertVector3 : Vec3.t -> Vec3.t.
Variable fcl_collide :
  FclCollisionObject -> FclCollisionObject -> CollisionRequest ->
  CollisionResult -> CollisionResult.

Local Abbreviation callback := (collisionCallback convertVector3 fcl_collide).

Lemma postProcess_total (fclResult : CollisionResult)
    (o1 o2 : FclCollisionObject) (result : Result) :
  hasUserData o1 -> hasUserData o2 ->
  exists appended,
    postProcess convertVector3 fclResult o1 o2 result =
    Some {| contacts := contacts result ++ appended |}.
Proof.
  intros [userData1 H1] [userData2 H2].
  destruct (postProcess_appends convertVector3 o1 o2 userData1 userData2
              H1 H2 fclResult result) as (appended & Happ & _).
  eauto.
Qed.

Lemma narrowPhase_spec (o1 o2 : FclCollisionObject) (result : Result)
    (collData : FCLCollisionCallbackData) :
  hasUserData o1 -> hasUserData o2 ->
  exists appended,
    narrowPhase convertVector3 fcl_collide o1 o2 result collData =
    Some (if capReached (mFclRequest collData) (rawResult fcl_collide o1 o2 collData)
          then true else done collData,
          {| mFclCollisionDetector := mFclCollisionDetector collData;
             mFclRequest := mFclRequest collData;
             mFclResult := rawResult fcl_collide o1 o2 collData;
             mOption := mOption collData;
             mResult := Some {| contacts := contacts result ++ appended |};
             done := if capReached (mFclRequest collData)
                                   (rawResult fcl_collide o1 o2 collData)
                     then true else done collData;
             events := events collData
                       ++ [EvNarrowPhase (fclAddr o1) (fclAddr o2)] |}).
Proof.
  intros H1 H2.
  destruct (postProcess_total (rawResult fcl_collide o1 o2 collData) o1 o2 result H1 H2)
    as (appended & Hpost).
  exists appended. unfold narrowPhase. fold (rawResult fcl_collide o1 o2 collData).
  rewrite Hpost. reflexivity.
Qed.

Lemma callback_done (o1 o2 : FclCollisionObject)
    (collData : FCLCollisionCallbackData) :
  wellFormedData collData -> done collData = true ->
  callback o1 o2 collData = Some (true, collData).
Proof.
  intros [[opt Hopt] [result Hres]] Hdone.
  unfold collisionCallback. rewrite Hres, Hopt. simpl. by rewrite Hdone.
Qed.

Lemma callback_filtered (o1 o2 : FclCollisionObject)
    (collData : FCLCollisionCallbackData) (opt : Option) :
  mOption collData = Some opt -> is_Some (mResult collData) ->
  done collData = false ->
  passesFilter collData opt o1 o2 = false ->
  callback o1 o2 collData =
  Some (false,
        record (EvNeedCollision
                  (findCollisionObject (mFclCollisionDetector collData) o1)
                  (findCollisionObject (mFclCollisionDetector collData) o2))
               collData).
Proof.
  intros Hopt [result Hres] Hdone Hpass.
  unfold collisionCallback, passesFilter in *.
  rewrite Hres, Hopt. simpl. rewrite Hdone.
  destruct (collisionFilter opt) as [needCollision|]; [|done].
  by rewrite Hpass.
Qed.

Lemma callback_narrow (o1 o2 : FclCollisionObject)
    (collData : FCLCollisionCallbackData) (opt : Option) (result : Result) :
  mOption collData = Some opt -> mResult collData = Some result ->
  done collData = false ->
  passesFilter collData opt o1 o2 = true ->
  hasUserData o1 -> hasUserData o2 ->
  exists appended,
    callback o1 o2 collData =
    Some (capReached (mFclRequest collData) (rawResult fcl_collide o1 o2 collData),
          {| mFclCollisionDetector := mFclCollisionDetector collData;
             mFclRequest := mFclRequest collData;
             mFclResult := rawResult fcl_collide o1 o2 collData;
             mOption := mOption collData;
             mResult := Some {| contacts := contacts result ++ appended |};
             done := capReached (mFclRequest collData)
                                (rawResult fcl_collide o1 o2 collData);
             events := events collData
                       ++ filterEvents collData opt o1 o2
                       ++ [EvNarrowPhase (fclAddr o1) (fclAddr o2)] |}).
Proof.
  intros Hopt Hres Hdone Hpass H1 H2.
  unfold collisionCallback, passesFilter, filterEvents in *.
  rewrite Hres, Hopt. simpl. rewrite Hdone.
  destruct (collisionFilter opt) as [needCollision|].
  - rewrite Hpass. simpl.
    destruct (narrowPhase_spec o1 o2 result
                (record (EvNeedCollision
                   (findCollisionObject (mFclCollisionDetector collData) o1)
                   (findCollisionObject (mFclCollisionDetector collData) o2))
                   collData) H1 H2) as (appended & ->).
    exists appended. unfold rawResult. simpl.
    rewrite Hdone, Hopt, <- app_assoc.
    by destruct (capReached _ _).
  - destruct (narrowPhase_spec o1 o2 result collData H1 H2)
      as (appended & ->).
    exists appended. rewrite Hdone, ?Hopt.
    by destruct (capReached _ _).
Qed.

(** Every path of the callback at once. *)
Lemma callback_total (o1 o2 : FclCollisionObject)
    (collData : FCLCollisionCallbackData) (opt : Option) :
  mOption collData = Some opt -> is_Some (mResult collData) ->
  hasUserData o1 -> hasUserData o2 ->
  exists collData',
    callback o1 o2 collData = Some (done collData', collData')
    /\ mOption collData' = Some opt
    /\ is_Some (mResult collData')
    /\ mFclRequest collData' = mFclRequest collData
    /\ mFclCollisionDetector collData' = mFclCollisionDetector collData
    /\ done collData' =
       done collData
       || (passesFilter collData opt o1 o2
           && capReached (mFclRequest collData) (rawResult fcl_collide o1 o2 collData)).
Proof.
  intros Hopt Hres H1 H2.
  destruct (done collData) eqn:Hdone.
  { exists collData. rewrite callback_done by done.
    by rewrite Hdone. }
  destruct (passesFilter collData opt o1 o2) eqn:Hpass.
  - destruct Hres as [result Hres].
    destruct (callback_narrow o1 o2 collData opt result)
      as (appended & ->); try done.
    match goal with |- context [Some (_, ?c)] => exists c end.
    split; [reflexivity|]. simpl. by rewrite Hopt.
  - rewrite (callback_filtered o1 o2 collData opt) by done.
    match goal with |- context [Some (_, ?c)] => exists c end.
    simpl. by rewrite Hdone.
Qed.

End CallbackFacts.

(** ** Broad-phase enumeration and [detect] *)

Lemma sameDetectorType_false (group : CollisionGroup) :
  groupDetectorType group <> getTypeStatic ->
  sameDetectorType group = false.
Proof. intros Hne. unfold sameDetectorType. by apply String.eqb_neq. Qed.

Section DetectFacts.

Variable convertVector3 : Vec3.t -> Vec3.t.
Variable fcl_collide :
  FclCollisionObject -> FclCollisionObject -> CollisionRequest ->
  CollisionResult -> CollisionResult.
Variable selfCandidates :
  CollisionGroup -> list (FclCollisionObject * FclCollisionObject).
Variable crossCandidates :
  CollisionGroup -> CollisionGroup ->
  list (FclCollisionObject * FclCollisionObject).

Local Abbreviation enumerate := (broadPhaseCollide convertVector3 fcl_collide).

Lemma broadPhaseCollide_total
    (pairs : list (FclCollisionObject * FclCollisionObject))
    (collData : FCLCollisionCallbackData) (opt : Option) :
  mOption collData = Some opt -> is_Some (mResult collData) ->
  candidatesHaveUserData pairs ->
  exists collData',
    enumerate pairs collData = Some collData'
    /\ is_Some (mResult collData').
Proof.
  intros Hopt Hres Hpairs. revert collData Hopt Hres.
  induction Hpairs as [|[o1 o2] pairs [H1 H2] _ IH]; intros collData Hopt Hres.
  - exists collData. by split.
  - simpl in H1, H2.
    destruct (callback_total convertVector3 fcl_collide o1 o2 collData opt)
      as (collData' & Hcb & Hopt' & Hres' & _); try done.
    simpl. rewrite Hcb. simpl.
    destruct (done collData'); [by exists collData'|].
    by apply IH.
Qed.

(** With a filter that rejects every pair the enumeration only consults
    the filter: result and flag stay as they were. *)
Lemma broadPhaseCollide_all_filtered
    (pairs : list (FclCollisionObject * FclCollisionObject))
    (collData : FCLCollisionCallbackData) (opt : Option)
    (needCollision : CollisionFilter) :
  mOption collData = Some opt -> is_Some (mResult collData) ->
  done collData = false ->
  collisionFilter opt = Some needCollision ->
  (forall a b, needCollision a b = false) ->
  exists collData',
    enumerate pairs collData = Some collData'
    /\ mResult collData' = mResult collData
    /\ events collData' =
       events collData
       ++ map (fun p =>
                 EvNeedCollision
                   (findCollisionObject (mFclCollisionDetector collData) p.1)
                   (findCollisionObject (mFclCollisionDetector collData) p.2))
              pairs.
Proof.
  intros Hopt Hres Hdone Hfilter Hreject. revert collData Hopt Hres Hdone.
  induction pairs as [|[o1 o2] pairs IH]; intros collData Hopt Hres Hdone.
  - exists collData. simpl. by rewrite app_nil_r.
  - simpl.
    rewrite (callback_filtered convertVector3 fcl_collide o1 o2 collData opt);
      try done.
    2:{ unfold passesFilter. by rewrite Hfilter. }
    simpl.
    destruct (IH (record
                (EvNeedCollision
                   (findCollisionObject (mFclCollisionDetector collData) o1)
                   (findCollisionObject (mFclCollisionDetector collData) o2))
                collData))
      as (collData' & Hrun & Hres' & Hev); try done.
    exists collData'. split; [done|]. split; [done|].
    rewrite Hev. simpl. by rewrite <- app_assoc.
Qed.

Lemma detect_precondition (this : FCLCollisionDetector)
    (group : option CollisionGroup) (opt : Option) (result : Result)
    (tr : list Event) :
  preconditionFails group ->
  detect convertVector3 fcl_collide selfCandidates this group opt result tr =
  Some (false, {| contacts := [] |}, tr).
Proof.
  intros Hfail. unfold detect. destruct group as [group|]; [|done].
  simpl in Hfail. by rewrite sameDetectorType_false.
Qed.

Lemma detect2_precondition (this : FCLCollisionDetector)
    (group1 group2 : option CollisionGroup) (opt : Option) (result : Result)
    (tr : list Event) :
  preconditionFails group1 \/ preconditionFails group2 ->
  detect2 convertVector3 fcl_collide crossCandidates this group1 group2 opt
          result tr =
  Some (false, {| contacts := [] |}, tr).
Proof.
  intros Hfail. unfold detect2.
  destruct group1 as [group1|], group2 as [group2|]; try done.
  destruct Hfail as [Hfail|Hfail]; simpl in Hfail.
  - by rewrite sameDetectorType_false.
  - destruct (sameDetectorType group1); [|done]. simpl.
    by rewrite sameDetectorType_false.
Qed.

Lemma Result_empty_iff (result : Result) :
  negb (Result_empty result) = true <-> contacts result <> [].
Proof. unfold Result_empty. by destruct (contacts result). Qed.

(** Whatever path [detect] takes, the boolean it returns tells whether the
    result holds a contact. *)
Lemma detect_return (this : FCLCollisionDetector)
    (group : option CollisionGroup) (opt : Option) (result : Result)
    (tr : list Event) (b : bool) (result' : Result) (tr' : list Event) :
  detect convertVector3 fcl_collide selfCandidates this group opt result tr =
  Some (b, result', tr') ->
  b = true <-> contacts result' <> [].
Proof.
  unfold detect. intros Hdet.
  destruct group as [group|]; [|by inversion Hdet].
  destruct (sameDetectorType group); simpl in Hdet; [|by inversion Hdet].
  destruct (broadPhaseCollide _ _ _ _) as [collData|]; [|done].
  simpl in Hdet. destruct (mResult collData) as [r|]; [|done].
  simpl in Hdet. inversion Hdet; subst. apply Result_empty_iff.
Qed.

Lemma detect2_return (this : FCLCollisionDetector)
    (group1 group2 : option CollisionGroup) (opt : Option) (result : Result)
    (tr : list Event) (b : bool) (result' : Result) (tr' : list Event) :
  detect2 convertVector3 fcl_collide crossCandidates this group1 group2 opt
          result tr = Some (b, result', tr') ->
  b = true <-> contacts result' <> [].
Proof.
  unfold detect2. intros Hdet.
  destruct group1 as [group1|], group2 as [group2|];
    try (by inversion Hdet).
  destruct (sameDetectorType group1); simpl in Hdet; [|by inversion Hdet].
  destruct (sameDetectorType group2); simpl in Hdet; [|by inversion Hdet].
  destruct (broadPhaseCollide _ _ _ _) as [collData|]; [|done].
  simpl in Hdet. destruct (mResult collData) as [r|]; [|done].
  simpl in Hdet. inversion Hdet; subst. apply Result_empty_iff.
Qed.

Lemma detect_total (this : FCLCollisionDetector)
    (group : option CollisionGroup) (opt : Option) (result : Result)
    (tr : list Event) :
  (forall grp, group = Some grp -> candidatesHaveUserData (selfCandidates grp)) ->
  exists b result' tr',
    detect convertVector3 fcl_collide selfCandidates this group opt result tr
    = Some (b, result', tr').
Proof.
  intros Hud. unfold detect. destruct group as [group|]; [|by eauto].
  destruct (sameDetectorType group); simpl; [|by eauto].
  match goal with
  | |- context [broadPhaseCollide _ _ ?pairs ?cd] =>
      destruct (broadPhaseCollide_total pairs cd opt)
        as (collData' & -> & [r Hr]); try done; eauto
  end.
  simpl. rewrite Hr. simpl. eauto.
Qed.

Lemma detect2_total (this : FCLCollisionDetector)
    (group1 group2 : option CollisionGroup) (opt : Option) (result : Result)
    (tr : list Event) :
  (forall grp1 grp2, group1 = Some grp1 -> group2 = Some grp2 ->
                     candidatesHaveUserData (crossCandidates grp1 grp2)) ->
  exists b result' tr',
    detect2 convertVector3 fcl_collide crossCandidates this group1 group2 opt
            result tr = Some (b, result', tr').
Proof.
  intros Hud. unfold detect2.
  destruct group1 as [group1|], group2 as [group2|]; try (by eauto).
  destruct (sameDetectorType group1); simpl; [|by eauto].
  destruct (sameDetectorType group2); simpl; [|by eauto].
  match goal with
  | |- context [broadPhaseCollide _ _ ?pairs ?cd] =>
      destruct (broadPhaseCollide_total pairs cd opt)
        as (collData' & -> & [r Hr]); try done; eauto
  end.
  simpl. rewrite Hr. simpl. eauto.
Qed.

End DetectFacts.

(** ** Claims about the callback and [detect] *)

(** With contact computation switched off and a cap of one, a pair with
    one raw contact sets the flag, and the enumeration stops before the
    second candidate pair. *)
Example dataNoContacts_request :
  mFclRequest Samples.dataNoContacts =
  {| num_max_contacts := 1; enable_contact := false; enable_cost := false;
     gjk_solver_type := GST_LIBCCD |}.
Proof. reflexivity. Qed.

Example detect_noContacts_stops_early :
  snd <$> detect Samples.ident Samples.touching Samples.selfPairs Samples.det
                 (Some Samples.group) Samples.optNoContacts
                 Samples.emptyResult []
  = Some [EvUpdate 1; EvBroadPhase 1; EvNarrowPhase 11 12].
Proof. vm_compute. reflexivity. Qed.

(** C1 as stated fails: the request has contact computation disabled, the
    raw result is a collision with one contact and the cap is one; the
    callback sets the flag. *)
Lemma C1_flag_set_with_contacts_disabled :
  match collisionCallback Samples.ident Samples.touching
                          Samples.objA Samples.objB Samples.dataNoContacts with
  | Some (_, collData') =>
      ~ (done collData' = true <->
         enable_contact (mFclRequest Samples.dataNoContacts) = true
         /\ isCollision (mFclResult collData') = true
         /\ num_max_contacts (mFclRequest Samples.dataNoContacts)
            <= numContacts (mFclResult collData'))
  | None => False
  end.
Proof.
  assert (collisionCallback Samples.ident Samples.touching
            Samples.objA Samples.objB Samples.dataNoContacts
          = Some (true,
                  {| mFclCollisionDetector := Samples.det;
                     mFclRequest := mFclRequest Samples.dataNoContacts;
                     mFclResult :=
                       {| fclContacts := [Samples.at_ 1 2 3] |};
                     mOption := Some Samples.optNoContacts;
                     mResult :=
                       Some {| contacts :=
                                 [convertedContact Samples.ident
                                    (Samples.at_ 1 2 3)
                                    Samples.dataA Samples.dataB] |};
                     done := true;
                     events := [EvNarrowPhase 11 12] |})) as ->
    by (vm_compute; reflexivity).
  simpl. intros [Hset _]. destruct (Hset eq_refl) as [Habs _].
  discriminate Habs.
Qed.

(** C1, amended: a callback invocation leaves the flag set exactly when it
    was set before, or the pair passes the filter, cost computation is
    disabled in the native request, and the raw result is a collision with
    at least [num_max_contacts] contacts.  The contact-computation toggle is
    not part of the test, and [convertOption] leaves the request's cost
    toggle at the native default (off), so with contact computation
    disabled the flag is set under the same condition. *)
Theorem C1_done_flag (convertVector3 : Vec3.t -> Vec3.t)
    (fcl_collide :
       FclCollisionObject -> FclCollisionObject -> CollisionRequest ->
       CollisionResult -> CollisionResult)
    (o1 o2 : FclCollisionObject) (collData : FCLCollisionCallbackData)
    (opt : Option) :
  mOption collData = Some opt -> is_Some (mResult collData) ->
  hasUserData o1 -> hasUserData o2 ->
  (exists collData',
      collisionCallback convertVector3 fcl_collide o1 o2 collData
      = Some (done collData', collData')
      /\ done collData' =
         done collData
         || (passesFilter collData opt o1 o2
             && (negb (enable_cost (mFclRequest collData))
                 && isCollision (rawResult fcl_collide o1 o2 collData)
                 && (num_max_contacts (mFclRequest collData)
                     <=? numContacts (rawResult fcl_collide o1 o2 collData)))))
  /\ (forall this opt' result tr,
        let request :=
          mFclRequest (newCallbackData this (Some opt') result tr) in
        enable_cost request = false
        /\ enable_contact request = enableContact opt'
        /\ num_max_contacts request = maxNumContacts opt').
Proof.
  intros Hopt Hres H1 H2. split; [|done].
  destruct (callback_total convertVector3 fcl_collide o1 o2 collData opt)
    as (collData' & Hcb & _ & _ & _ & _ & Hdone); try done.
  by exists collData'.
Qed.

Lemma C1_done_flag_witness :
  mOption Samples.dataNoContacts = Some Samples.optNoContacts
  /\ is_Some (mResult Samples.dataNoContacts)
  /\ hasUserData Samples.objA /\ hasUserData Samples.objB
  /\ exists collData',
      collisionCallback Samples.ident Samples.touching Samples.objA
                        Samples.objB Samples.dataNoContacts
      = Some (done collData', collData').
Proof.
  assert (mOption Samples.dataNoContacts = Some Samples.optNoContacts) as H1
    by reflexivity.
  assert (is_Some (mResult Samples.dataNoContacts)) as H2
    by (exists Samples.emptyResult; reflexivity).
  assert (hasUserData Samples.objA) as H3
    by (exists Samples.dataA; reflexivity).
  assert (hasUserData Samples.objB) as H4
    by (exists Samples.dataB; reflexivity).
  destruct (C1_done_flag Samples.ident Samples.touching Samples.objA
              Samples.objB Samples.dataNoContacts Samples.optNoContacts
              H1 H2 H3 H4) as [(collData' & Hcb & _) _].
  split; [exact H1|]. split; [exact H2|]. split; [exact H3|].
  split; [exact H4|]. exists collData'. exact Hcb.
Defined.

(** C4: whenever either [detect] overload returns, the boolean it returns
    is true exactly when the result holds at least one contact at return;
    the overloads do return when the candidate objects carry their user
    data, and false covers the failed preconditions and the case of no
    collision alike. *)
Theorem C4_detect_return_value (convertVector3 : Vec3.t -> Vec3.t)
    (fcl_collide :
       FclCollisionObject -> FclCollisionObject -> CollisionRequest ->
       CollisionResult -> CollisionResult)
    (selfCandidates :
       CollisionGroup -> list (FclCollisionObject * FclCollisionObject))
    (crossCandidates :
       CollisionGroup -> CollisionGroup ->
       list (FclCollisionObject * FclCollisionObject))
    (this : FCLCollisionDetector) (opt : Option) (result : Result)
    (tr : list Event) :
  (forall group b result' tr',
      detect convertVector3 fcl_collide selfCandidates this group opt
             result tr = Some (b, result', tr') ->
      b = true <-> contacts result' <> [])
  /\ (forall group1 group2 b result' tr',
        detect2 convertVector3 fcl_collide crossCandidates this group1
                group2 opt result tr = Some (b, result', tr') ->
        b = true <-> contacts result' <> [])
  /\ (forall group,
        (forall grp, group = Some grp ->
                     candidatesHaveUserData (selfCandidates grp)) ->
        exists b result' tr',
          detect convertVector3 fcl_collide selfCandidates this group opt
                 result tr = Some (b, result', tr')
          /\ (b = true <-> contacts result' <> [])
          /\ (preconditionFails group -> b = false))
  /\ (forall group1 group2,
        (forall grp1 grp2, group1 = Some grp1 -> group2 = Some grp2 ->
                           candidatesHaveUserData (crossCandidates grp1 grp2)) ->
        exists b result' tr',
          detect2 convertVector3 fcl_collide crossCandidates this group1
                  group2 opt result tr = Some (b, result', tr')
          /\ (b = true <-> contacts result' <> [])
          /\ (preconditionFails group1 \/ preconditionFails group2 ->
              b = false)).
Proof.
  split; [|split; [|split]].
  - intros group b result' tr'. apply detect_return.
  - intros group1 group2 b result' tr'. apply detect2_return.
  - intros group Hud.
    destruct (detect_total convertVector3 fcl_collide selfCandidates this
                group opt result tr Hud) as (b & result' & tr' & Hdet).
    exists b, result', tr'. split; [done|]. split.
    + by eapply detect_return.
    + intros Hfail. rewrite detect_precondition in Hdet by done.
      by inversion Hdet.
  - intros group1 group2 Hud.
    destruct (detect2_total convertVector3 fcl_collide crossCandidates this
                group1 group2 opt result tr Hud)
      as (b & result' & tr' & Hdet).
    exists b, result', tr'. split; [done|]. split.
    + by eapply detect2_return.
    + intros Hfail. rewrite detect2_precondition in Hdet by done.
      by inversion Hdet.
Qed.

Lemma Samples_selfPairs_userData (grp : CollisionGroup) :
  candidatesHaveUserData (Samples.selfPairs grp).
Proof.
  repeat constructor; simpl; eexists; reflexivity.
Defined.

Lemma C4_detect_return_value_witness :
  exists b result' tr',
    detect Samples.ident Samples.touching Samples.selfPairs Samples.det
           (Some Samples.group) Samples.optContacts Samples.emptyResult []
    = Some (b, result', tr')
    /\ (b = true <-> contacts result' <> []).
Proof.
  destruct (C4_detect_return_value Samples.ident Samples.touching
              Samples.selfPairs Samples.crossPairs Samples.det
              Samples.optContacts Samples.emptyResult [])
    as (_ & _ & Hself & _).
  destruct (Hself (Some Samples.group)
                  (fun grp _ => Samples_selfPairs_userData grp))
    as (b & result' & tr' & Hdet & Hiff & _).
  exists b, result', tr'. split; [exact Hdet | exact Hiff].
Defined.

(** C5: [detect] starts from a cleared result, so what the result held
    before the call never shows in the outcome; when a group is null or was
    made by a detector of another type, [detect] returns false with an
    empty result and makes no outside call at all: no group update, no
    broad-phase enumeration. *)
Theorem C5_detect_clears_and_guards (convertVector3 : Vec3.t -> Vec3.t)
    (fcl_collide :
       FclCollisionObject -> FclCollisionObject -> CollisionRequest ->
       CollisionResult -> CollisionResult)
    (selfCandidates :
       CollisionGroup -> list (FclCollisionObject * FclCollisionObject))
    (crossCandidates :
       CollisionGroup -> CollisionGroup ->
       list (FclCollisionObject * FclCollisionObject))
    (this : FCLCollisionDetector) (opt : Option) (tr : list Event) :
  (forall group result1 result2,
      detect convertVector3 fcl_collide selfCandidates this group opt
             result1 tr
      = detect convertVector3 fcl_collide selfCandidates this group opt
               result2 tr)
  /\ (forall group1 group2 result1 result2,
        detect2 convertVector3 fcl_collide crossCandidates this group1 group2
                opt result1 tr
        = detect2 convertVector3 fcl_collide crossCandidates this group1
                  group2 opt result2 tr)
  /\ (forall group result,
        preconditionFails group ->
        detect convertVector3 fcl_collide selfCandidates this group opt
               result tr
        = Some (false, {| contacts := [] |}, tr))
  /\ (forall group1 group2 result,
        preconditionFails group1 \/ preconditionFails group2 ->
        detect2 convertVector3 fcl_collide crossCandidates this group1 group2
                opt result tr
        = Some (false, {| contacts := [] |}, tr)).
Proof.
  split; [done|]. split; [done|]. split.
  - intros group result Hfail. by apply detect_precondition.
  - intros group1 group2 result Hfail. by apply detect2_precondition.
Qed.

Lemma C5_detect_clears_and_guards_witness :
  preconditionFails (Some Samples.foreignGroup)
  /\ detect Samples.ident Samples.touching Samples.selfPairs Samples.det
            (Some Samples.foreignGroup) Samples.optContacts
            (push_back Samples.emptyResult
               (convertedContact Samples.ident (Samples.at_ 1 2 3)
                                 Samples.dataA Samples.dataB))
            [EvUpdate 7]
     = Some (false, {| contacts := [] |}, [EvUpdate 7])
  /\ detect2 Samples.ident Samples.touching Samples.crossPairs Samples.det
             (Some Samples.group) None Samples.optContacts
             Samples.emptyResult []
     = Some (false, {| contacts := [] |}, []).
Proof.
  assert (preconditionFails (Some Samples.foreignGroup)) as Hfail
    by (simpl; discriminate).
  destruct (C5_detect_clears_and_guards Samples.ident Samples.touching
              Samples.selfPairs Samples.crossPairs Samples.det
              Samples.optContacts [EvUpdate 7]) as (_ & _ & Hself & _).
  destruct (C5_detect_clears_and_guards Samples.ident Samples.touching
              Samples.selfPairs Samples.crossPairs Samples.det
              Samples.optContacts []) as (_ & _ & _ & Hcross).
  split; [exact Hfail|]. split.
  - apply Hself. exact Hfail.
  - apply Hcross. right. exact I.
Defined.

(** C8: with a filter configured the callback asks the filter first; a
    pair the filter rejects is left at once, with no narrow-phase call and
    the result, the raw result and the flag untouched, while an accepted
    pair reaches the narrow phase only after the filter was asked.  So a
    filter that rejects every pair makes both [detect] overloads return
    false with an empty result, whatever the narrow phase would report. *)
Theorem C8_filter_before_narrow_phase (convertVector3 : Vec3.t -> Vec3.t)
    (fcl_collide :
       FclCollisionObject -> FclCollisionObject -> CollisionRequest ->
       CollisionResult -> CollisionResult)
    (selfCandidates :
       CollisionGroup -> list (FclCollisionObject * FclCollisionObject))
    (crossCandidates :
       CollisionGroup -> CollisionGroup ->
       list (FclCollisionObject * FclCollisionObject))
    (opt : Option) (needCollision : CollisionFilter) :
  collisionFilter opt = Some needCollision ->
  (forall o1 o2 collData,
      mOption collData = Some opt -> is_Some (mResult collData) ->
      done collData = false ->
      let asked :=
        EvNeedCollision
          (findCollisionObject (mFclCollisionDetector collData) o1)
          (findCollisionObject (mFclCollisionDetector collData) o2) in
      (needCollision (findCollisionObject (mFclCollisionDetector collData) o1)
                     (findCollisionObject (mFclCollisionDetector collData) o2)
       = false ->
       exists collData',
         collisionCallback convertVector3 fcl_collide o1 o2 collData
         = Some (false, collData')
         /\ mResult collData' = mResult collData
         /\ mFclResult collData' = mFclResult collData
         /\ done collData' = false
         /\ events collData' = events collData ++ [asked])
      /\ (needCollision
            (findCollisionObject (mFclCollisionDetector collData) o1)
            (findCollisionObject (mFclCollisionDetector collData) o2)
          = true ->
          hasUserData o1 -> hasUserData o2 ->
          exists b collData',
            collisionCallback convertVector3 fcl_collide o1 o2 collData
            = Some (b, collData')
            /\ events collData' =
               events collData
               ++ [asked; EvNarrowPhase (fclAddr o1) (fclAddr o2)]))
  /\ ((forall a b, needCollision a b = false) ->
      forall this result tr,
        (forall group,
            sameDetectorType group = true ->
            detect convertVector3 fcl_collide selfCandidates this (Some group)
                   opt result tr
            = Some (false, {| contacts := [] |},
                    tr ++ [EvUpdate (groupAddr group);
                           EvBroadPhase (groupAddr group)]
                       ++ map (fun p =>
                                 EvNeedCollision (findCollisionObject this p.1)
                                                 (findCollisionObject this p.2))
                              (selfCandidates group)))
        /\ (forall group1 group2,
              sameDetectorType group1 = true ->
              sameDetectorType group2 = true ->
              detect2 convertVector3 fcl_collide crossCandidates this
                      (Some group1) (Some group2) opt result tr
              = Some (false, {| contacts := [] |},
                      tr ++ [EvUpdate (groupAddr group1);
                             EvUpdate (groupAddr group2);
                             EvBroadPhase2 (groupAddr group1)
                                           (groupAddr group2)]
                         ++ map (fun p =>
                                   EvNeedCollision
                                     (findCollisionObject this p.1)
                                     (findCollisionObject this p.2))
                                (crossCandidates group1 group2)))).
Proof.
  intros Hfilter. split.
  - intros o1 o2 collData Hopt Hres Hdone asked. split.
    + intros Hreject.
      rewrite (callback_filtered convertVector3 fcl_collide o1 o2 collData opt)
        by (done || (unfold passesFilter; by rewrite Hfilter)).
      eexists. split; [reflexivity|]. by simpl.
    + intros Haccept H1 H2. destruct Hres as [result Hres].
      destruct (callback_narrow convertVector3 fcl_collide o1 o2 collData opt
                  result) as (appended & ->); try done.
      { unfold passesFilter. by rewrite Hfilter. }
      eexists _, _. split; [reflexivity|]. simpl.
      unfold filterEvents. by rewrite Hfilter.
  - intros Hreject this result tr. split.
    + intros group Htype. unfold detect. rewrite Htype. simpl.
      match goal with
      | |- context [broadPhaseCollide _ _ ?pairs ?cd] =>
          destruct (broadPhaseCollide_all_filtered convertVector3 fcl_collide
                      pairs cd opt needCollision)
            as (collData' & -> & Hres' & Hev); try done
      end.
      simpl. rewrite Hres'. simpl. rewrite Hev. simpl.
      unfold CollisionGroup_update. by rewrite <- !app_assoc.
    + intros group1 group2 Htype1 Htype2. unfold detect2.
      rewrite Htype1, Htype2. simpl.
      match goal with
      | |- context [broadPhaseCollide _ _ ?pairs ?cd] =>
          destruct (broadPhaseCollide_all_filtered convertVector3 fcl_collide
                      pairs cd opt needCollision)
            as (collData' & -> & Hres' & Hev); try done
      end.
      simpl. rewrite Hres'. simpl. rewrite Hev. simpl.
      unfold CollisionGroup_update. by rewrite <- !app_assoc.
Qed.

Lemma C8_filter_before_narrow_phase_witness :
  collisionFilter Samples.optRejectAll = Some Samples.rejectAll
  /\ detect Samples.ident Samples.touching Samples.selfPairs Samples.det
            (Some Samples.group) Samples.optRejectAll Samples.emptyResult []
     = Some (false, {| contacts := [] |},
             [EvUpdate 1; EvBroadPhase 1;
              EvNeedCollision (Some 101%positive) (Some 102%positive);
              EvNeedCollision (Some 101%positive) (Some 103%positive)]).
Proof.
  split; [reflexivity|].
  destruct (C8_filter_before_narrow_phase Samples.ident Samples.touching
              Samples.selfPairs Samples.crossPairs Samples.optRejectAll
              Samples.rejectAll eq_refl) as [_ Hdetect].
  destruct (Hdetect (fun _ _ => eq_refl) Samples.det Samples.emptyResult [])
    as [Hself _].
  exact (Hself Samples.group eq_refl).
Defined.

(** ** The geometry cache *)

Section CacheFacts.

Variable createFCLCollisionGeometry : ConstShapePtr -> CollisionGeometryPtr.
Variable count_modulus : Z.
Local Arguments Z.of_nat : simpl never.

Local Abbreviation claim :=
  (claimFCLCollisionGeometry createFCLCollisionGeometry count_modulus).
Local Abbreviation reclaim := (reclaimFCLCollisionGeometry count_modulus).
Local Abbreviation run :=
  (cacheRun createFCLCollisionGeometry count_modulus).

Lemma claim_miss (shape : ConstShapePtr) (c : Cache) :
  mShapeMap (detector c) !! shapeAddr shape = None ->
  claim shape c =
  Some (createFCLCollisionGeometry shape,
        {| detector :=
             {| mShapeMap :=
                  <[shapeAddr shape := (createFCLCollisionGeometry shape, 1)]>
                    (mShapeMap (detector c));
                mFCLCollisionObjectMap :=
                  mFCLCollisionObjectMap (detector c) |};
           builderCalls := builderCalls c ++ [shape] |}).
Proof. intros Hnone. unfold claimFCLCollisionGeometry. by rewrite Hnone. Qed.

Lemma claim_hit (shape : ConstShapePtr) (c : Cache)
    (fclCollGeom : CollisionGeometryPtr) (count : Z) :
  mShapeMap (detector c) !! shapeAddr shape = Some (fclCollGeom, count) ->
  count <> 0 ->
  claim shape c =
  Some (fclCollGeom,
        setShapeMap
          (<[shapeAddr shape := (fclCollGeom, (count + 1) mod count_modulus)]>
             (mShapeMap (detector c))) c).
Proof.
  intros Hsome Hcount. unfold claimFCLCollisionGeometry. rewrite Hsome.
  by destruct (Z.eqb_spec count 0).
Qed.

Lemma heldCache_refCount (c0 : Cache) (shape : ConstShapePtr) (k : nat)
    (calls : list ConstShapePtr) :
  mShapeMap (detector c0) !! shapeAddr shape = None ->
  refCount (heldCache createFCLCollisionGeometry c0 shape k calls) shape = Z.of_nat k
  /\ (cached (heldCache createFCLCollisionGeometry c0 shape k calls) shape <-> (0 < k)%nat).
Proof.
  intros Hnone. unfold refCount, cached, heldCache. simpl.
  destruct k as [|k].
  - rewrite Hnone. split; [done|]. split; [by intros [? ?]|lia].
  - rewrite lookup_insert_eq. split; [done|]. split; [lia|by eexists].
Qed.

Lemma claim_first (c0 : Cache) (shape : ConstShapePtr) :
  mShapeMap (detector c0) !! shapeAddr shape = None ->
  claim shape c0 =
  Some (createFCLCollisionGeometry shape,
        heldCache createFCLCollisionGeometry c0 shape 1 (builderCalls c0 ++ [shape])).
Proof. intros Hnone. by rewrite claim_miss. Qed.

Lemma claim_held (c0 : Cache) (shape : ConstShapePtr) (k : nat)
    (calls : list ConstShapePtr) :
  (1 <= k)%nat -> Z.of_nat k + 1 < count_modulus ->
  claim shape (heldCache createFCLCollisionGeometry c0 shape k calls) =
  Some (createFCLCollisionGeometry shape, heldCache createFCLCollisionGeometry c0 shape (S k) calls).
Proof using Type.
  intros Hk Hlt. destruct k as [|k]; [lia|].
  rewrite (claim_hit _ _ (createFCLCollisionGeometry shape)
                     (Z.of_nat (S k)));
    [|by simpl; rewrite lookup_insert_eq|lia].
  rewrite Z.mod_small by lia.
  unfold setShapeMap, heldCache. simpl. rewrite insert_insert_eq.
  repeat f_equal. lia.
Qed.

Lemma reclaim_held (c0 : Cache) (shape : ConstShapePtr) (k : nat)
    (calls : list ConstShapePtr) :
  mShapeMap (detector c0) !! shapeAddr shape = None ->
  (1 <= k)%nat -> Z.of_nat k < count_modulus ->
  reclaim shape (heldCache createFCLCollisionGeometry c0 shape k calls) =
  Some (heldCache createFCLCollisionGeometry c0 shape (k - 1) calls).
Proof using Type.
  intros Hnone Hk Hlt. destruct k as [|k]; [lia|].
  unfold reclaimFCLCollisionGeometry, heldCache. simpl.
  rewrite lookup_insert_eq.
  destruct (Z.eqb_spec (Z.of_nat (S k)) 0) as [E|_]; [lia|].
  rewrite Z.mod_small by lia.
  rewrite Nat.sub_0_r.
  destruct (Z.eqb_spec (Z.of_nat (S k) - 1) 0) as [E|E].
  - assert (k = 0)%nat as -> by lia.
    unfold setShapeMap. simpl. by rewrite delete_insert_id.
  - destruct k as [|k]; [lia|].
    unfold setShapeMap. simpl. rewrite insert_insert_eq.
    repeat f_equal. lia.
Qed.

Lemma cacheRun_app (shape : ConstShapePtr) (ops1 ops2 : list CacheOp)
    (c : Cache) :
  run shape (ops1 ++ ops2) c = run shape ops1 c ≫= run shape ops2.
Proof.
  revert c. induction ops1 as [|op ops1 IH]; intros c; simpl; [done|].
  destruct (cacheStep _ _ shape op c) as [c'|]; simpl; [apply IH|done].
Qed.

Lemma run_acquires (c0 : Cache) (shape : ConstShapePtr) (j k : nat)
    (calls : list ConstShapePtr) :
  (1 <= k)%nat -> Z.of_nat (k + j) < count_modulus ->
  run shape (replicate j Acquire) (heldCache createFCLCollisionGeometry c0 shape k calls) =
  Some (heldCache createFCLCollisionGeometry c0 shape (k + j) calls).
Proof using Type.
  revert k. induction j as [|j IH]; intros k Hk Hlt; simpl.
  - by rewrite Nat.add_0_r.
  - rewrite claim_held by lia. simpl. rewrite IH by lia.
    do 2 f_equal. lia.
Qed.

Lemma run_releases (c0 : Cache) (shape : ConstShapePtr) (j k : nat)
    (calls : list ConstShapePtr) :
  mShapeMap (detector c0) !! shapeAddr shape = None ->
  (j <= k)%nat -> Z.of_nat k < count_modulus ->
  run shape (replicate j Release) (heldCache createFCLCollisionGeometry c0 shape k calls) =
  Some (heldCache createFCLCollisionGeometry c0 shape (k - j) calls).
Proof using Type.
  intros Hnone. revert k. induction j as [|j IH]; intros k Hk Hlt; simpl.
  - by rewrite Nat.sub_0_r.
  - rewrite reclaim_held by (done || lia). simpl. rewrite IH by lia.
    do 2 f_equal. lia.
Qed.

(** From a cache without an entry for [shape]: [j >= 1] acquisitions
    followed by [i <= j] releases leave [j - i] references. *)
Lemma run_acquire_release (c0 : Cache) (shape : ConstShapePtr) (j i : nat) :
  mShapeMap (detector c0) !! shapeAddr shape = None ->
  (1 <= j)%nat -> (i <= j)%nat -> Z.of_nat j < count_modulus ->
  run shape (replicate j Acquire ++ replicate i Release) c0 =
  Some (heldCache createFCLCollisionGeometry c0 shape (j - i) (builderCalls c0 ++ [shape])).
Proof.
  intros Hnone Hj Hi Hlt. destruct j as [|j]; [lia|].
  rewrite cacheRun_app. simpl. rewrite claim_first by done. simpl.
  rewrite run_acquires by lia. simpl.
  by rewrite run_releases by (done || lia).
Qed.

End CacheFacts.

(** C6: from a cache without an entry for the shape, [n >= 1]
    acquisitions followed by [n] releases all succeed and leave the cache
    without an entry for it, the shape map being what it was; after every
    prefix of the sequence the count held for the shape is the number of
    acquisitions not yet released, and the entry exists exactly when that
    count is positive.  The count is an unsigned machine integer, so [n]
    stays below its modulus. *)
Theorem C6_refcount_symmetry
    (createFCLCollisionGeometry : ConstShapePtr -> CollisionGeometryPtr)
    (count_modulus : Z) (shape : ConstShapePtr) (n : nat) (c0 : Cache) :
  (1 <= n)%nat -> Z.of_nat n < count_modulus ->
  mShapeMap (detector c0) !! shapeAddr shape = None ->
  let ops := replicate n Acquire ++ replicate n Release in
  (exists c',
      cacheRun createFCLCollisionGeometry count_modulus shape ops c0 = Some c'
      /\ mShapeMap (detector c') !! shapeAddr shape = None
      /\ mShapeMap (detector c') = mShapeMap (detector c0))
  /\ (forall k, (k <= n + n)%nat ->
        exists ck,
          cacheRun createFCLCollisionGeometry count_modulus shape
                   (take k ops) c0 = Some ck
          /\ refCount ck shape
             = Z.of_nat (if (k <=? n)%nat then k else n + n - k)
          /\ (cached ck shape <-> 0 < refCount ck shape)).
Proof.
  intros Hn Hlt Hnone ops. split.
  - exists (heldCache createFCLCollisionGeometry c0 shape 0
                      (builderCalls c0 ++ [shape])).
    subst ops. rewrite run_acquire_release by (done || lia).
    rewrite Nat.sub_diag. by split.
  - intros k Hk. subst ops.
    destruct (Nat.leb_spec k n) as [Hle|Hgt].
    + rewrite take_app_le by (rewrite length_replicate; lia).
      rewrite take_replicate, Nat.min_l by lia.
      destruct k as [|k].
      * exists c0. split; [done|]. unfold refCount, cached.
        rewrite Hnone. split; [done|]. split; [by intros [? ?]|lia].
      * exists (heldCache createFCLCollisionGeometry c0 shape (S k)
                          (builderCalls c0 ++ [shape])).
        pose proof (run_acquire_release createFCLCollisionGeometry
                      count_modulus c0 shape (S k) 0) as Hrun.
        simpl replicate in Hrun at 2. rewrite app_nil_r, Nat.sub_0_r in Hrun.
        rewrite Hrun by (done || lia). split; [done|].
        destruct (heldCache_refCount createFCLCollisionGeometry c0 shape
                    (S k) (builderCalls c0 ++ [shape]) Hnone) as [-> Hc].
        split; [done|]. rewrite Hc. lia.
    + rewrite take_app_ge by (rewrite length_replicate; lia).
      rewrite length_replicate, take_replicate, Nat.min_l by lia.
      exists (heldCache createFCLCollisionGeometry c0 shape (n - (k - n))
                        (builderCalls c0 ++ [shape])).
      rewrite run_acquire_release by (done || lia). split; [done|].
      destruct (heldCache_refCount createFCLCollisionGeometry c0 shape
                  (n - (k - n)) (builderCalls c0 ++ [shape]) Hnone)
        as [-> Hc].
      split; [f_equal; lia|]. rewrite Hc. lia.
Qed.

Lemma C6_refcount_symmetry_witness :
  (1 <= 3)%nat /\ Z.of_nat 3 < 2 ^ 64
  /\ mShapeMap (detector Samples.emptyCache) !! shapeAddr Samples.box1 = None
  /\ exists c',
      cacheRun Samples.build (2 ^ 64) Samples.box1
               [Acquire; Acquire; Acquire; Release; Release; Release]
               Samples.emptyCache = Some c'
      /\ mShapeMap (detector c') !! shapeAddr Samples.box1 = None.
Proof.
  assert (1 <= 3)%nat as H1 by lia.
  assert (Z.of_nat 3 < 2 ^ 64) as H2 by reflexivity.
  assert (mShapeMap (detector Samples.emptyCache) !! shapeAddr Samples.box1
          = None) as H3 by reflexivity.
  destruct (C6_refcount_symmetry Samples.build (2 ^ 64) Samples.box1 3
              Samples.emptyCache H1 H2 H3) as [(c' & Hrun & Hgone & _) _].
  split; [exact H1|]. split; [exact H2|]. split; [exact H3|].
  exists c'. split; [exact Hrun | exact Hgone].
Defined.

(** C7: the shape map is keyed by the address of the shape instance.
    Acquiring a shape that has an entry hands back the geometry stored
    there and raises its count by one without running the builder;
    acquiring a shape that has none runs the builder once and stores its
    geometry with count one.  Another instance with the same parameters is
    a different key: its acquisition runs the builder again and leaves the
    first instance's entry as it was. *)
Theorem C7_claim_hit_and_miss
    (createFCLCollisionGeometry : ConstShapePtr -> CollisionGeometryPtr)
    (count_modulus : Z) (shape : ConstShapePtr) (c : Cache) :
  (forall fclCollGeom count,
      mShapeMap (detector c) !! shapeAddr shape = Some (fclCollGeom, count) ->
      0 < count -> count + 1 < count_modulus ->
      exists c',
        claimFCLCollisionGeometry createFCLCollisionGeometry count_modulus
                                  shape c = Some (fclCollGeom, c')
        /\ mShapeMap (detector c') =
           <[shapeAddr shape := (fclCollGeom, count + 1)]>
             (mShapeMap (detector c))
        /\ refCount c' shape = refCount c shape + 1
        /\ builderCalls c' = builderCalls c)
  /\ (mShapeMap (detector c) !! shapeAddr shape = None ->
      exists c',
        claimFCLCollisionGeometry createFCLCollisionGeometry count_modulus
                                  shape c
        = Some (createFCLCollisionGeometry shape, c')
        /\ mShapeMap (detector c') =
           <[shapeAddr shape := (createFCLCollisionGeometry shape, 1)]>
             (mShapeMap (detector c))
        /\ refCount c' shape = 1
        /\ builderCalls c' = builderCalls c ++ [shape])
  /\ (forall shape',
        shapeData shape' = shapeData shape ->
        shapeAddr shape' <> shapeAddr shape ->
        mShapeMap (detector c) !! shapeAddr shape' = None ->
        exists c',
          claimFCLCollisionGeometry createFCLCollisionGeometry count_modulus
                                    shape' c
          = Some (createFCLCollisionGeometry shape', c')
          /\ builderCalls c' = builderCalls c ++ [shape']
          /\ mShapeMap (detector c') !! shapeAddr shape' =
             Some (createFCLCollisionGeometry shape', 1)
          /\ mShapeMap (detector c') !! shapeAddr shape =
             mShapeMap (detector c) !! shapeAddr shape).
Proof.
  split; [|split].
  - intros fclCollGeom count Hsome Hpos Hlt.
    rewrite (claim_hit _ _ _ _ fclCollGeom count) by (done || lia).
    rewrite Z.mod_small by lia.
    eexists. split; [reflexivity|]. split; [done|]. split; [|done].
    unfold refCount. simpl. by rewrite lookup_insert_eq, Hsome.
  - intros Hnone. rewrite claim_miss by done.
    eexists. split; [reflexivity|]. split; [done|]. split; [|done].
    unfold refCount. simpl. by rewrite lookup_insert_eq.
  - intros shape' _ Hne Hnone. rewrite claim_miss by done.
    eexists. split; [reflexivity|]. split; [done|]. simpl.
    by rewrite lookup_insert_eq, lookup_insert_ne.
Qed.

Lemma C7_claim_hit_and_miss_witness :
  exists c1 c2 c3,
    claimFCLCollisionGeometry Samples.build (2 ^ 64) Samples.box1
                              Samples.emptyCache
    = Some (Samples.build Samples.box1, c1)
    /\ builderCalls c1 = [Samples.box1]
    /\ claimFCLCollisionGeometry Samples.build (2 ^ 64) Samples.box1 c1
       = Some (Samples.build Samples.box1, c2)
    /\ builderCalls c2 = [Samples.box1]
    /\ refCount c2 Samples.box1 = 2
    /\ claimFCLCollisionGeometry Samples.build (2 ^ 64) Samples.box2 c2
       = Some (Samples.build Samples.box2, c3)
    /\ builderCalls c3 = [Samples.box1; Samples.box2].
Proof.
  destruct (C7_claim_hit_and_miss Samples.build (2 ^ 64) Samples.box1
              Samples.emptyCache) as (_ & Hmiss & _).
  destruct (Hmiss eq_refl) as (c1 & Hc1 & Hmap1 & Hcount1 & Hcalls1).
  destruct (C7_claim_hit_and_miss Samples.build (2 ^ 64) Samples.box1 c1)
    as (Hhit & _ & _).
  destruct (Hhit (Samples.build Samples.box1) 1) as
    (c2 & Hc2 & Hmap2 & Hcount2 & Hcalls2).
  { rewrite Hmap1. apply lookup_insert_eq. }
  { reflexivity. }
  { reflexivity. }
  destruct (C7_claim_hit_and_miss Samples.build (2 ^ 64) Samples.box1 c2)
    as (_ & _ & Hother).
  destruct (Hother Samples.box2 eq_refl) as (c3 & Hc3 & Hcalls3 & _).
  { discriminate. }
  { rewrite Hmap2, Hmap1. reflexivity. }
  exists c1, c2, c3.
  split; [exact Hc1|]. split; [exact Hcalls1|].
  split; [exact Hc2|]. split; [rewrite Hcalls2; exact Hcalls1|].
  split; [rewrite Hcount2, Hcount1; reflexivity|].
  split; [exact Hc3|].
  rewrite Hcalls3, Hcalls2, Hcalls1. reflexivity.
Defined.

(** * Further properties *)

(** ** What [postProcess] emits *)

Lemma filter_sublist {A} (f : A -> bool) (l : list A) :
  List.filter f l `sublist_of` l.
Proof.
  induction l as [|a l IH]; simpl; [constructor|].
  destruct (f a); [by apply sublist_skip|by apply sublist_cons].
Qed.

Lemma filter_all_false {A} (f : A -> bool) (l : list A) :
  (forall a, In a l -> f a = false) -> List.filter f l = [].
Proof.
  induction l as [|a l IH]; intros Hf; simpl; [done|].
  rewrite (Hf a) by (by left). apply IH. intros a' Ha'. apply Hf. by right.
Qed.

Lemma filter_all_true {A} (f : A -> bool) (l : list A) :
  (forall a, In a l -> f a = true) -> List.filter f l = l.
Proof.
  induction l as [|a l IH]; intros Hf; simpl; [done|].
  rewrite (Hf a) by (by left). f_equal. apply IH.
  intros a' Ha'. apply Hf. by right.
Qed.

Lemma existsb_all_false {A} (f : A -> bool) (l : list A) :
  (forall a, In a l -> f a = false) -> existsb f l = false.
Proof.
  induction l as [|a l IH]; intros Hf; simpl; [done|].
  rewrite (Hf a) by (by left). apply IH. intros a' Ha'. apply Hf. by right.
Qed.

Lemma map_nth_range {A} (l : list A) (d : A) :
  map (fun i => nth i l d) (range 0 (List.length l)) = l.
Proof.
  unfold range. rewrite Nat.sub_0_r.
  induction l as [|a l IH]; simpl; [done|].
  f_equal. rewrite <- seq_shift, map_map. apply IH.
Qed.

(** The retained indices split into those below the last index and the last
    index itself, which is always there. *)
Lemma retained_last (fclResult : CollisionResult) :
  0 < numContacts fclResult < size_t_modulus ->
  retained fclResult =
  List.filter (fun i => negb (isMarked (markForDeletion fclResult) i))
              (range 0 (List.length (fclContacts fclResult) - 1))
  ++ [(List.length (fclContacts fclResult) - 1)%nat].
Proof.
  intros Hn.
  assert (0 < List.length (fclContacts fclResult))%nat as Hlen
    by (unfold numContacts in Hn; lia).
  unfold retained.
  replace (List.length (fclContacts fclResult))
    with (S (List.length (fclContacts fclResult) - 1)) at 1 by lia.
  rewrite range_snoc by lia. rewrite List.filter_app. simpl.
  by rewrite markForDeletion_last.
Qed.

(** X1: on a raw set that is not empty [postProcess] leaves the contacts
    the result already holds in place and appends the conversions of the
    retained raw contacts; these are picked in raw order, the last raw
    contact is always among them, so at least one and at most as many
    contacts as the raw set holds are appended. *)
Theorem postProcess_keeps_order_and_last
    (convertVector3 : Vec3.t -> Vec3.t) (fclResult : CollisionResult)
    (o1 o2 : FclCollisionObject) (userData1 userData2 : UserData)
    (result : Result) :
  getUserData o1 = Some userData1 ->
  getUserData o2 = Some userData2 ->
  fclContacts fclResult <> [] ->
  numContacts fclResult < size_t_modulus ->
  let n := List.length (fclContacts fclResult) in
  exists front,
    retained fclResult = front ++ [(n - 1)%nat]
    /\ retained fclResult `sublist_of` range 0 n
    /\ (1 <= List.length (retained fclResult) <= n)%nat
    /\ postProcess convertVector3 fclResult o1 o2 result =
       Some {| contacts :=
                 contacts result
                 ++ map (fun i => convertedContact convertVector3
                                    (getContact fclResult i)
                                    userData1 userData2) front
                 ++ [convertedContact convertVector3
                       (getContact fclResult (n - 1)) userData1 userData2] |}.
Proof.
  intros H1 H2 Hne Hsz n.
  assert (0 < numContacts fclResult < size_t_modulus) as Hn.
  { split; [|done]. unfold numContacts.
    destruct (fclContacts fclResult); [done|simpl; lia]. }
  eexists. split; [by apply retained_last|].
  assert (retained fclResult `sublist_of` range 0 n) as Hsub
    by apply filter_sublist.
  split; [done|]. split.
  - split.
    + rewrite retained_last by done. rewrite length_app. simpl. lia.
    + apply sublist_length in Hsub. unfold range in Hsub.
      rewrite length_seq in Hsub. lia.
  - rewrite postProcess_spec with (userData1 := userData1)
                                  (userData2 := userData2) by done.
    rewrite retained_last by done. by rewrite map_app.
Qed.

Lemma postProcess_keeps_order_and_last_witness :
  exists front,
    retained Samples.threeOnLine = front ++ [2%nat]
    /\ postProcess Samples.ident Samples.threeOnLine Samples.objA Samples.objB
                   Samples.emptyResult =
       Some {| contacts :=
                 map (fun i => convertedContact Samples.ident
                                 (getContact Samples.threeOnLine i)
                                 Samples.dataA Samples.dataB) front
                 ++ [convertedContact Samples.ident
                       (getContact Samples.threeOnLine 2)
                       Samples.dataA Samples.dataB] |}.
Proof.
  destruct (postProcess_keeps_order_and_last Samples.ident Samples.threeOnLine
              Samples.objA Samples.objB Samples.dataA Samples.dataB
              Samples.emptyResult eq_refl eq_refl)
    as (front & Hret & _ & _ & Hpost).
  - discriminate.
  - reflexivity.
  - exists front. split; [exact Hret | exact Hpost].
Defined.

(** X2: when every raw contact but the last has a later contact within the
    tolerance (a cluster of coincident points, say), the whole set
    collapses to its last contact. *)
Theorem postProcess_cluster_collapses
    (convertVector3 : Vec3.t -> Vec3.t) (fclResult : CollisionResult)
    (o1 o2 : FclCollisionObject) (userData1 userData2 : UserData)
    (result : Result) :
  getUserData o1 = Some userData1 ->
  getUserData o2 = Some userData2 ->
  fclContacts fclResult <> [] ->
  numContacts fclResult < size_t_modulus ->
  let n := List.length (fclContacts fclResult) in
  (forall i, (i + 1 < n)%nat ->
             exists j, (i < j < n)%nat
                       /\ repeated (getContact fclResult i)
                                   (getContact fclResult j) = true) ->
  retained fclResult = [(n - 1)%nat]
  /\ postProcess convertVector3 fclResult o1 o2 result =
     Some (push_back result
             (convertedContact convertVector3 (getContact fclResult (n - 1))
                               userData1 userData2)).
Proof.
  intros H1 H2 Hne Hsz n Hcluster.
  assert (0 < numContacts fclResult < size_t_modulus) as Hn.
  { split; [|done]. unfold numContacts.
    destruct (fclContacts fclResult); [done|simpl; lia]. }
  assert (retained fclResult = [(n - 1)%nat]) as Hret.
  { rewrite retained_last by done. rewrite filter_all_false; [done|].
    intros i Hi%In_range. fold n in Hi.
    destruct (Hcluster i) as (j & Hj & Hrep); [lia|].
    rewrite markForDeletion_isMarked by (done || lia).
    by rewrite (repeatedLater_intro fclResult i j). }
  split; [done|].
  rewrite postProcess_spec with (userData1 := userData1)
                                (userData2 := userData2) by done.
  by rewrite Hret.
Qed.

Lemma postProcess_cluster_collapses_witness :
  retained Samples.threeCoincident = [2%nat].
Proof.
  apply (postProcess_cluster_collapses Samples.ident Samples.threeCoincident
           Samples.objA Samples.objB Samples.dataA Samples.dataB
           Samples.emptyResult eq_refl eq_refl).
  - discriminate.
  - reflexivity.
  - intros i Hi. simpl in Hi. exists (S i). split; [simpl; lia|].
    destruct i as [|[|i]]; [vm_compute; reflexivity..|lia].
Defined.

(** X3: a raw set without a pair within the tolerance and without a
    colinear triple passes through whole: every raw contact is converted
    and appended, in raw order. *)
Theorem postProcess_clean_set_unchanged
    (convertVector3 : Vec3.t -> Vec3.t) (fclResult : CollisionResult)
    (o1 o2 : FclCollisionObject) (userData1 userData2 : UserData)
    (result : Result) :
  getUserData o1 = Some userData1 ->
  getUserData o2 = Some userData2 ->
  numContacts fclResult < size_t_modulus ->
  let n := List.length (fclContacts fclResult) in
  (forall i j, (i < j < n)%nat ->
               repeated (getContact fclResult i) (getContact fclResult j)
               = false) ->
  (forall i j k, (i < j < k)%nat -> (k < n)%nat ->
                 colinear (getContact fclResult i) (getContact fclResult j)
                          (getContact fclResult k) = false) ->
  postProcess convertVector3 fclResult o1 o2 result =
  Some {| contacts :=
            contacts result
            ++ map (fun fclContact =>
                      convertedContact convertVector3 fclContact
                                       userData1 userData2)
                   (fclContacts fclResult) |}.
Proof.
  intros H1 H2 Hsz n Hrep Hcol.
  assert (fclContacts fclResult = [] \/ fclContacts fclResult <> [])
    as [E|E] by (destruct (fclContacts fclResult); [by left|by right]).
  { rewrite postProcess_empty by done. rewrite E. simpl.
    rewrite app_nil_r. by destruct result. }
  assert (0 < numContacts fclResult < size_t_modulus) as Hn.
  { split; [|done]. unfold numContacts.
    destruct (fclContacts fclResult); [done|simpl; lia]. }
  rewrite postProcess_spec with (userData1 := userData1)
                                (userData2 := userData2) by done.
  assert (retained fclResult = range 0 n) as ->.
  { unfold retained. apply filter_all_true. intros i Hi%In_range.
    rewrite markForDeletion_isMarked by (done || lia).
    assert (repeatedLater fclResult i = false) as ->.
    { apply existsb_all_false. intros j Hj%In_range. apply Hrep. lia. }
    assert (colinearLater fclResult (repeatedMarks fclResult) i = false)
      as ->; [|done].
    apply existsb_all_false. intros j Hj%In_range.
    apply andb_false_intro2.
    apply existsb_all_false. intros k Hk%In_range.
    apply andb_false_intro2. apply Hcol; lia. }
  do 3 f_equal.
  transitivity
    (map (fun fclContact =>
            convertedContact convertVector3 fclContact userData1 userData2)
         (map (fun i => nth i (fclContacts fclResult)
                            (List.last (fclContacts fclResult) nullContact))
              (range 0 n))).
  - by rewrite map_map.
  - subst n. by rewrite map_nth_range.
Qed.

Lemma postProcess_clean_set_unchanged_witness :
  postProcess Samples.ident Samples.triangle Samples.objA Samples.objB
              Samples.emptyResult =
  Some {| contacts :=
            map (fun fclContact =>
                   convertedContact Samples.ident fclContact
                                    Samples.dataA Samples.dataB)
                (fclContacts Samples.triangle) |}.
Proof.
  apply (postProcess_clean_set_unchanged Samples.ident Samples.triangle
           Samples.objA Samples.objB Samples.dataA Samples.dataB
           Samples.emptyResult eq_refl eq_refl).
  - reflexivity.
  - intros i j Hij. simpl in Hij.
    assert ((i = 0 /\ j = 1) \/ (i = 0 /\ j = 2) \/ (i = 1 /\ j = 2))%nat
      as [[-> ->]|[[-> ->]|[-> ->]]] by lia; vm_compute; reflexivity.
  - intros i j k Hijk Hk. simpl in Hk.
    assert (i = 0 /\ j = 1 /\ k = 2)%nat as (-> & -> & ->) by lia.
    vm_compute. reflexivity.
Defined.

(** ** What [detect] puts into the result *)

Section ResultFacts.

Variable convertVector3 : Vec3.t -> Vec3.t.
Variable fcl_collide :
  FclCollisionObject -> FclCollisionObject -> CollisionRequest ->
  CollisionResult -> CollisionResult.

Lemma convertContact_inv (fclContact : FclContact)
    (o1 o2 : FclCollisionObject) (contact : Contact) :
  convertContact convertVector3 fclContact o1 o2 = Some contact ->
  contactOfPair o1 o2 contact.
Proof.
  unfold convertContact, contactOfPair. intros Hconv.
  destruct (getUserData o1) as [userData1|]; [|done].
  destruct (getUserData o2) as [userData2|]; [|done].
  simpl in Hconv. inversion Hconv; subst. by exists userData1, userData2.
Qed.

Lemma emitContacts_inv (fclResult : CollisionResult)
    (o1 o2 : FclCollisionObject) (marks : list bool) (idxs : list nat)
    (result result' : Result) :
  emitContacts convertVector3 fclResult o1 o2 marks idxs result = Some result' ->
  exists appended,
    contacts result' = contacts result ++ appended
    /\ Forall (contactOfPair o1 o2) appended.
Proof.
  revert result. induction idxs as [|i idxs IH]; intros result Hemit;
    simpl in Hemit.
  - inversion Hemit; subst. exists []. by rewrite app_nil_r.
  - destruct (isMarked marks i); [by apply IH|].
    destruct (convertContact _ _ _ _) as [contact|] eqn:Hconv; [|done].
    simpl in Hemit. destruct (IH _ Hemit) as (appended & Happ & Hall).
    exists (contact :: appended). split.
    + rewrite Happ. simpl. by rewrite <- app_assoc.
    + constructor; [by eapply convertContact_inv|done].
Qed.

Lemma postProcess_inv (fclResult : CollisionResult)
    (o1 o2 : FclCollisionObject) (result result' : Result) :
  postProcess convertVector3 fclResult o1 o2 result = Some result' ->
  exists appended,
    contacts result' = contacts result ++ appended
    /\ Forall (contactOfPair o1 o2) appended.
Proof.
  unfold postProcess. destruct (numContacts fclResult =? 0).
  - intros Hpost. inversion Hpost; subst. exists []. by rewrite app_nil_r.
  - apply emitContacts_inv.
Qed.

Lemma narrowPhase_inv (o1 o2 : FclCollisionObject) (result : Result)
    (collData collData' : FCLCollisionCallbackData) (b : bool) :
  narrowPhase convertVector3 fcl_collide o1 o2 result collData
  = Some (b, collData') ->
  exists result' appended,
    mResult collData' = Some result'
    /\ contacts result' = contacts result ++ appended
    /\ Forall (contactOfPair o1 o2) appended.
Proof.
  unfold narrowPhase. intros Hnp.
  destruct (postProcess _ _ _ _ _) as [result'|] eqn:Hpost; [|done].
  simpl in Hnp. inversion Hnp; subst. simpl.
  destruct (postProcess_inv _ _ _ _ _ Hpost) as (appended & Happ & Hall).
  by exists result', appended.
Qed.

Lemma callback_inv (o1 o2 : FclCollisionObject) (result : Result)
    (collData collData' : FCLCollisionCallbackData) (b : bool) :
  mResult collData = Some result ->
  collisionCallback convertVector3 fcl_collide o1 o2 collData
  = Some (b, collData') ->
  exists result' appended,
    mResult collData' = Some result'
    /\ contacts result' = contacts result ++ appended
    /\ Forall (contactOfPair o1 o2) appended.
Proof.
  intros Hres. unfold collisionCallback. rewrite Hres. simpl.
  destruct (mOption collData) as [opt|]; [|done]. simpl.
  assert (forall cd, Some (b, collData') = Some (b, cd) -> collData' = cd)
    as Hinj by (intros cd Heq; by inversion Heq).
  destruct (done collData).
  { intros Hcb. inversion Hcb; subst. exists result, [].
    by rewrite app_nil_r. }
  destruct (collisionFilter opt) as [needCollision|].
  - destruct (needCollision _ _); simpl.
    + apply narrowPhase_inv.
    + intros Hcb. inversion Hcb; subst. simpl. exists result, [].
      by rewrite app_nil_r.
  - apply narrowPhase_inv.
Qed.

Lemma broadPhaseCollide_inv
    (pairs : list (FclCollisionObject * FclCollisionObject))
    (result : Result) (collData collData' : FCLCollisionCallbackData) :
  mResult collData = Some result ->
  broadPhaseCollide convertVector3 fcl_collide pairs collData
  = Some collData' ->
  exists result' appended,
    mResult collData' = Some result'
    /\ contacts result' = contacts result ++ appended
    /\ Forall (fun contact =>
                 exists p, In p pairs /\ contactOfPair p.1 p.2 contact)
              appended.
Proof.
  revert result collData.
  induction pairs as [|[o1 o2] pairs IH]; intros result collData Hres Hrun;
    simpl in Hrun.
  - inversion Hrun; subst. exists result, []. by rewrite app_nil_r.
  - destruct (collisionCallback _ _ o1 o2 collData) as [[stop cd1]|] eqn:Hcb;
      [|done].
    simpl in Hrun.
    destruct (callback_inv _ _ _ _ _ _ Hres Hcb)
      as (result1 & appended1 & Hres1 & Happ1 & Hall1).
    assert (Forall (fun contact =>
                      exists p, In p ((o1, o2) :: pairs)
                                /\ contactOfPair p.1 p.2 contact) appended1)
      as Hall1'.
    { eapply Forall_impl; [exact Hall1|]. intros contact Hc.
      exists (o1, o2). split; [by left|done]. }
    destruct stop.
    + inversion Hrun; subst. by exists result1, appended1.
    + destruct (IH _ _ Hres1 Hrun)
        as (result' & appended & Hres' & Happ & Hall).
      exists result', (appended1 ++ appended).
      split; [done|]. split.
      * rewrite Happ, Happ1. by rewrite <- app_assoc.
      * apply Forall_app. split; [done|].
        eapply Forall_impl; [exact Hall|]. intros contact (p & Hp & Hc).
        exists p. split; [by right|done].
Qed.

(** With a narrow phase that reports no contact for any of the pairs, the
    enumeration visits every pair and leaves result and flag alone. *)
Lemma broadPhaseCollide_no_contact
    (pairs : list (FclCollisionObject * FclCollisionObject))
    (opt : Option) (result : Result) (collData : FCLCollisionCallbackData) :
  (forall p request raw,
      In p pairs -> fclContacts (fcl_collide p.1 p.2 request raw) = []) ->
  mOption collData = Some opt -> mResult collData = Some result ->
  done collData = false ->
  exists collData',
    broadPhaseCollide convertVector3 fcl_collide pairs collData
    = Some collData'
    /\ mResult collData' = Some result
    /\ done collData' = false
    /\ events collData' =
       events collData
       ++ flat_map (visitEvents (mFclCollisionDetector collData) opt) pairs.
Proof.
  revert collData.
  induction pairs as [|[o1 o2] pairs IH];
    intros collData Hnone Hopt Hres Hdone.
  - exists collData. simpl. by rewrite app_nil_r.
  - simpl. unfold collisionCallback at 1. rewrite Hres, Hopt. simpl.
    rewrite Hdone. unfold visitEvents at 1. simpl.
    assert (forall cd,
               mFclRequest cd = mFclRequest collData ->
               mOption cd = Some opt -> done cd = false ->
               mFclCollisionDetector cd = mFclCollisionDetector collData ->
               exists cd1,
                 narrowPhase convertVector3 fcl_collide o1 o2 result cd
                 = Some (false, cd1)
                 /\ mOption cd1 = Some opt /\ mResult cd1 = Some result
                 /\ done cd1 = false
                 /\ mFclCollisionDetector cd1 = mFclCollisionDetector collData
                 /\ events cd1 =
                    events cd ++ [EvNarrowPhase (fclAddr o1) (fclAddr o2)])
      as Hnarrow.
    { intros cd Hreq Hopt' Hdone' Hdet. unfold narrowPhase.
      pose proof (Hnone (o1, o2) (mFclRequest cd)
                    (CollisionResult_clear (mFclResult cd))
                    ltac:(by left)) as Hraw. simpl in Hraw.
      rewrite postProcess_empty by done. simpl.
      unfold isCollision, numContacts. rewrite Hraw. simpl.
      rewrite andb_false_r. simpl. rewrite Hdone'.
      eexists. split; [reflexivity|]. by simpl. }
    assert (forall p request raw,
               In p pairs -> fclContacts (fcl_collide p.1 p.2 request raw) = [])
      as Hnone' by (intros; apply Hnone; by right).
    destruct (collisionFilter opt) as [needCollision|] eqn:Hfilter.
    + destruct (needCollision _ _) eqn:Hneed; simpl.
      * destruct (Hnarrow (record (EvNeedCollision
                     (findCollisionObject (mFclCollisionDetector collData) o1)
                     (findCollisionObject (mFclCollisionDetector collData) o2))
                     collData))
          as (cd1 & -> & Hopt1 & Hres1 & Hdone1 & Hdet1 & Hev1); try done.
        simpl.
        destruct (IH cd1 Hnone' Hopt1 Hres1 Hdone1)
          as (collData' & Hrun & Hres' & Hdone' & Hev').
        exists collData'. split; [done|]. split; [done|]. split; [done|].
        rewrite Hev', Hev1, Hdet1. simpl. by rewrite <- !app_assoc.
      * destruct (IH (record (EvNeedCollision
                     (findCollisionObject (mFclCollisionDetector collData) o1)
                     (findCollisionObject (mFclCollisionDetector collData) o2))
                     collData) Hnone')
          as (collData' & Hrun & Hres' & Hdone' & Hev'); try done.
        exists collData'. split; [done|]. split; [done|]. split; [done|].
        rewrite Hev'. simpl. by rewrite <- !app_assoc.
    + destruct (Hnarrow collData)
        as (cd1 & -> & Hopt1 & Hres1 & Hdone1 & Hdet1 & Hev1); try done.
      simpl.
      destruct (IH cd1 Hnone' Hopt1 Hres1 Hdone1)
        as (collData' & Hrun & Hres' & Hdone' & Hev').
      exists collData'. split; [done|]. split; [done|]. split; [done|].
      rewrite Hev', Hev1, Hdet1. simpl. by rewrite <- !app_assoc.
Qed.

End ResultFacts.

(** X4: every contact in the result of either [detect] overload was
    produced for one of the enumerated candidate pairs, and its two object
    references are the ones stored in that pair's user data, first object
    first. *)
Theorem detect_contacts_from_candidates
    (convertVector3 : Vec3.t -> Vec3.t)
    (fcl_collide :
       FclCollisionObject -> FclCollisionObject -> CollisionRequest ->
       CollisionResult -> CollisionResult)
    (selfCandidates :
       CollisionGroup -> list (FclCollisionObject * FclCollisionObject))
    (crossCandidates :
       CollisionGroup -> CollisionGroup ->
       list (FclCollisionObject * FclCollisionObject))
    (this : FCLCollisionDetector) (opt : Option) (result : Result)
    (tr : list Event) :
  (forall group b result' tr',
      detect convertVector3 fcl_collide selfCandidates this group opt
             result tr = Some (b, result', tr') ->
      Forall (fun contact =>
                exists grp p,
                  group = Some grp /\ In p (selfCandidates grp)
                  /\ contactOfPair p.1 p.2 contact)
             (contacts result'))
  /\ (forall group1 group2 b result' tr',
        detect2 convertVector3 fcl_collide crossCandidates this group1 group2
                opt result tr = Some (b, result', tr') ->
        Forall (fun contact =>
                  exists grp1 grp2 p,
                    group1 = Some grp1 /\ group2 = Some grp2
                    /\ In p (crossCandidates grp1 grp2)
                    /\ contactOfPair p.1 p.2 contact)
               (contacts result')).
Proof.
  split.
  - intros group b result' tr'. unfold detect. intros Hdet.
    destruct group as [grp|]; [|by inversion Hdet; subst; constructor].
    destruct (sameDetectorType grp); simpl in Hdet;
      [|by inversion Hdet; subst; constructor].
    destruct (broadPhaseCollide _ _ _ _) as [collData'|] eqn:Hrun; [|done].
    simpl in Hdet.
    eapply (broadPhaseCollide_inv _ _ _ {| contacts := [] |}) in Hrun
      as (r & appended & Hr & Happ & Hall); [|reflexivity].
    rewrite Hr in Hdet. simpl in Hdet. inversion Hdet; subst.
    rewrite Happ. simpl.
    eapply Forall_impl; [exact Hall|]. intros contact (p & Hp & Hc).
    by exists grp, p.
  - intros group1 group2 b result' tr'. unfold detect2. intros Hdet.
    destruct group1 as [grp1|], group2 as [grp2|];
      try (by inversion Hdet; subst; constructor).
    destruct (sameDetectorType grp1); simpl in Hdet;
      [|by inversion Hdet; subst; constructor].
    destruct (sameDetectorType grp2); simpl in Hdet;
      [|by inversion Hdet; subst; constructor].
    destruct (broadPhaseCollide _ _ _ _) as [collData'|] eqn:Hrun; [|done].
    simpl in Hdet.
    eapply (broadPhaseCollide_inv _ _ _ {| contacts := [] |}) in Hrun
      as (r & appended & Hr & Happ & Hall); [|reflexivity].
    rewrite Hr in Hdet. simpl in Hdet. inversion Hdet; subst.
    rewrite Happ. simpl.
    eapply Forall_impl; [exact Hall|]. intros contact (p & Hp & Hc).
    by exists grp1, grp2, p.
Qed.

Lemma detect_contacts_from_candidates_witness :
  detect Samples.ident Samples.touching Samples.selfPairs Samples.det
         (Some Samples.group) Samples.optContacts Samples.emptyResult []
  = Some (true, Samples.twoContacts,
          [EvUpdate 1; EvBroadPhase 1; EvNarrowPhase 11 12;
           EvNarrowPhase 11 13])
  /\ Forall (fun contact =>
               exists grp p,
                 Some Samples.group = Some grp
                 /\ In p (Samples.selfPairs grp)
                 /\ contactOfPair p.1 p.2 contact)
            (contacts Samples.twoContacts).
Proof.
  assert (detect Samples.ident Samples.touching Samples.selfPairs Samples.det
            (Some Samples.group) Samples.optContacts Samples.emptyResult []
          = Some (true, Samples.twoContacts,
                  [EvUpdate 1; EvBroadPhase 1; EvNarrowPhase 11 12;
                   EvNarrowPhase 11 13])) as Hdet
    by (vm_compute; reflexivity).
  split; [exact Hdet|].
  exact (proj1 (detect_contacts_from_candidates Samples.ident
                  Samples.touching Samples.selfPairs Samples.crossPairs
                  Samples.det Samples.optContacts Samples.emptyResult [])
               (Some Samples.group) true Samples.twoContacts _ Hdet).
Defined.

(** X5: when the narrow phase reports no contact for any candidate pair,
    both [detect] overloads return false with an empty result, and the
    enumeration runs through every candidate pair: each is put to the
    filter, if there is one, and handed to the narrow phase unless the
    filter rejected it.  No user data is read on this path. *)
Theorem detect_no_contact
    (convertVector3 : Vec3.t -> Vec3.t)
    (fcl_collide :
       FclCollisionObject -> FclCollisionObject -> CollisionRequest ->
       CollisionResult -> CollisionResult)
    (selfCandidates :
       CollisionGroup -> list (FclCollisionObject * FclCollisionObject))
    (crossCandidates :
       CollisionGroup -> CollisionGroup ->
       list (FclCollisionObject * FclCollisionObject))
    (this : FCLCollisionDetector) (opt : Option) (result : Result)
    (tr : list Event) :
  (forall o1 o2 request raw, fclContacts (fcl_collide o1 o2 request raw) = []) ->
  (forall group,
      sameDetectorType group = true ->
      detect convertVector3 fcl_collide selfCandidates this (Some group) opt
             result tr
      = Some (false, {| contacts := [] |},
              tr ++ [EvUpdate (groupAddr group); EvBroadPhase (groupAddr group)]
                 ++ flat_map (visitEvents this opt) (selfCandidates group)))
  /\ (forall group1 group2,
        sameDetectorType group1 = true ->
        sameDetectorType group2 = true ->
        detect2 convertVector3 fcl_collide crossCandidates this (Some group1)
                (Some group2) opt result tr
        = Some (false, {| contacts := [] |},
                tr ++ [EvUpdate (groupAddr group1);
                       EvUpdate (groupAddr group2);
                       EvBroadPhase2 (groupAddr group1) (groupAddr group2)]
                   ++ flat_map (visitEvents this opt)
                               (crossCandidates group1 group2))).
Proof.
  intros Hnone. split.
  - intros group Htype. unfold detect. rewrite Htype. simpl.
    match goal with
    | |- context [broadPhaseCollide _ _ ?pairs ?cd] =>
        destruct (broadPhaseCollide_no_contact convertVector3 fcl_collide
                    pairs opt {| contacts := [] |} cd)
          as (collData' & -> & Hres' & _ & Hev); try done
    end.
    simpl. rewrite Hres'. simpl. rewrite Hev. simpl.
    unfold CollisionGroup_update. by rewrite <- !app_assoc.
  - intros group1 group2 Htype1 Htype2. unfold detect2.
    rewrite Htype1, Htype2. simpl.
    match goal with
    | |- context [broadPhaseCollide _ _ ?pairs ?cd] =>
        destruct (broadPhaseCollide_no_contact convertVector3 fcl_collide
                    pairs opt {| contacts := [] |} cd)
          as (collData' & -> & Hres' & _ & Hev); try done
    end.
    simpl. rewrite Hres'. simpl. rewrite Hev. simpl.
    unfold CollisionGroup_update. by rewrite <- !app_assoc.
Qed.

Lemma detect_no_contact_witness :
  detect Samples.ident Samples.apart Samples.selfPairs Samples.det
         (Some Samples.group) Samples.optContacts Samples.emptyResult []
  = Some (false, {| contacts := [] |},
          [EvUpdate 1; EvBroadPhase 1; EvNarrowPhase 11 12;
           EvNarrowPhase 11 13]).
Proof.
  exact (proj1 (detect_no_contact Samples.ident Samples.apart
                  Samples.selfPairs Samples.crossPairs Samples.det
                  Samples.optContacts Samples.emptyResult []
                  (fun _ _ _ _ => eq_refl))
               Samples.group eq_refl).
Defined.

(** ** Acquire, release and the life of a collision object *)

Lemma detector_eq (d1 d2 : FCLCollisionDetector) :
  mShapeMap d1 = mShapeMap d2 ->
  mFCLCollisionObjectMap d1 = mFCLCollisionObjectMap d2 ->
  d1 = d2.
Proof. destruct d1, d2. simpl. by intros -> ->. Qed.

Section LifetimeFacts.

Variable createFCLCollisionGeometry : ConstShapePtr -> CollisionGeometryPtr.
Variable count_modulus : Z.

Local Abbreviation claim :=
  (claimFCLCollisionGeometry createFCLCollisionGeometry count_modulus).
Local Abbreviation reclaim := (reclaimFCLCollisionGeometry count_modulus).

Lemma reclaim_None_iff (shape : ConstShapePtr) (c : Cache) :
  reclaim shape c = None <-> refCount c shape = 0.
Proof.
  unfold reclaimFCLCollisionGeometry, refCount.
  destruct (mShapeMap (detector c) !! shapeAddr shape) as [[g k]|]; [|done].
  destruct (Z.eqb_spec k 0) as [->|Hk]; [done|].
  split; [|done]. by destruct (_ =? 0).
Qed.

(** What a successful acquisition leaves behind, entry by entry. *)
Lemma claim_effect (shape : ConstShapePtr) (c c' : Cache)
    (fclCollGeom : CollisionGeometryPtr) :
  claim shape c = Some (fclCollGeom, c') ->
  mFCLCollisionObjectMap (detector c') = mFCLCollisionObjectMap (detector c)
  /\ (forall addr, addr <> shapeAddr shape ->
                   mShapeMap (detector c') !! addr
                   = mShapeMap (detector c) !! addr)
  /\ exists count',
      mShapeMap (detector c') !! shapeAddr shape = Some (fclCollGeom, count')
      /\ match mShapeMap (detector c) !! shapeAddr shape with
         | Some (g, count) =>
             g = fclCollGeom /\ count <> 0
             /\ count' = (count + 1) mod count_modulus
             /\ builderCalls c' = builderCalls c
         | None =>
             fclCollGeom = createFCLCollisionGeometry shape /\ count' = 1
             /\ builderCalls c' = builderCalls c ++ [shape]
         end.
Proof.
  unfold claimFCLCollisionGeometry.
  destruct (mShapeMap (detector c) !! shapeAddr shape) as [[g k]|] eqn:E.
  - destruct (Z.eqb_spec k 0) as [->|Hk]; [done|].
    intros Hclaim. inversion Hclaim; subst. simpl.
    split; [done|]. split.
    + intros addr Hne. by rewrite lookup_insert_ne.
    + eexists. rewrite lookup_insert_eq. by repeat split.
  - intros Hclaim. inversion Hclaim; subst. simpl.
    split; [done|]. split.
    + intros addr Hne. by rewrite lookup_insert_ne.
    + eexists. rewrite lookup_insert_eq. by repeat split.
Qed.

(** What a successful release leaves behind. *)
Lemma reclaim_effect (shape : ConstShapePtr) (c c' : Cache) :
  reclaim shape c = Some c' ->
  mFCLCollisionObjectMap (detector c') = mFCLCollisionObjectMap (detector c)
  /\ builderCalls c' = builderCalls c
  /\ (forall addr, addr <> shapeAddr shape ->
                   mShapeMap (detector c') !! addr
                   = mShapeMap (detector c) !! addr)
  /\ exists g count,
      mShapeMap (detector c) !! shapeAddr shape = Some (g, count)
      /\ count <> 0
      /\ mShapeMap (detector c') !! shapeAddr shape =
         if (count - 1) mod count_modulus =? 0 then None
         else Some (g, (count - 1) mod count_modulus).
Proof.
  unfold reclaimFCLCollisionGeometry.
  destruct (mShapeMap (detector c) !! shapeAddr shape) as [[g k]|] eqn:E;
    [|done].
  destruct (Z.eqb_spec k 0) as [->|Hk]; [done|].
  destruct ((k - 1) mod count_modulus =? 0) eqn:Ez;
    intros Hre; inversion Hre; subst; simpl.
  - split; [done|]. split; [done|]. split.
    + intros addr Hne. by rewrite lookup_delete_ne.
    + exists g, k. rewrite lookup_delete_eq, Ez. by repeat split.
  - split; [done|]. split; [done|]. split.
    + intros addr Hne. by rewrite lookup_insert_ne.
    + exists g, k. rewrite lookup_insert_eq, Ez. by repeat split.
Qed.

Lemma claim_succeeds (shape : ConstShapePtr) (c : Cache) :
  (forall g count,
      mShapeMap (detector c) !! shapeAddr shape = Some (g, count) ->
      count <> 0) ->
  exists fclCollGeom c', claim shape c = Some (fclCollGeom, c').
Proof.
  intros Hpos. unfold claimFCLCollisionGeometry.
  destruct (mShapeMap (detector c) !! shapeAddr shape) as [[g k]|] eqn:E;
    [|by eauto].
  destruct (Z.eqb_spec k 0) as [->|Hk]; [by destruct (Hpos g 0)|by eauto].
Qed.

(** A release right after an acquisition, on any cache that holds the
    detector the acquisition left, puts the shape map back. *)
Lemma claim_then_reclaim (shape : ConstShapePtr) (c c1 c2 : Cache)
    (fclCollGeom : CollisionGeometryPtr) :
  (forall g count,
      mShapeMap (detector c) !! shapeAddr shape = Some (g, count) ->
      0 < count /\ count + 1 < count_modulus) ->
  claim shape c = Some (fclCollGeom, c1) ->
  mShapeMap (detector c2) = mShapeMap (detector c1) ->
  exists c3,
    reclaim shape c2 = Some c3
    /\ mShapeMap (detector c3) = mShapeMap (detector c)
    /\ mFCLCollisionObjectMap (detector c3)
       = mFCLCollisionObjectMap (detector c2)
    /\ builderCalls c3 = builderCalls c2.
Proof.
  intros Hbound Hclaim Hmap.
  unfold claimFCLCollisionGeometry in Hclaim.
  unfold reclaimFCLCollisionGeometry. rewrite Hmap.
  destruct (mShapeMap (detector c) !! shapeAddr shape) as [[g k]|] eqn:E.
  - destruct (Hbound g k eq_refl) as [Hk Hk1].
    destruct (Z.eqb_spec k 0) as [->|_]; [lia|].
    inversion Hclaim; subst. simpl. rewrite lookup_insert_eq.
    rewrite (Z.mod_small (k + 1)) by lia.
    destruct (Z.eqb_spec (k + 1) 0) as [?|_]; [lia|].
    replace (k + 1 - 1) with k by lia. rewrite Z.mod_small by lia.
    destruct (Z.eqb_spec k 0) as [?|_]; [lia|].
    eexists. split; [reflexivity|]. simpl.
    rewrite insert_insert_eq. by rewrite insert_id.
  - inversion Hclaim; subst. simpl. rewrite lookup_insert_eq. simpl.
    simpl.
    eexists. split; [reflexivity|]. simpl.
    by rewrite delete_insert_id.
Qed.

End LifetimeFacts.

Section ObjectFacts.

Variable createFCLCollisionGeometry : ConstShapePtr -> CollisionGeometryPtr.
Variable count_modulus : Z.
Variable newFCLCollisionObject :
  FCLCollisionDetector -> ShapeFrame -> CollisionGeometryPtr ->
  FCLCollisionObject.

Local Abbreviation claim :=
  (claimFCLCollisionGeometry createFCLCollisionGeometry count_modulus).
Local Abbreviation reclaim := (reclaimFCLCollisionGeometry count_modulus).
Local Abbreviation create :=
  (createCollisionObject createFCLCollisionGeometry count_modulus
                         newFCLCollisionObject).
Local Abbreviation notify := (notifyDestroyingCollisionObject count_modulus).

Lemma create_effect (shapeFrame : ShapeFrame) (c c1 : Cache)
    (collObj : FCLCollisionObject) :
  create shapeFrame c = Some (collObj, c1) ->
  exists fclCollGeom cc,
    claim (frameShape shapeFrame) c = Some (fclCollGeom, cc)
    /\ collObj = newFCLCollisionObject (detector cc) shapeFrame fclCollGeom
    /\ c1 = setObjectMap
              (<[fclAddr (getFCLCollisionObject collObj) :=
                   collObjAddr collObj]>
                 (mFCLCollisionObjectMap (detector cc))) cc.
Proof.
  unfold createCollisionObject.
  destruct (claimFCLCollisionGeometry _ _ _ c) as [[g cc]|]; [|done].
  simpl. intros Hcreate. inversion Hcreate; subst. by exists g, cc.
Qed.

Lemma countsBelow_claim (bound : Z) (shape : ConstShapePtr) (c c' : Cache)
    (fclCollGeom : CollisionGeometryPtr) :
  countsBelow bound (detector c) -> 0 < bound < count_modulus ->
  claim shape c = Some (fclCollGeom, c') ->
  countsBelow (bound + 1) (detector c')
  /\ refCount c' shape = refCount c shape + 1.
Proof.
  intros Hinv Hb Hclaim.
  destruct (claim_effect _ _ _ _ _ _ Hclaim)
    as (_ & Hframe & count' & Hnew & Hold).
  unfold refCount. rewrite Hnew.
  destruct (mShapeMap (detector c) !! shapeAddr shape) as [[g k]|] eqn:E.
  - destruct Hold as (_ & _ & -> & _).
    destruct (Hinv _ _ _ E) as [Hk Hkb].
    rewrite Z.mod_small in * by lia. split; [|done].
    intros addr g' k' Hlook.
    destruct (decide (addr = shapeAddr shape)) as [->|Hne].
    + rewrite Hnew in Hlook. inversion Hlook; subst. lia.
    + rewrite Hframe in Hlook by done.
      destruct (Hinv _ _ _ Hlook). lia.
  - destruct Hold as (_ & -> & _). split; [|done].
    intros addr g' k' Hlook.
    destruct (decide (addr = shapeAddr shape)) as [->|Hne].
    + rewrite Hnew in Hlook. inversion Hlook; subst. lia.
    + rewrite Hframe in Hlook by done.
      destruct (Hinv _ _ _ Hlook). lia.
Qed.

Lemma countsBelow_reclaim (bound : Z) (shape : ConstShapePtr) (c c' : Cache) :
  countsBelow bound (detector c) -> bound <= count_modulus ->
  reclaim shape c = Some c' ->
  countsBelow bound (detector c')
  /\ refCount c' shape = refCount c shape - 1.
Proof.
  intros Hinv Hb Hre.
  destruct (reclaim_effect _ _ _ _ Hre)
    as (_ & _ & Hframe & g & k & Hold & Hk0 & Hnew).
  destruct (Hinv _ _ _ Hold) as [Hk Hkb].
  rewrite Z.mod_small in Hnew by lia.
  unfold refCount. rewrite Hold, Hnew. split.
  - intros addr g' k' Hlook.
    destruct (decide (addr = shapeAddr shape)) as [->|Hne].
    + rewrite Hnew in Hlook.
      destruct (Z.eqb_spec (k - 1) 0); [done|].
      inversion Hlook; subst. lia.
    + rewrite Hframe in Hlook by done. by eapply Hinv.
  - destruct (Z.eqb_spec (k - 1) 0); lia.
Qed.

(** Destroying the object a creation made, on any cache that holds the
    detector the creation left, puts both maps back. *)
Lemma destroy_after_create (shapeFrame : ShapeFrame) (c c1 c2 : Cache)
    (collObj : FCLCollisionObject) :
  (forall g count,
      mShapeMap (detector c) !! shapeAddr (frameShape shapeFrame)
      = Some (g, count) ->
      0 < count /\ count + 1 < count_modulus) ->
  create shapeFrame c = Some (collObj, c1) ->
  mFCLCollisionObjectMap (detector c)
    !! fclAddr (getFCLCollisionObject collObj) = None ->
  getShape collObj = frameShape shapeFrame ->
  detector c2 = detector c1 ->
  exists c3,
    notify (Some collObj) c2 = Some c3
    /\ detector c3 = detector c
    /\ builderCalls c3 = builderCalls c2.
Proof.
  intros Hbound Hcreate Hfresh Hshape Hdet.
  destruct (create_effect _ _ _ _ Hcreate) as (g & cc & Hclaim & _ & ->).
  destruct (claim_effect _ _ _ _ _ _ Hclaim) as (Hobj & _).
  destruct (claim_then_reclaim _ _ _ _ _ c2 _ Hbound Hclaim)
    as (c3 & Hre & Hmap3 & Hobj3 & Hcalls3).
  { by rewrite Hdet. }
  unfold notifyDestroyingCollisionObject. rewrite Hshape, Hre. simpl.
  eexists. split; [reflexivity|]. split; [|done].
  apply detector_eq; simpl; [done|].
  rewrite Hobj3, Hdet. simpl. rewrite Hobj.
  by rewrite delete_insert_id.
Qed.

End ObjectFacts.

(** X6: an acquisition followed at once by a release of the same shape
    puts the detector back exactly as it was, and in between the count
    held for the shape is one higher than before.  A count already held
    must be positive and not the largest the counter can hold. *)
Theorem acquire_release_roundtrip
    (createFCLCollisionGeometry : ConstShapePtr -> CollisionGeometryPtr)
    (count_modulus : Z) (shape : ConstShapePtr) (c : Cache) :
  (forall g count,
      mShapeMap (detector c) !! shapeAddr shape = Some (g, count) ->
      0 < count /\ count + 1 < count_modulus) ->
  exists fclCollGeom c1 c2,
    claimFCLCollisionGeometry createFCLCollisionGeometry count_modulus
                              shape c = Some (fclCollGeom, c1)
    /\ refCount c1 shape = refCount c shape + 1
    /\ reclaimFCLCollisionGeometry count_modulus shape c1 = Some c2
    /\ detector c2 = detector c.
Proof.
  intros Hbound.
  destruct (claim_succeeds createFCLCollisionGeometry count_modulus shape c)
    as (g & c1 & Hclaim).
  { intros g k Hlook. destruct (Hbound g k Hlook). lia. }
  destruct (claim_then_reclaim _ _ _ _ _ c1 _ Hbound Hclaim eq_refl)
    as (c2 & Hre & Hmap & Hobj & _).
  destruct (claim_effect _ _ _ _ _ _ Hclaim)
    as (Hobj1 & _ & count' & Hnew & Hold).
  exists g, c1, c2. split; [done|]. split.
  - unfold refCount. rewrite Hnew.
    destruct (mShapeMap (detector c) !! shapeAddr shape) as [[g0 k]|] eqn:E.
    + destruct Hold as (_ & _ & -> & _). destruct (Hbound g0 k eq_refl).
      by rewrite Z.mod_small by lia.
    + by destruct Hold as (_ & -> & _).
  - split; [done|]. apply detector_eq; [done|]. by rewrite Hobj.
Qed.

Lemma acquire_release_roundtrip_witness :
  exists fclCollGeom c1 c2,
    claimFCLCollisionGeometry Samples.build (2 ^ 64) Samples.box1
                              Samples.emptyCache = Some (fclCollGeom, c1)
    /\ refCount c1 Samples.box1 = 1
    /\ reclaimFCLCollisionGeometry (2 ^ 64) Samples.box1 c1 = Some c2
    /\ detector c2 = detector Samples.emptyCache.
Proof.
  destruct (acquire_release_roundtrip Samples.build (2 ^ 64) Samples.box1
              Samples.emptyCache) as (g & c1 & c2 & H1 & H2 & H3 & H4).
  - intros g count Hlook. discriminate Hlook.
  - exists g, c1, c2. split; [exact H1|]. split; [exact H2|].
    split; [exact H3 | exact H4].
Defined.

(** X7: a release fails exactly when no reference to the shape is
    outstanding, that is when the shape has no entry or its count is zero.
    Destroying an object releases the shape its frame shows at that moment,
    so it fails under the same condition; a null object is ignored. *)
Theorem release_without_reference_fails (count_modulus : Z) (c : Cache) :
  (forall shape,
      reclaimFCLCollisionGeometry count_modulus shape c = None
      <-> refCount c shape = 0)
  /\ (forall collObj,
        notifyDestroyingCollisionObject count_modulus (Some collObj) c = None
        <-> refCount c (getShape collObj) = 0)
  /\ notifyDestroyingCollisionObject count_modulus None c = Some c.
Proof.
  split; [intros shape; apply reclaim_None_iff|]. split; [|done].
  intros collObj. unfold notifyDestroyingCollisionObject.
  rewrite <- (reclaim_None_iff count_modulus).
  by destruct (reclaimFCLCollisionGeometry _ _ _).
Qed.

(** X8: while every count is positive and below a bound that the counter
    can hold, an acquisition always succeeds and a successful release
    leaves every count positive; each moves the count of its own shape by
    one and touches neither the entry of a shape at another address nor
    the object map. *)
Theorem cache_counts_stay_positive
    (createFCLCollisionGeometry : ConstShapePtr -> CollisionGeometryPtr)
    (count_modulus : Z) (bound : Z) (shape : ConstShapePtr) (c : Cache) :
  countsBelow bound (detector c) -> 0 < bound < count_modulus ->
  (exists fclCollGeom c',
      claimFCLCollisionGeometry createFCLCollisionGeometry count_modulus
                                shape c = Some (fclCollGeom, c')
      /\ countsBelow (bound + 1) (detector c')
      /\ refCount c' shape = refCount c shape + 1
      /\ mFCLCollisionObjectMap (detector c')
         = mFCLCollisionObjectMap (detector c)
      /\ forall addr, addr <> shapeAddr shape ->
                      mShapeMap (detector c') !! addr
                      = mShapeMap (detector c) !! addr)
  /\ (forall c',
        reclaimFCLCollisionGeometry count_modulus shape c = Some c' ->
        countsBelow bound (detector c')
        /\ refCount c' shape = refCount c shape - 1
        /\ mFCLCollisionObjectMap (detector c')
           = mFCLCollisionObjectMap (detector c)
        /\ forall addr, addr <> shapeAddr shape ->
                        mShapeMap (detector c') !! addr
                        = mShapeMap (detector c) !! addr).
Proof.
  intros Hinv Hb. split.
  - destruct (claim_succeeds createFCLCollisionGeometry count_modulus shape c)
      as (g & c' & Hclaim).
    { intros g k Hlook. destruct (Hinv _ _ _ Hlook). lia. }
    destruct (countsBelow_claim _ _ _ _ _ _ _ Hinv Hb Hclaim) as [Hinv' Hcnt].
    destruct (claim_effect _ _ _ _ _ _ Hclaim) as (Hobj & Hframe & _).
    by exists g, c'.
  - intros c' Hre.
    assert (bound <= count_modulus) as Hb' by lia.
    destruct (countsBelow_reclaim _ _ _ _ _ Hinv Hb' Hre) as [Hinv' Hcnt].
    destruct (reclaim_effect _ _ _ _ Hre) as (Hobj & _ & Hframe & _).
    done.
Qed.

Lemma Samples_emptyCache_counts : countsBelow 1 (detector Samples.emptyCache).
Proof. intros addr g k Hlook. discriminate Hlook. Defined.

Lemma cache_counts_stay_positive_witness :
  exists fclCollGeom c',
    claimFCLCollisionGeometry Samples.build (2 ^ 64) Samples.box1
                              Samples.emptyCache = Some (fclCollGeom, c')
    /\ countsBelow 2 (detector c').
Proof.
  destruct (cache_counts_stay_positive Samples.build (2 ^ 64) 1 Samples.box1
              Samples.emptyCache Samples_emptyCache_counts
              (conj eq_refl eq_refl))
    as [(g & c' & Hclaim & Hinv & _) _].
  exists g, c'. split; [exact Hclaim | exact Hinv].
Defined.

Section NestedFacts.

Variable createFCLCollisionGeometry : ConstShapePtr -> CollisionGeometryPtr.
Variable count_modulus : Z.
Variable newFCLCollisionObject :
  FCLCollisionDetector -> ShapeFrame -> CollisionGeometryPtr ->
  FCLCollisionObject.

Local Abbreviation create :=
  (createCollisionObject createFCLCollisionGeometry count_modulus
                         newFCLCollisionObject).
Local Abbreviation notify := (notifyDestroyingCollisionObject count_modulus).

Lemma create_succeeds (bound : Z) (shapeFrame : ShapeFrame) (c : Cache) :
  countsBelow bound (detector c) -> 0 < bound < count_modulus ->
  exists collObj c',
    create shapeFrame c = Some (collObj, c')
    /\ countsBelow (bound + 1) (detector c')
    /\ refCount c' (frameShape shapeFrame)
       = refCount c (frameShape shapeFrame) + 1.
Proof.
  intros Hinv Hb.
  destruct (claim_succeeds createFCLCollisionGeometry count_modulus
              (frameShape shapeFrame) c) as (g & cc & Hclaim).
  { intros g k Hlook. destruct (Hinv _ _ _ Hlook). lia. }
  destruct (countsBelow_claim _ _ _ _ _ _ _ Hinv Hb Hclaim) as [Hinv' Hcnt].
  unfold createCollisionObject. rewrite Hclaim. simpl.
  eexists _, _. split; [reflexivity|]. by split.
Qed.

Lemma countsBelow_bound (bound : Z) (shape : ConstShapePtr) (c : Cache) :
  countsBelow bound (detector c) -> bound < count_modulus ->
  forall g count,
    mShapeMap (detector c) !! shapeAddr shape = Some (g, count) ->
    0 < count /\ count + 1 < count_modulus.
Proof. intros Hinv Hb g k Hlook. destruct (Hinv _ _ _ Hlook). lia. Qed.

Hypothesis newObject_fresh :
  forall this shapeFrame fclCollGeom,
    mFCLCollisionObjectMap this
      !! fclAddr (getFCLCollisionObject
                    (newFCLCollisionObject this shapeFrame fclCollGeom))
    = None.
Hypothesis newObject_shape :
  forall this shapeFrame fclCollGeom,
    getShape (newFCLCollisionObject this shapeFrame fclCollGeom)
    = frameShape shapeFrame.

Lemma nestedLifetimes_restore (shapeFrames : list ShapeFrame) (bound : Z)
    (c : Cache) :
  countsBelow bound (detector c) -> 0 < bound ->
  bound + Z.of_nat (List.length shapeFrames) <= count_modulus ->
  exists c',
    nestedLifetimes createFCLCollisionGeometry count_modulus
                    newFCLCollisionObject shapeFrames c = Some c'
    /\ detector c' = detector c.
Proof using newObject_fresh newObject_shape.
  revert bound c.
  induction shapeFrames as [|shapeFrame shapeFrames IH];
    intros bound c Hinv Hpos Hb.
  - by exists c.
  - simpl in Hb.
    destruct (create_succeeds bound shapeFrame c Hinv ltac:(lia))
      as (collObj & c1 & Hcreate & Hinv1 & _).
    destruct (IH (bound + 1) c1 Hinv1 ltac:(lia) ltac:(lia))
      as (c2 & Hnested & Hdet2).
    destruct (destroy_after_create createFCLCollisionGeometry count_modulus
                newFCLCollisionObject shapeFrame c c1 c2 collObj)
      as (c3 & Hnotify & Hdet3 & _); try done.
    + apply (countsBelow_bound bound); [done|lia].
    + destruct (create_effect _ _ _ _ _ _ _ Hcreate)
        as (g & cc & Hclaim & -> & _).
      destruct (claim_effect _ _ _ _ _ _ Hclaim) as (<- & _).
      apply newObject_fresh.
    + destruct (create_effect _ _ _ _ _ _ _ Hcreate)
        as (g & cc & _ & -> & _).
      apply newObject_shape.
    + exists c3. simpl. rewrite Hcreate. simpl. rewrite Hnested. simpl.
      by split.
Qed.

End NestedFacts.

Lemma Samples_alloc_fresh this shapeFrame fclCollGeom :
  mFCLCollisionObjectMap this
    !! fclAddr (getFCLCollisionObject
                  (Samples.alloc this shapeFrame fclCollGeom)) = None.
Proof. simpl. apply not_elem_of_dom, is_fresh. Defined.

Lemma Samples_freshCache_counts : countsBelow 1 (detector Samples.freshCache).
Proof. intros addr g k Hlook. discriminate Hlook. Defined.

(** X9: creating a collision object acquires the geometry of the frame's
    shape and enters the new native object in the object map: looking the
    native object up gives the new object, lookups at other native
    addresses answer as before, and the shape's count is one higher. *)
Theorem createCollisionObject_registers
    (createFCLCollisionGeometry : ConstShapePtr -> CollisionGeometryPtr)
    (count_modulus : Z)
    (newFCLCollisionObject :
       FCLCollisionDetector -> ShapeFrame -> CollisionGeometryPtr ->
       FCLCollisionObject)
    (bound : Z) (shapeFrame : ShapeFrame) (c : Cache) :
  countsBelow bound (detector c) -> 0 < bound < count_modulus ->
  exists collObj c',
    createCollisionObject createFCLCollisionGeometry count_modulus
                          newFCLCollisionObject shapeFrame c
    = Some (collObj, c')
    /\ findCollisionObject (detector c') (getFCLCollisionObject collObj)
       = Some (collObjAddr collObj)
    /\ (forall o,
          fclAddr o <> fclAddr (getFCLCollisionObject collObj) ->
          findCollisionObject (detector c') o
          = findCollisionObject (detector c) o)
    /\ refCount c' (frameShape shapeFrame)
       = refCount c (frameShape shapeFrame) + 1
    /\ countsBelow (bound + 1) (detector c').
Proof.
  intros Hinv Hb.
  destruct (create_succeeds createFCLCollisionGeometry count_modulus
              newFCLCollisionObject bound shapeFrame c Hinv Hb)
    as (collObj & c' & Hcreate & Hinv' & Hcnt).
  exists collObj, c'. split; [done|].
  destruct (create_effect _ _ _ _ _ _ _ Hcreate)
    as (g & cc & Hclaim & _ & Hc').
  destruct (claim_effect _ _ _ _ _ _ Hclaim) as (Hobj & _).
  assert (mFCLCollisionObjectMap (detector c') =
          <[fclAddr (getFCLCollisionObject collObj) := collObjAddr collObj]>
            (mFCLCollisionObjectMap (detector c))) as Hmap
    by (rewrite Hc'; simpl; by rewrite Hobj).
  unfold findCollisionObject. rewrite Hmap.
  split; [by rewrite lookup_insert_eq|]. split; [|done].
  intros o Hne. by rewrite lookup_insert_ne.
Qed.

Lemma createCollisionObject_registers_witness :
  exists collObj c',
    createCollisionObject Samples.build (2 ^ 64) Samples.alloc Samples.frame1
                          Samples.freshCache = Some (collObj, c')
    /\ findCollisionObject (detector c') (getFCLCollisionObject collObj)
       = Some (collObjAddr collObj)
    /\ refCount c' Samples.box1 = 1.
Proof.
  destruct (createCollisionObject_registers Samples.build (2 ^ 64)
              Samples.alloc 1 Samples.frame1 Samples.freshCache
              Samples_freshCache_counts (conj eq_refl eq_refl))
    as (collObj & c' & Hcreate & Hfind & _ & Hcnt & _).
  exists collObj, c'. split; [exact Hcreate|]. split; [exact Hfind|].
  exact Hcnt.
Defined.

(** X10: destroying a collision object right after it was created puts
    both maps of the detector back as they were, provided the native
    object's address was not in the object map before and the frame still
    shows the shape the object was created for. *)
Theorem create_destroy_roundtrip
    (createFCLCollisionGeometry : ConstShapePtr -> CollisionGeometryPtr)
    (count_modulus : Z)
    (newFCLCollisionObject :
       FCLCollisionDetector -> ShapeFrame -> CollisionGeometryPtr ->
       FCLCollisionObject)
    (bound : Z) (shapeFrame : ShapeFrame) (c c1 : Cache)
    (collObj : FCLCollisionObject) :
  countsBelow bound (detector c) -> 0 < bound < count_modulus ->
  createCollisionObject createFCLCollisionGeometry count_modulus
                        newFCLCollisionObject shapeFrame c
  = Some (collObj, c1) ->
  mFCLCollisionObjectMap (detector c)
    !! fclAddr (getFCLCollisionObject collObj) = None ->
  getShape collObj = frameShape shapeFrame ->
  exists c2,
    notifyDestroyingCollisionObject count_modulus (Some collObj) c1 = Some c2
    /\ detector c2 = detector c.
Proof.
  intros Hinv Hb Hcreate Hfresh Hshape.
  destruct (destroy_after_create createFCLCollisionGeometry count_modulus
              newFCLCollisionObject shapeFrame c c1 c1 collObj)
    as (c2 & Hnotify & Hdet & _); try done.
  - apply (countsBelow_bound count_modulus bound); [done|lia].
  - by exists c2.
Qed.

Lemma create_destroy_roundtrip_witness :
  exists collObj c1 c2,
    createCollisionObject Samples.build (2 ^ 64) Samples.alloc Samples.frame1
                          Samples.freshCache = Some (collObj, c1)
    /\ notifyDestroyingCollisionObject (2 ^ 64) (Some collObj) c1 = Some c2
    /\ detector c2 = detector Samples.freshCache.
Proof.
  destruct (createCollisionObject Samples.build (2 ^ 64) Samples.alloc
              Samples.frame1 Samples.freshCache) as [[collObj c1]|] eqn:Hcreate.
  - destruct (create_destroy_roundtrip Samples.build (2 ^ 64) Samples.alloc
                1 Samples.frame1 Samples.freshCache c1 collObj
                Samples_freshCache_counts (conj eq_refl eq_refl) Hcreate)
      as (c2 & Hnotify & Hdet).
    + reflexivity.
    + unfold createCollisionObject in Hcreate. simpl in Hcreate.
      inversion Hcreate. reflexivity.
    + exists collObj, c1, c2. split; [reflexivity|].
      split; [exact Hnotify | exact Hdet].
  - discriminate Hcreate.
Defined.

(** X11: objects made one after another and destroyed in the reverse order
    leave the detector exactly as it was, so a detector that held nothing
    before passes the two assertions of its destructor afterwards.  Each
    new native object sits at an address the object map does not use, the
    frames keep their shapes, and the counts stay within the counter. *)
Theorem nested_lifetimes_leave_detector_clean
    (createFCLCollisionGeometry : ConstShapePtr -> CollisionGeometryPtr)
    (count_modulus : Z)
    (newFCLCollisionObject :
       FCLCollisionDetector -> ShapeFrame -> CollisionGeometryPtr ->
       FCLCollisionObject)
    (shapeFrames : list ShapeFrame) (bound : Z) (c : Cache) :
  (forall this shapeFrame fclCollGeom,
      mFCLCollisionObjectMap this
        !! fclAddr (getFCLCollisionObject
                      (newFCLCollisionObject this shapeFrame fclCollGeom))
      = None) ->
  (forall this shapeFrame fclCollGeom,
      getShape (newFCLCollisionObject this shapeFrame fclCollGeom)
      = frameShape shapeFrame) ->
  countsBelow bound (detector c) -> 0 < bound ->
  bound + Z.of_nat (List.length shapeFrames) <= count_modulus ->
  exists c',
    nestedLifetimes createFCLCollisionGeometry count_modulus
                    newFCLCollisionObject shapeFrames c = Some c'
    /\ detector c' = detector c
    /\ (destructorAsserts (detector c) = true ->
        destructorAsserts (detector c') = true).
Proof.
  intros Hfresh Hshape Hinv Hpos Hb.
  destruct (nestedLifetimes_restore createFCLCollisionGeometry count_modulus
              newFCLCollisionObject Hfresh Hshape shapeFrames bound c
              Hinv Hpos Hb) as (c' & Hrun & Hdet).
  exists c'. split; [done|]. split; [done|]. by rewrite Hdet.
Qed.

Lemma nested_lifetimes_leave_detector_clean_witness :
  exists c',
    nestedLifetimes Samples.build (2 ^ 64) Samples.alloc
                    [Samples.frame1; Samples.frame2; Samples.frame1]
                    Samples.freshCache = Some c'
    /\ destructorAsserts (detector c') = true.
Proof.
  destruct (nested_lifetimes_leave_detector_clean Samples.build (2 ^ 64)
              Samples.alloc [Samples.frame1; Samples.frame2; Samples.frame1]
              1 Samples.freshCache Samples_alloc_fresh
              (fun _ _ _ => eq_refl) Samples_freshCache_counts eq_refl)
    as (c' & Hrun & _ & Hasserts).
  - simpl. discriminate.
  - exists c'. split; [exact Hrun|]. apply Hasserts. reflexivity.
Defined.

(** ** Tessellated geometry *)

Lemma forEach_collect {A T} (f : A -> option (list T))
    (body : A -> list T -> option (list T)) (xs : list A) :
  (forall x m, body x m = (ts ← f x; Some (m ++ ts))) ->
  forall m, forEach xs body m = (tss ← mapM f xs; Some (m ++ concat tss)).
Proof.
  intros Hbody. induction xs as [|x xs IH]; intros m; simpl.
  - by rewrite app_nil_r.
  - rewrite Hbody. destruct (f x) as [ts|]; simpl; [|done].
    rewrite IH. destruct (mapM f xs) as [tss|]; simpl; [|done].
    by rewrite app_assoc.
Qed.

Lemma forEach_collect_one {A T} (f : A -> option T)
    (body : A -> list T -> option (list T)) (xs : list A) :
  (forall x m, body x m = (t ← f x; Some (m ++ [t]))) ->
  forall m, forEach xs body m = (ts ← mapM f xs; Some (m ++ ts)).
Proof.
  intros Hbody. induction xs as [|x xs IH]; intros m; simpl.
  - by rewrite app_nil_r.
  - rewrite Hbody. destruct (f x) as [t|]; simpl; [|done].
    rewrite IH. destruct (mapM f xs) as [ts|]; simpl; [|done].
    by rewrite <- app_assoc.
Qed.

Lemma closedSurface_cube : closedSurface cubeTriangleIndices = true.
Proof. vm_compute. reflexivity. Qed.

Section TessellationFacts.

Context {F : Float32}.

Lemma createCube_eq (x y z : f32) :
  createCube x y z
  = Some (map (indexTriangle (cubeCorner x y z)) cubeTriangleIndices).
Proof. reflexivity. Qed.

Lemma createEllipsoid_eq (x y z : f32) :
  createEllipsoid x y z
  = Some (map (indexTriangle (ellipsoidPoint x y z)) ellipsoidFaces).
Proof. vm_compute. reflexivity. Qed.

Lemma faceVertex_readable (mesh : aiMesh) (face : aiFace) :
  faceReadable mesh face = true ->
  exists v0 v1 v2,
    faceVertex mesh face 0 = Some v0 /\ faceVertex mesh face 1 = Some v1
    /\ faceVertex mesh face 2 = Some v2.
Proof.
  unfold faceReadable, faceVertex. simpl. intros H.
  repeat (apply andb_prop in H as [? H]).
  repeat match goal with
  | H : match ?o with Some _ => _ | None => _ end = true |- _ =>
      destruct o eqn:?; [apply Nat.ltb_lt in H|discriminate H]
  end.
  repeat match goal with
  | H : (?i < List.length _)%nat |- _ =>
      apply lookup_lt_is_Some_2 in H as [? ?]
  end.
  simpl. eauto 10.
Qed.

Lemma faceVertex_unreadable (mesh : aiMesh) (face : aiFace) :
  faceReadable mesh face = false ->
  faceVertex mesh face 0 = None \/ faceVertex mesh face 1 = None
  \/ faceVertex mesh face 2 = None.
Proof.
  unfold faceReadable, faceVertex. simpl. intros H.
  repeat (apply andb_false_iff in H as [H|H]); try discriminate H.
  all: match type of H with
       | match ?o with Some _ => _ | None => _ end = false =>
           destruct o as [index|] eqn:Hk; simpl;
           [apply Nat.ltb_ge in H; apply lookup_ge_None_2 in H|]
       end; auto.
Qed.

Lemma plainTriangle_readable (mesh : aiMesh) (face : aiFace) :
  is_Some (plainTriangle mesh face) <-> faceReadable mesh face = true.
Proof.
  split.
  - intros [t Ht]. destruct (faceReadable mesh face) eqn:Hr; [done|].
    apply faceVertex_unreadable in Hr. unfold plainTriangle in Ht.
    destruct Hr as [Hr|[Hr|Hr]]; rewrite Hr in Ht; simpl in Ht.
    + discriminate.
    + destruct (faceVertex mesh face 0); discriminate.
    + destruct (faceVertex mesh face 0); [|discriminate].
      simpl in Ht. destruct (faceVertex mesh face 1); discriminate.
  - intros Hr. apply faceVertex_readable in Hr as (v0 & v1 & v2 & H0 & H1 & H2).
    unfold plainTriangle. rewrite H0, H1, H2. simpl. eauto.
Qed.

Lemma scaledTriangle_readable (x y z : f32) (mesh : aiMesh) (face : aiFace) :
  is_Some (scaledTriangle x y z mesh face) <-> faceReadable mesh face = true.
Proof.
  split.
  - intros [t Ht]. destruct (faceReadable mesh face) eqn:Hr; [done|].
    apply faceVertex_unreadable in Hr. unfold scaledTriangle in Ht.
    destruct Hr as [Hr|[Hr|Hr]]; rewrite Hr in Ht; simpl in Ht.
    + discriminate.
    + destruct (faceVertex mesh face 0); discriminate.
    + destruct (faceVertex mesh face 0); [|discriminate].
      simpl in Ht. destruct (faceVertex mesh face 1); discriminate.
  - intros Hr. apply faceVertex_readable in Hr as (v0 & v1 & v2 & H0 & H1 & H2).
    unfold scaledTriangle. rewrite H0, H1, H2. simpl. eauto.
Qed.

Lemma createSoftMesh_mapM (mesh : aiMesh) :
  createSoftMesh (Some mesh) = mapM (plainTriangle mesh) (mFaces mesh).
Proof.
  unfold createSoftMesh. simpl.
  rewrite (forEach_collect_one (plainTriangle mesh)) by done.
  by destruct (mapM _ _).
Qed.

Lemma createMesh_mapM (x y z : f32) (scene : aiScene) :
  createMesh x y z (Some scene)
  = (fun tss => concat tss) <$> mapM (fun mesh => mapM (scaledTriangle x y z mesh) (mFaces mesh))
                    (mMeshes scene).
Proof.
  unfold createMesh. simpl.
  rewrite (forEach_collect
             (fun mesh => mapM (scaledTriangle x y z mesh) (mFaces mesh))).
  - by destruct (mapM _ _).
  - intros mesh m.
    by rewrite (forEach_collect_one (scaledTriangle x y z mesh)).
Qed.

Lemma mapM_forallb {A B} (f : A -> option B) (p : A -> bool) (xs : list A) :
  (forall x, is_Some (f x) <-> p x = true) ->
  match mapM f xs with
  | Some ys => forallb p xs = true /\ List.length ys = List.length xs
  | None => forallb p xs = false
  end.
Proof.
  intros Hp. destruct (mapM f xs) as [ys|] eqn:Hm.
  - split; [|by apply length_mapM in Hm].
    apply forallb_forall. intros x Hx. apply Hp.
    assert (is_Some (mapM f xs)) as Hs by eauto.
    apply mapM_is_Some in Hs. rewrite List.Forall_forall in Hs. by apply Hs.
  - destruct (forallb p xs) eqn:Hall; [|done].
    assert (is_Some (mapM f xs)) as [? Hs]; [|congruence].
    apply mapM_is_Some, List.Forall_forall. intros x Hx. apply Hp.
    rewrite forallb_forall in Hall. by apply Hall.
Qed.

End TessellationFacts.

(** *** Loops that append *)

Lemma forEach_grows {A T} (P : A -> Prop) (k : nat)
    (body : A -> list T -> option (list T)) (xs : list A) :
  (forall x m, P x ->
     exists added, body x m = Some (m ++ added) /\ List.length added = k) ->
  Forall P xs ->
  forall m, exists added,
    forEach xs body m = Some (m ++ added)
    /\ List.length added = (List.length xs * k)%nat.
Proof.
  intros Hbody Hxs. induction Hxs as [|x xs Hx _ IH]; intros m; simpl.
  - exists []. by rewrite app_nil_r.
  - destruct (Hbody x m Hx) as (added & -> & Hk). simpl.
    destruct (IH (m ++ added)) as (added' & -> & Hk').
    exists (added ++ added'). rewrite app_assoc. split; [done|].
    rewrite length_app. lia.
Qed.

Lemma range_bounds (lo hi i : nat) :
  In i (range lo hi) -> (lo <= i < hi)%nat.
Proof. unfold range. rewrite in_seq. lia. Qed.

Lemma Forall_range (lo hi : nat) :
  Forall (fun i => lo <= i < hi)%nat (range lo hi).
Proof. apply List.Forall_forall. intros i. apply range_bounds. Qed.

Lemma length_range (lo hi : nat) : List.length (range lo hi) = (hi - lo)%nat.
Proof. unfold range. apply length_seq. Qed.

(** *** The caches of [createCylinder] *)

Lemma writeArray_written {A} (array array' : list (option A)) (i : nat)
    (x : A) :
  writeArray array i x = Some array' ->
  List.length array' = List.length array
  /\ forall j, j = i \/ is_Some (readArray array j) ->
               is_Some (readArray array' j).
Proof.
  unfold writeArray. case_decide as Hi; [|done]. intros [= <-].
  split; [apply length_insert|]. intros j Hj. unfold readArray.
  destruct (decide (i = j)) as [->|Hne].
  - rewrite list_lookup_insert_eq by done. simpl. eauto.
  - rewrite list_lookup_insert_ne by done. by destruct Hj as [->|Hj].
Qed.

Lemma writeArray_in_range {A} (array : list (option A)) (i : nat) (x : A) :
  (i < List.length array)%nat -> is_Some (writeArray array i x).
Proof. intros Hi. unfold writeArray. rewrite decide_True by done. eauto. Qed.

Section CylinderFacts.

Context {F : Float32}.

Lemma fillCaches_written (_slices : Z) (sinCache cosCache : list (option f32)) :
  (Z.to_nat _slices <= List.length sinCache)%nat ->
  (Z.to_nat _slices <= List.length cosCache)%nat ->
  exists sinCache' cosCache',
    fillCaches _slices (sinCache, cosCache) = Some (sinCache', cosCache')
    /\ List.length sinCache' = List.length sinCache
    /\ List.length cosCache' = List.length cosCache
    /\ forall j, (j < Z.to_nat _slices)%nat ->
                 is_Some (readArray sinCache' j)
                 /\ is_Some (readArray cosCache' j).
Proof.
  unfold fillCaches. intros Hsin Hcos.
  pose proof (Forall_range 0 (Z.to_nat _slices)) as Hxs.
  assert (forall j, (j < Z.to_nat _slices)%nat ->
                    In j (range 0 (Z.to_nat _slices))
                    \/ (is_Some (readArray sinCache j)
                        /\ is_Some (readArray cosCache j))) as Hin.
  { intros j Hj. left. unfold range. apply in_seq. lia. }
  revert Hxs Hin. generalize (range 0 (Z.to_nat _slices)) as xs.
  intros xs. revert sinCache cosCache Hsin Hcos.
  induction xs as [|i xs IH]; intros sinCache cosCache Hsin Hcos Hxs Hin.
  - simpl. exists sinCache, cosCache. repeat split; try done.
    all: by destruct (Hin j) as [[]|[? ?]].
  - apply Forall_cons in Hxs as [Hi Hxs]. simpl.
    match goal with
    | |- context [writeArray sinCache i ?x] =>
        destruct (writeArray_in_range sinCache i x) as [sinCache1 Hw1]; [lia|]
    end.
    match goal with
    | |- context [writeArray cosCache i ?x] =>
        destruct (writeArray_in_range cosCache i x) as [cosCache1 Hw2]; [lia|]
    end.
    rewrite Hw1. simpl. rewrite Hw2. simpl.
    apply writeArray_written in Hw1 as [Hlen1 Hread1].
    apply writeArray_written in Hw2 as [Hlen2 Hread2].
    destruct (IH sinCache1 cosCache1) as (s' & c' & Hrun & Hs' & Hc' & Hall);
      [lia|lia|done| |].
    + intros j Hj. destruct (Hin j Hj) as [[->|Hj']|[Hs Hc]]; auto.
    + exists s', c'. split; [exact Hrun|].
      repeat split; try congruence; by apply Hall.
Qed.

Lemma rimPoint_written (sinCache cosCache : list (option f32))
    (radius z : f32) (i : nat) :
  is_Some (readArray sinCache i) -> is_Some (readArray cosCache i) ->
  is_Some (rimPoint sinCache cosCache radius z i).
Proof. intros [s Hs] [c Hc]. unfold rimPoint. rewrite Hs, Hc. simpl. eauto. Qed.

Lemma capTriangles_grows (sinCache cosCache : list (option f32))
    (radiusLow zLow : f32) (_slices : Z) (model : list Triangle) :
  1 <= _slices ->
  (forall i, (i <= Z.to_nat _slices)%nat ->
             is_Some (readArray sinCache i)
             /\ is_Some (readArray cosCache i)) ->
  exists added,
    capTriangles sinCache cosCache radiusLow zLow _slices model
    = Some (model ++ added)
    /\ Z.of_nat (List.length added) = _slices - 1.
Proof.
  intros Hslices Hwritten. unfold capTriangles.
  destruct (rimPoint_written sinCache cosCache radiusLow zLow 0)
    as [p1 ->]; [apply Hwritten; lia..|]. simpl.
  edestruct (forEach_grows (T := Triangle)
               (fun i => 1 <= i < Z.to_nat _slices)%nat 1)
    as (added & -> & Hlen); [|apply Forall_range|].
  - intros i m Hi.
    destruct (rimPoint_written sinCache cosCache radiusLow zLow i)
      as [p2 ->]; [apply Hwritten; lia..|].
    destruct (rimPoint_written sinCache cosCache radiusLow zLow (i + 1))
      as [p3 ->]; [apply Hwritten; lia..|].
    simpl. eauto.
  - exists added. split; [done|]. rewrite Hlen, length_range. lia.
Qed.

Lemma bodyTriangles_grows (sinCache cosCache : list (option f32))
    (_baseRadius _height : float) (zBase deltaRadius : f32)
    (_slices _stacks : Z) (model : list Triangle) :
  0 <= _slices -> 0 <= _stacks ->
  (forall i, (i <= Z.to_nat _slices)%nat ->
             is_Some (readArray sinCache i)
             /\ is_Some (readArray cosCache i)) ->
  exists added,
    bodyTriangles sinCache cosCache _baseRadius _height zBase deltaRadius
                  _slices _stacks model
    = Some (model ++ added)
    /\ Z.of_nat (List.length added) = 2 * _slices * _stacks.
Proof.
  intros Hslices Hstacks Hwritten. unfold bodyTriangles.
  edestruct (forEach_grows (T := Triangle)
               (fun i => 0 <= i < Z.to_nat _slices)%nat
               (List.length (range 0 (Z.to_nat _stacks)) * 2))
    as (added & -> & Hlen); [|apply Forall_range|].
  - intros i m Hi.
    apply (forEach_grows (fun _ => True)); [|by apply List.Forall_forall].
    intros j m' _.
    repeat match goal with
    | |- context [rimPoint ?s ?c ?r ?z ?k] =>
        destruct (rimPoint_written s c r z k) as [? ->];
        [apply Hwritten; lia..|]
    end.
    simpl. eauto.
  - exists added. split; [done|]. rewrite Hlen, !length_range. nia.
Qed.

End CylinderFacts.

Section BuilderFacts.

Context {F : Float32}.

Lemma createCylinder_guard (_baseRadius _topRadius _height : float)
    (_slices _stacks : Z) :
  createCylinder _baseRadius _topRadius _height _slices _stacks
  = if cylinderRejected _baseRadius _topRadius _height
                        (clampedSlices _slices) _stacks
    then Some None
    else createCylinder _baseRadius _topRadius _height _slices _stacks.
Proof.
  destruct (cylinderRejected _ _ _ _ _) eqn:Hguard; [|done].
  unfold createCylinder. cbv zeta.
  change (if CACHE_SIZE <=? _slices then CACHE_SIZE - 1 else _slices)
    with (clampedSlices _slices).
  unfold cylinderRejected in Hguard. by rewrite Hguard.
Qed.

Lemma createCylinder_rejected (_baseRadius _topRadius _height : float)
    (_slices _stacks : Z) :
  cylinderRejected _baseRadius _topRadius _height
                   (clampedSlices _slices) _stacks = true ->
  createCylinder _baseRadius _topRadius _height _slices _stacks = Some None.
Proof. intros Hguard. by rewrite createCylinder_guard, Hguard. Qed.

Lemma createCylinder_accepted (_baseRadius _topRadius _height : float)
    (_slices _stacks : Z) :
  cylinderRejected _baseRadius _topRadius _height
                   (clampedSlices _slices) _stacks = false ->
  exists model,
    createCylinder _baseRadius _topRadius _height _slices _stacks
    = Some (Some model)
    /\ Z.of_nat (List.length model)
       = 2 * (clampedSlices _slices - 1)
         + 2 * clampedSlices _slices * _stacks.
Proof.
  intros Hguard. unfold createCylinder. cbv zeta.
  change (if CACHE_SIZE <=? _slices then CACHE_SIZE - 1 else _slices)
    with (clampedSlices _slices).
  set (s := clampedSlices _slices) in *.
  change ((s <? 2) || (_stacks <? 1) || (_baseRadius <? 0)%float
          || (_topRadius <? 0)%float || (_height <? 0)%float)
    with (cylinderRejected _baseRadius _topRadius _height s _stacks).
  rewrite Hguard.
  assert (2 <= s <= 239 /\ 1 <= _stacks) as (Hs & Hstacks).
  { unfold cylinderRejected in Hguard.
    repeat (apply orb_false_elim in Hguard as [Hguard ?]).
    subst s. unfold clampedSlices, CACHE_SIZE in *.
    destruct (240 <=? _slices) eqn:Hclamp; lia. }
  destruct (fillCaches_written s (replicate (Z.to_nat CACHE_SIZE) None)
                               (replicate (Z.to_nat CACHE_SIZE) None))
    as (sinCache & cosCache & -> & Hlen1 & Hlen2 & Hfilled);
    [rewrite length_replicate; unfold CACHE_SIZE; lia..|].
  rewrite length_replicate in Hlen1, Hlen2. simpl.
  destruct (Hfilled 0%nat) as [[s0 Hs0] [c0 Hc0]]; [lia|].
  rewrite Hs0. simpl.
  destruct (writeArray_in_range sinCache (Z.to_nat s) s0) as [sinCache' Hw1];
    [unfold CACHE_SIZE in *; lia|].
  rewrite Hw1. simpl. rewrite Hc0. simpl.
  destruct (writeArray_in_range cosCache (Z.to_nat s) c0) as [cosCache' Hw2];
    [unfold CACHE_SIZE in *; lia|].
  rewrite Hw2. simpl.
  apply writeArray_written in Hw1 as [_ Hread1].
  apply writeArray_written in Hw2 as [_ Hread2].
  assert (forall i, (i <= Z.to_nat s)%nat ->
                    is_Some (readArray sinCache' i)
                    /\ is_Some (readArray cosCache' i)) as Hwritten.
  { intros i Hi. destruct (decide (i = Z.to_nat s)) as [->|Hne].
    - split; [apply Hread1|apply Hread2]; auto.
    - destruct (Hfilled i) as [? ?]; [lia|].
      split; [apply Hread1|apply Hread2]; auto. }
  match goal with
  | |- context [capTriangles sinCache' cosCache' ?r ?z s []] =>
      destruct (capTriangles_grows sinCache' cosCache' r z s [])
        as (base & -> & Hbase); [lia|done|]
  end.
  simpl.
  match goal with
  | |- context [bodyTriangles sinCache' cosCache' ?b ?h ?z ?d s _stacks base] =>
      destruct (bodyTriangles_grows sinCache' cosCache' b h z d s _stacks base)
        as (body & -> & Hbody); [lia|lia|done|]
  end.
  simpl.
  match goal with
  | |- context [capTriangles sinCache' cosCache' ?r ?z s (base ++ body)] =>
      destruct (capTriangles_grows sinCache' cosCache' r z s (base ++ body))
        as (top & -> & Htop); [lia|done|]
  end.
  simpl. eexists. split; [reflexivity|]. rewrite !length_app. lia.
Qed.

(** The mesh [createFCLCollisionGeometry] asks for: 16 slices, 16 stacks
    and one radius. *)
Lemma createCylinder_16_16 (radius height : float) :
  match createCylinder radius radius height 16 16 with
  | Some (Some model) =>
      List.length model = 542%nat
      /\ ((radius <? 0) || (height <? 0))%float = false
  | Some None => ((radius <? 0) || (height <? 0))%float = true
  | None => False
  end.
Proof.
  destruct (cylinderRejected radius radius height (clampedSlices 16) 16)
    eqn:Hguard.
  - rewrite createCylinder_rejected by done.
    unfold cylinderRejected, clampedSlices in Hguard. simpl in Hguard.
    revert Hguard. by destruct (radius <? 0)%float, (height <? 0)%float.
  - destruct (createCylinder_accepted _ _ _ _ _ Hguard) as (model & -> & Hlen).
    unfold cylinderRejected, clampedSlices in Hguard, Hlen.
    simpl in Hguard, Hlen. split; [lia|]. revert Hguard.
    by destruct (radius <? 0)%float, (height <? 0)%float.
Qed.

Lemma mapM_map_ext {A A' B} (f : A' -> option B) (f' : A -> option B)
    (g : A -> A') (xs : list A) :
  (forall x, f (g x) = f' x) -> mapM f (map g xs) = mapM f' xs.
Proof.
  intros Hfg. induction xs as [|x xs IH]; simpl; [done|].
  by rewrite Hfg, IH.
Qed.

Lemma faceVertex_firstTriangles (mesh : aiMesh) (face : aiFace) (k : nat) :
  (k < 3)%nat ->
  faceVertex (firstTriangles mesh) {| mIndices := take 3 (mIndices face) |} k
  = faceVertex mesh face k.
Proof.
  intros Hk. unfold faceVertex. simpl. by rewrite lookup_take_lt.
Qed.

Lemma createSoftMesh_cases (mesh : aiMesh) :
  match createSoftMesh (Some mesh) with
  | Some model =>
      forallb (faceReadable mesh) (mFaces mesh) = true
      /\ List.length model = List.length (mFaces mesh)
  | None => forallb (faceReadable mesh) (mFaces mesh) = false
  end.
Proof.
  rewrite createSoftMesh_mapM.
  apply mapM_forallb, plainTriangle_readable.
Qed.

Lemma createMesh_cases (x y z : f32) (scene : aiScene) :
  match createMesh x y z (Some scene) with
  | Some model =>
      sceneReadable scene = true /\ List.length model = faceCount scene
  | None => sceneReadable scene = false
  end.
Proof.
  rewrite createMesh_mapM. unfold sceneReadable, faceCount.
  induction (mMeshes scene) as [|mesh meshes IH]; simpl; [done|].
  pose proof (mapM_forallb (scaledTriangle x y z mesh) (faceReadable mesh)
                (mFaces mesh) (scaledTriangle_readable x y z mesh)) as Hmesh.
  destruct (mapM (scaledTriangle x y z mesh) (mFaces mesh)) as [ts|];
    simpl; [|by rewrite Hmesh].
  destruct Hmesh as [-> Hlen]. simpl.
  destruct (mapM _ meshes) as [tss|]; simpl in *; [|done].
  destruct IH as [-> IH]. split; [done|]. rewrite !length_app. congruence.
Qed.

End BuilderFacts.

(** X12: for every size [createCube] reads only entries
    of its vertex array that were assigned before, and returns twelve
    triangles: two for each of the six faces, on the corners of the box
    with the given sizes.  Each triangle lies in a plane orthogonal to a
    coordinate axis, and the triangles form a closed surface on which
    neighbouring triangles agree on the orientation. *)
Theorem createCube_closed_box (F : Float32) (_sizeX _sizeY _sizeZ : f32) :
  let model :=
    map (indexTriangle (cubeCorner _sizeX _sizeY _sizeZ)) cubeTriangleIndices in
  createCube _sizeX _sizeY _sizeZ = Some model
  /\ List.length model = 12%nat
  /\ Forall inAxisPlane model
  /\ closedSurface cubeTriangleIndices = true.
Proof.
  split; [apply createCube_eq|]. split; [reflexivity|].
  split; [|apply closedSurface_cube].
  cbv [map cubeTriangleIndices cubeFaces flat_map app].
  repeat (apply List.Forall_cons || apply List.Forall_nil).
  all: first [ left; split; reflexivity
             | right; left; split; reflexivity
             | right; right; split; reflexivity ].
Qed.

(** X13: for every size [createEllipsoid] returns
    112 triangles whose corners are rows of its table scaled by the three
    sizes.  The faces use exactly the rows 1 to 58 (row 0, the origin, is
    never a corner), every such row lies on the sphere of radius one half
    up to the digits of the table, and the faces form a closed surface on
    which neighbouring triangles agree on the orientation. *)
Theorem createEllipsoid_closed_mesh (F : Float32) (_sizeX _sizeY _sizeZ : f32) :
  createEllipsoid _sizeX _sizeY _sizeZ
  = Some (map (indexTriangle (ellipsoidPoint _sizeX _sizeY _sizeZ))
              ellipsoidFaces)
  /\ List.length ellipsoidFaces = 112%nat
  /\ usesExactly 1 58 ellipsoidFaces = true
  /\ forallb onHalfSphere (drop 1 ellipsoidVertexTable) = true
  /\ closedSurface ellipsoidFaces = true.
Proof.
  split; [apply createEllipsoid_eq|].
  repeat split; vm_compute; reflexivity.
Qed.

(** X14: [createCylinder] first clamps the slice count to 239.  It
    returns the null pointer exactly when the clamped slice count
    is below 2, the stack count is below 1, or a radius or the height
    compares below zero.  Otherwise every access to the two caches stays
    within their 240 entries and reads an entry written before, and the
    mesh has [slices - 1] triangles in each cap and [2 * slices * stacks]
    in the body. *)
Theorem createCylinder_guard_and_size (F : Float32)
    (_baseRadius _topRadius _height : float) (_slices _stacks : Z) :
  match createCylinder _baseRadius _topRadius _height _slices _stacks with
  | Some (Some model) =>
      cylinderRejected _baseRadius _topRadius _height
                       (clampedSlices _slices) _stacks = false
      /\ Z.of_nat (List.length model)
         = 2 * (clampedSlices _slices - 1)
           + 2 * clampedSlices _slices * _stacks
  | Some None =>
      cylinderRejected _baseRadius _topRadius _height
                       (clampedSlices _slices) _stacks = true
  | None => False
  end.
Proof.
  destruct (cylinderRejected _baseRadius _topRadius _height
                             (clampedSlices _slices) _stacks) eqn:Hguard.
  - by rewrite createCylinder_rejected.
  - destruct (createCylinder_accepted _ _ _ _ _ Hguard) as (model & -> & Hlen).
    by split.
Qed.

(** X15: in [createSoftMesh] a null mesh fails the [assert].  On a mesh
    it succeeds exactly when the first three indices of every face
    exist and point into the vertex array, and then returns one triangle
    for each face.  Only the first three indices of a face are read: the
    mesh with every face cut down to them gives the same result. *)
Theorem createSoftMesh_faces (F : Float32) (mesh : aiMesh) :
  createSoftMesh (F := F) None = None
  /\ match createSoftMesh (Some mesh) with
     | Some model =>
         forallb (faceReadable mesh) (mFaces mesh) = true
         /\ List.length model = List.length (mFaces mesh)
     | None => forallb (faceReadable mesh) (mFaces mesh) = false
     end
  /\ createSoftMesh (Some (firstTriangles mesh)) = createSoftMesh (Some mesh).
Proof.
  split; [reflexivity|]. split; [apply createSoftMesh_cases|].
  rewrite !createSoftMesh_mapM. simpl. apply mapM_map_ext. intros face.
  unfold plainTriangle. by rewrite !faceVertex_firstTriangles by lia.
Qed.

(** X16: in [createMesh] a null scene fails the [assert].  On a scene
    it succeeds exactly when every face of every mesh is readable,
    and then returns one triangle for each face of each mesh, whatever the
    scale.  Indices of a face after the third are not read. *)
Theorem createMesh_faces (F : Float32) (_scaleX _scaleY _scaleZ : f32)
    (scene : aiScene) :
  createMesh _scaleX _scaleY _scaleZ None = None
  /\ match createMesh _scaleX _scaleY _scaleZ (Some scene) with
     | Some model =>
         sceneReadable scene = true /\ List.length model = faceCount scene
     | None => sceneReadable scene = false
     end
  /\ createMesh _scaleX _scaleY _scaleZ
                (Some {| mMeshes := map firstTriangles (mMeshes scene) |})
     = createMesh _scaleX _scaleY _scaleZ (Some scene).
Proof.
  split; [reflexivity|]. split; [apply createMesh_cases|].
  rewrite !createMesh_mapM. simpl. f_equal. apply mapM_map_ext. intros mesh.
  simpl. apply mapM_map_ext. intros face.
  unfold scaledTriangle. by rewrite !faceVertex_firstTriangles by lia.
Qed.

(** X17: the geometry [createFCLCollisionGeometry] hands back is the
    null pointer in two cases only: the shape is of an unsupported kind, or the
    cylinder is built as a mesh (FCL up to 0.4) and its radius or its
    height compares below zero. *)
Theorem createFCLCollisionGeometry_null (F : Float32)
    (FCL_AT_MOST_0_3 FCL_AT_MOST_0_4 : bool)
    (convertVector3 : Vec3.t -> Vec3.t) (isSphere : Vec3.t -> bool)
    (getMesh : positive -> option aiScene)
    (getAssimpMesh : positive -> option aiMesh) (shape : ConstShapePtr) :
  Builder.createFCLCollisionGeometry FCL_AT_MOST_0_3 FCL_AT_MOST_0_4
    convertVector3 isSphere getMesh getAssimpMesh shape = Some None
  <-> match shapeData shape with
      | UnsupportedShape => True
      | CylinderShape radius height =>
          FCL_AT_MOST_0_4 = true
          /\ ((radius <? 0) || (height <? 0))%float = true
      | _ => False
      end.
Proof.
  destruct shape as [addr [size|size|radius height|normal offset|scale mesh
                          |mesh|]];
    unfold Builder.createFCLCollisionGeometry; simpl.
  - destruct FCL_AT_MOST_0_3; [try rewrite createCube_eq|]; simpl;
      (split; [discriminate|done]).
  - destruct (isSphere size), FCL_AT_MOST_0_3;
      try rewrite createEllipsoid_eq; simpl; (split; [discriminate|done]).
  - destruct FCL_AT_MOST_0_4; [|split; [discriminate|by intros [? _]]].
    pose proof (createCylinder_16_16 radius height) as Hcases.
    destruct (createCylinder radius radius height 16 16) as [[model|]|];
      simpl; [| |done].
    + destruct Hcases as [_ Hguard]. split; [discriminate|].
      intros [_ Hneg]. congruence.
    + split; [intros _|done]. by split.
  - destruct FCL_AT_MOST_0_3; [try rewrite createCube_eq|]; simpl;
      (split; [discriminate|done]).
  - destruct (createMesh _ _ _ _); simpl; (split; [discriminate|done]).
  - destruct (createSoftMesh _); simpl; (split; [discriminate|done]).
  - done.
Qed.

Lemma createFCLCollisionGeometry_null_witness :
  Builder.createFCLCollisionGeometry (F := Samples.doubles) true true
    (fun v => v) (fun _ => false) (fun _ => None) (fun _ => None)
    {| shapeAddr := 1; shapeData := CylinderShape (-1) 2 |} = Some None.
Proof.
  apply (proj2 (createFCLCollisionGeometry_null Samples.doubles true true
                  (fun v => v) (fun _ => false) (fun _ => None)
                  (fun _ => None)
                  {| shapeAddr := 1; shapeData := CylinderShape (-1) 2 |})).
  simpl. split; reflexivity.
Defined.

(** X18: [createFCLCollisionGeometry] on a box, an ellipsoid, a cylinder, a
    plane or an unsupported shape always returns; for a mesh and for a soft
    mesh it returns exactly when the mesh is not null and every face is
    readable. *)
Theorem createFCLCollisionGeometry_defined (F : Float32)
    (FCL_AT_MOST_0_3 FCL_AT_MOST_0_4 : bool)
    (convertVector3 : Vec3.t -> Vec3.t) (isSphere : Vec3.t -> bool)
    (getMesh : positive -> option aiScene)
    (getAssimpMesh : positive -> option aiMesh) (shape : ConstShapePtr) :
  is_Some (Builder.createFCLCollisionGeometry FCL_AT_MOST_0_3 FCL_AT_MOST_0_4
             convertVector3 isSphere getMesh getAssimpMesh shape)
  <-> match shapeData shape with
      | MeshShape _ mesh =>
          exists scene, getMesh mesh = Some scene
                        /\ sceneReadable scene = true
      | SoftMeshShape mesh =>
          exists softMesh,
            getAssimpMesh mesh = Some softMesh
            /\ forallb (faceReadable softMesh) (mFaces softMesh) = true
      | _ => True
      end.
Proof.
  destruct shape as [addr [size|size|radius height|normal offset|scale mesh
                          |mesh|]];
    unfold Builder.createFCLCollisionGeometry; simpl.
  - destruct FCL_AT_MOST_0_3; [try rewrite createCube_eq|]; simpl;
      (split; [done|eauto]).
  - destruct (isSphere size), FCL_AT_MOST_0_3;
      try rewrite createEllipsoid_eq; simpl; (split; [done|eauto]).
  - destruct FCL_AT_MOST_0_4; [|split; [done|eauto]].
    pose proof (createCylinder_16_16 radius height) as Hcases.
    destruct (createCylinder radius radius height 16 16) as [model|];
      simpl; [split; [done|eauto]|done].
  - destruct FCL_AT_MOST_0_3; [try rewrite createCube_eq|]; simpl;
      (split; [done|eauto]).
  - destruct (getMesh mesh) as [scene|];
      [|split; [by intros [? [=]]|by intros (? & [=] & _)]].
    pose proof (createMesh_cases (f32_of_double (Vec3.x scale))
                  (f32_of_double (Vec3.y scale))
                  (f32_of_double (Vec3.z scale)) scene) as Hcases.
    destruct (createMesh _ _ _ (Some scene)) as [model|]; simpl.
    + destruct Hcases as [Hread _]. split; [eauto|eauto].
    + split; [by intros [? [=]]|]. intros (? & [= <-] & Hread). congruence.
  - destruct (getAssimpMesh mesh) as [softMesh|];
      [|split; [by intros [? [=]]|by intros (? & [=] & _)]].
    pose proof (createSoftMesh_cases softMesh) as Hcases.
    destruct (createSoftMesh (Some softMesh)) as [model|]; simpl.
    + destruct Hcases as [Hread _]. split; [eauto|eauto].
    + split; [by intros [? [=]]|]. intros (? & [= <-] & Hread). congruence.
  - split; [done|eauto].
Qed.

Lemma createFCLCollisionGeometry_defined_witness :
  is_Some (Builder.createFCLCollisionGeometry (F := Samples.doubles) true true
             (fun v => v) (fun _ => false) (fun _ => None)
             (fun _ => Some Samples.quad)
             {| shapeAddr := 1; shapeData := SoftMeshShape 7 |}).
Proof.
  apply (proj2 (createFCLCollisionGeometry_defined Samples.doubles true true
                  (fun v => v) (fun _ => false) (fun _ => None)
                  (fun _ => Some Samples.quad)
                  {| shapeAddr := 1; shapeData := SoftMeshShape 7 |})).
  simpl. exists Samples.quad. split; reflexivity.
Defined.

(** X19: in [createFCLCollisionGeometry] against FCL up to 0.3 a plane
    is built without reading its normal or its offset: its geometry is the
    twelve-triangle mesh of the box of size (1000, 0, 1000). *)
Theorem plane_built_as_thin_box (F : Float32) (FCL_AT_MOST_0_4 : bool)
    (convertVector3 : Vec3.t -> Vec3.t) (isSphere : Vec3.t -> bool)
    (getMesh : positive -> option aiScene)
    (getAssimpMesh : positive -> option aiMesh)
    (plane box : positive) (planeNormal : Vec3.t) (offset : float) :
  Builder.createFCLCollisionGeometry true FCL_AT_MOST_0_4 convertVector3
    isSphere getMesh getAssimpMesh
    {| shapeAddr := plane; shapeData := PlaneShape planeNormal offset |}
  = Builder.createFCLCollisionGeometry true FCL_AT_MOST_0_4 convertVector3
      isSphere getMesh getAssimpMesh
      {| shapeAddr := box; shapeData := BoxShape (Vec3.mk 1000 0 1000) |}
  /\ exists model,
       Builder.createFCLCollisionGeometry true FCL_AT_MOST_0_4 convertVector3
         isSphere getMesh getAssimpMesh
         {| shapeAddr := plane; shapeData := PlaneShape planeNormal offset |}
       = Some (Some (BVHModel model))
       /\ List.length model = 12%nat.
Proof.
  split; [reflexivity|].
  unfold Builder.createFCLCollisionGeometry. simpl.
  try rewrite createCube_eq. simpl. eexists. split; reflexivity.
Qed.

(** X20: in [createFCLCollisionGeometry] against FCL up to 0.4 a cylinder is
    built as a mesh of 16 slices and 16 stacks with the radius of the shape
    at both ends: 542 triangles, or the null pointer when the radius or the
    height compares below zero. *)
Theorem cylinder_built_as_mesh (F : Float32) (FCL_AT_MOST_0_3 : bool)
    (convertVector3 : Vec3.t -> Vec3.t) (isSphere : Vec3.t -> bool)
    (getMesh : positive -> option aiScene)
    (getAssimpMesh : positive -> option aiMesh)
    (cylinder : positive) (radius height : float) :
  match Builder.createFCLCollisionGeometry FCL_AT_MOST_0_3 true convertVector3
          isSphere getMesh getAssimpMesh
          {| shapeAddr := cylinder; shapeData := CylinderShape radius height |}
  with
  | Some (Some (BVHModel model)) =>
      List.length model = 542%nat
      /\ ((radius <? 0) || (height <? 0))%float = false
  | Some (Some _) => False
  | Some None => ((radius <? 0) || (height <? 0))%float = true
  | None => False
  end.
Proof.
  unfold Builder.createFCLCollisionGeometry. simpl.
  pose proof (createCylinder_16_16 radius height) as Hcases.
  by destruct (createCylinder radius radius height 16 16) as [[model|]|].
Qed.

(** ** Aspects with embedded state *)

Lemma Samples_counters_track : tracksComposite Samples.counters.
Proof. split; intros; reflexivity. Qed.

Lemma Samples_counters_agree : accessorsAgree Samples.counters.
Proof.
  intros aspect aspect' state heap Hbase [composite Hcomposite].
  simpl in *. unfold EmbeddedAspect.DefaultSetEmbeddedState,
    EmbeddedAspect.DefaultGetEmbeddedState.
  rewrite <- Hbase, Hcomposite. simpl. eexists. split; [reflexivity|].
  by rewrite lookup_insert_eq.
Qed.

(** X21: on an [EmbeddedStateAspect] without a composite, [setState] keeps
    the state in the aspect and [getState] reads it back; neither calls an
    accessor of the embedded state, and the memory outside the aspect stays
    as it is. *)
Theorem detached_setState_getState (T : EmbeddedAspect.Template)
    (state : EmbeddedAspect.StateT)
    (this : EmbeddedAspect.EmbeddedStateAspect EmbeddedAspect.BaseT
                                               EmbeddedAspect.StateT)
    (heap : EmbeddedAspect.Heap) :
  EmbeddedAspect.getComposite (EmbeddedAspect.base this) = None ->
  exists this',
    EmbeddedAspect.setState state this heap = Some (this', heap)
    /\ EmbeddedAspect.base this' = EmbeddedAspect.base this
    /\ EmbeddedAspect.getState this' heap = Some (state, this').
Proof.
  intros Hdetached. unfold EmbeddedAspect.setState. rewrite Hdetached.
  eexists. split; [reflexivity|]. split; [reflexivity|].
  unfold EmbeddedAspect.getState. simpl. by rewrite Hdetached.
Qed.

Lemma detached_setState_getState_witness :
  exists this',
    EmbeddedAspect.setState (T := Samples.counters) 5
      (EmbeddedAspect.new (T := Samples.counters) None 3) ∅ = Some (this', ∅)
    /\ EmbeddedAspect.base this' = EmbeddedAspect.base (EmbeddedAspect.new (T := Samples.counters) None 3)
    /\ EmbeddedAspect.getState (T := Samples.counters) this' ∅ = Some (5, this').
Proof.
  apply (detached_setState_getState Samples.counters 5
           (EmbeddedAspect.new (T := Samples.counters) None 3) ∅).
  reflexivity.
Defined.

(** X22: reading the state of an [EmbeddedStateAspect] a second time
    gives the same state and changes nothing more; the first read of an
    aspect without a composite may have filled its empty temporary state
    with [State()]. *)
Theorem getState_twice (T : EmbeddedAspect.Template)
    (this this' : EmbeddedAspect.EmbeddedStateAspect EmbeddedAspect.BaseT
                                                     EmbeddedAspect.StateT)
    (heap : EmbeddedAspect.Heap) (state : EmbeddedAspect.StateT) :
  EmbeddedAspect.getState this heap = Some (state, this') ->
  EmbeddedAspect.getState this' heap = Some (state, this')
  /\ (EmbeddedAspect.getComposite (EmbeddedAspect.base this) = None ->
      EmbeddedAspect.mTemporaryState this' = Some state
      /\ (EmbeddedAspect.mTemporaryState this = None ->
          state = EmbeddedAspect.State_new)).
Proof.
  unfold EmbeddedAspect.getState.
  destruct (EmbeddedAspect.getComposite (EmbeddedAspect.base this))
    as [composite|] eqn:Hcomposite.
  - destruct (EmbeddedAspect.GetEmbeddedState this heap) as [state'|] eqn:Hget;
      [|discriminate].
    simpl. intros [= <- <-]. rewrite Hcomposite, Hget. by split.
  - intros [= <- <-]. simpl. rewrite Hcomposite. split; [done|].
    intros _. split; [done|]. by intros ->.
Qed.

Lemma getState_twice_witness :
  EmbeddedAspect.getState (T := Samples.counters) Samples.zeroed ∅
  = Some (0, Samples.zeroed)
  /\ (EmbeddedAspect.getComposite (Template := Samples.counters)
        (EmbeddedAspect.base Samples.unset) = None ->
      EmbeddedAspect.mTemporaryState Samples.zeroed = Some 0
      /\ (EmbeddedAspect.mTemporaryState Samples.unset = None ->
          0 = EmbeddedAspect.State_new (Template := Samples.counters))).
Proof.
  exact (getState_twice Samples.counters Samples.unset Samples.zeroed ∅ 0
           eq_refl).
Defined.

(** X23: when the base class keeps track of the composite and the accessors
    agree, the state an aspect was constructed with is embedded in the
    composite it is given to: [setComposite] returns, leaves the temporary
    state null, and [getState] then reads the state of the constructor. *)
Theorem constructed_state_reaches_composite (T : EmbeddedAspect.Template)
    (comp : option EmbeddedAspect.Composite) (state : EmbeddedAspect.StateT)
    (newComposite : EmbeddedAspect.Composite) (heap : EmbeddedAspect.Heap) :
  tracksComposite T -> accessorsAgree T ->
  exists this' heap',
    EmbeddedAspect.setComposite (Some newComposite)
      (EmbeddedAspect.new comp state) heap = Some (this', heap')
    /\ EmbeddedAspect.mTemporaryState this' = None
    /\ EmbeddedAspect.getState this' heap' = Some (state, this').
Proof.
  intros [Hset _] Hagree. unfold EmbeddedAspect.setComposite. simpl.
  match goal with
  | |- context [EmbeddedAspect.SetEmbeddedState ?a state heap] =>
      destruct (Hagree a
                  {| EmbeddedAspect.base := EmbeddedAspect.base a;
                     EmbeddedAspect.mTemporaryState := None |} state heap)
        as (heap' & Hwrite & Hread);
      [reflexivity|simpl; rewrite Hset; eauto|]
  end.
  simpl in *. rewrite Hwrite. simpl. eexists _, heap'.
  split; [reflexivity|]. split; [reflexivity|].
  unfold EmbeddedAspect.getState. simpl. by rewrite Hset, Hread.
Qed.

Lemma constructed_state_reaches_composite_witness :
  exists this' heap',
    EmbeddedAspect.setComposite (T := Samples.counters) (Some 2%positive)
      (EmbeddedAspect.new (T := Samples.counters) None 7) ∅ = Some (this', heap')
    /\ EmbeddedAspect.mTemporaryState this' = None
    /\ EmbeddedAspect.getState (T := Samples.counters) this' heap'
       = Some (7, this').
Proof.
  exact (constructed_state_reaches_composite Samples.counters None 7
           2%positive ∅ Samples_counters_track Samples_counters_agree).
Defined.

(** X24: when the base class keeps track of the composite and the accessors
    agree, the state of an aspect survives its move to another composite:
    [loseComposite] saves the embedded state in the aspect and leaves the
    memory outside as it is, the aspect without composite reports that
    state, and after [setComposite] the state is read from the new
    composite, the temporary state being null again. *)
Theorem state_survives_transfer (T : EmbeddedAspect.Template)
    (this : EmbeddedAspect.EmbeddedStateAspect EmbeddedAspect.BaseT
                                               EmbeddedAspect.StateT)
    (heap : EmbeddedAspect.Heap) (state : EmbeddedAspect.StateT)
    (oldComposite : option EmbeddedAspect.Composite)
    (newComposite : EmbeddedAspect.Composite) :
  tracksComposite T -> accessorsAgree T ->
  EmbeddedAspect.GetEmbeddedState this heap = Some state ->
  exists this1 this2 heap',
    EmbeddedAspect.loseComposite oldComposite this heap = Some (this1, heap)
    /\ EmbeddedAspect.getState this1 heap = Some (state, this1)
    /\ EmbeddedAspect.setComposite (Some newComposite) this1 heap
       = Some (this2, heap')
    /\ EmbeddedAspect.mTemporaryState this2 = None
    /\ EmbeddedAspect.getState this2 heap' = Some (state, this2).
Proof.
  intros [Hset Hlose] Hagree Hget.
  unfold EmbeddedAspect.loseComposite. rewrite Hget. simpl.
  exists {| EmbeddedAspect.base :=
              EmbeddedAspect.Base_loseComposite oldComposite
                (EmbeddedAspect.base this);
            EmbeddedAspect.mTemporaryState := Some state |}.
  unfold EmbeddedAspect.setComposite. simpl.
  match goal with
  | |- context [EmbeddedAspect.SetEmbeddedState ?a state heap] =>
      destruct (Hagree a
                  {| EmbeddedAspect.base := EmbeddedAspect.base a;
                     EmbeddedAspect.mTemporaryState := None |} state heap)
        as (heap' & Hwrite & Hread);
      [reflexivity|simpl; rewrite Hset; eauto|]
  end.
  simpl in *. rewrite Hwrite. simpl. eexists _, heap'.
  split; [reflexivity|].
  split; [unfold EmbeddedAspect.getState; simpl; by rewrite Hlose|].
  split; [reflexivity|]. split; [reflexivity|].
  unfold EmbeddedAspect.getState. simpl. by rewrite Hset, Hread.
Qed.

Lemma state_survives_transfer_witness :
  exists this1 this2 heap',
    EmbeddedAspect.loseComposite (T := Samples.counters) (Some 1%positive)
      Samples.attached {[ 1%positive := 9 ]}
    = Some (this1, {[ 1%positive := 9 ]})
    /\ EmbeddedAspect.getState (T := Samples.counters) this1
         {[ 1%positive := 9 ]} = Some (9, this1)
    /\ EmbeddedAspect.setComposite (T := Samples.counters) (Some 2%positive)
         this1 {[ 1%positive := 9 ]}
       = Some (this2, heap')
    /\ EmbeddedAspect.mTemporaryState this2 = None
    /\ EmbeddedAspect.getState (T := Samples.counters) this2 heap'
       = Some (9, this2).
Proof.
  exact (state_survives_transfer Samples.counters Samples.attached
           {[ 1%positive := 9 ]} 9 (Some 1%positive) 2%positive
           Samples_counters_track Samples_counters_agree eq_refl).
Defined.

(** X25: [DefaultSetEmbeddedState] and [DefaultGetEmbeddedState] return
    exactly on an aspect that has a composite (they dereference it), and
    they agree as soon as the composite reads back the state it was set
    to. *)
Theorem default_accessors_agree (T : EmbeddedAspect.Template)
    (setAspectState : EmbeddedAspect.Composite -> EmbeddedAspect.StateT
                      -> EmbeddedAspect.Heap -> EmbeddedAspect.Heap)
    (getAspectState : EmbeddedAspect.Composite -> EmbeddedAspect.Heap
                      -> EmbeddedAspect.StateT) :
  EmbeddedAspect.SetEmbeddedState
  = EmbeddedAspect.DefaultSetEmbeddedState EmbeddedAspect.getComposite
      setAspectState ->
  EmbeddedAspect.GetEmbeddedState
  = EmbeddedAspect.DefaultGetEmbeddedState EmbeddedAspect.getComposite
      getAspectState ->
  (forall aspect state heap,
     is_Some (EmbeddedAspect.SetEmbeddedState aspect state heap)
     <-> is_Some (EmbeddedAspect.getComposite (EmbeddedAspect.base aspect)))
  /\ (forall aspect heap,
        is_Some (EmbeddedAspect.GetEmbeddedState aspect heap)
        <-> is_Some (EmbeddedAspect.getComposite (EmbeddedAspect.base aspect)))
  /\ ((forall composite state heap,
         getAspectState composite (setAspectState composite state heap)
         = state) ->
      accessorsAgree T).
Proof.
  intros Hset Hget. rewrite Hset, Hget.
  unfold EmbeddedAspect.DefaultSetEmbeddedState,
    EmbeddedAspect.DefaultGetEmbeddedState.
  split; [|split].
  - intros aspect state heap.
    destruct (EmbeddedAspect.getComposite (EmbeddedAspect.base aspect));
      simpl; split; intros [? ?]; eauto; discriminate.
  - intros aspect heap.
    destruct (EmbeddedAspect.getComposite (EmbeddedAspect.base aspect));
      simpl; split; intros [? ?]; eauto; discriminate.
  - intros Hlaw aspect aspect' state heap Hbase [composite Hcomposite].
    rewrite Hset, Hget.
    unfold EmbeddedAspect.DefaultSetEmbeddedState,
      EmbeddedAspect.DefaultGetEmbeddedState.
    rewrite <- Hbase, Hcomposite. simpl. eexists. split; [reflexivity|].
    by rewrite Hlaw.
Qed.

Lemma default_accessors_agree_witness : accessorsAgree Samples.counters.
Proof.
  apply (default_accessors_agree Samples.counters
           (fun composite state heap => <[composite := state]> heap)
           (fun composite heap => default 0 (heap !! composite))
           eq_refl eq_refl).
  intros composite state heap. simpl. by rewrite lookup_insert_eq.
Defined.
